(** * proxy_rss.py: proxy aggregation and fetch-with-failover pipeline

    A shallow embedding of [src/proxy_rss.py].  The five proxy listing
    functions, the fetcher, the two retry loops, the GitHub publisher and
    [main] are translated function by function.  Everything outside the
    file (the network, the pseudo-random generator, a few runtime
    conversions) is an explicit environment: a state machine that answers
    the program's requests.  Every function is a computation that threads
    the environment state, may raise a Python exception, and records the
    I/O it performs in a trace.

    The two scaffolding scripts, [src/html/create.py] and
    [src/backend/productsbalancefiles.py], are embedded over a directory
    tree: their steps thread the tree, may raise an [OSError], and record
    the lines they print. *)

From Stdlib Require Import ZArith Lia Bool Ascii String List Permutation.
From Stdlib Require Import DecimalString.
From stdpp Require Import base list.
Import ListNotations.

Local Open Scope string_scope.
Local Open Scope list_scope.
Local Open Scope nat_scope.

(* ===================================================================== *)
(** * Python strings *)
(* ===================================================================== *)

(** A Python [str] is modelled as a [string] of code points below 256
    (Latin-1); code points above that range are outside the model. *)
Module PyStr.

Definition code (c : ascii) : nat := nat_of_ascii c.

(** [str.isspace] on one code point below 256. *)
Definition isspace (c : ascii) : bool :=
  let n := code c in
  ((9 <=? n) && (n <=? 13)) || ((28 <=? n) && (n <=? 32))
  || (n =? 133) || (n =? 160).

(** The line boundaries of [str.splitlines] below 256. *)
Definition islinebreak (c : ascii) : bool :=
  let n := code c in
  ((10 <=? n) && (n <=? 13)) || ((28 <=? n) && (n <=? 30)) || (n =? 133).

Definition lower_char (c : ascii) : ascii :=
  let n := code c in
  if ((65 <=? n) && (n <=? 90))
     || ((192 <=? n) && (n <=? 222) && negb (n =? 215))
  then ascii_of_nat (n + 32) else c.

Fixpoint map_chars (f : ascii -> ascii) (s : string) : string :=
  match s with
  | EmptyString => EmptyString
  | String c s' => String (f c) (map_chars f s')
  end.

(** [s.lower()] *)
Definition lower (s : string) : string := map_chars lower_char s.

(** [bool(s)]: a string is truthy when it is not empty. *)
Definition nonempty (s : string) : bool :=
  match s with EmptyString => false | String _ _ => true end.

Fixpoint lstrip (s : string) : string :=
  match s with
  | EmptyString => EmptyString
  | String c s' => if isspace c then lstrip s' else s
  end.

Fixpoint rstrip (s : string) : string :=
  match s with
  | EmptyString => EmptyString
  | String c s' =>
      match rstrip s' with
      | EmptyString => if isspace c then EmptyString else String c EmptyString
      | r => String c r
      end
  end.

(** [s.strip()] *)
Definition strip (s : string) : string := rstrip (lstrip s).

Fixpoint startswith (p s : string) : bool :=
  match p, s with
  | EmptyString, _ => true
  | String a p', String b s' => Ascii.eqb a b && startswith p' s'
  | String _ _, EmptyString => false
  end.

(** [needle in hay] *)
Fixpoint contains (needle hay : string) : bool :=
  startswith needle hay
  || match hay with
     | EmptyString => false
     | String _ hay' => contains needle hay'
     end.

(** [s.split(sep)] for a separator of one character. *)
Fixpoint split_char (sep : ascii) (s : string) : list string :=
  match s with
  | EmptyString => [EmptyString]
  | String c s' =>
      if Ascii.eqb c sep then EmptyString :: split_char sep s'
      else match split_char sep s' with
           | w :: ws => String c w :: ws
           | [] => [String c EmptyString]
           end
  end.

(** [s.split()]: the maximal runs of non-whitespace characters. *)
Fixpoint split_ws (s : string) : list string :=
  match s with
  | EmptyString => []
  | String c s' =>
      if isspace c then split_ws s'
      else match s' with
           | EmptyString => [String c EmptyString]
           | String c' _ =>
               if isspace c' then String c EmptyString :: split_ws s'
               else match split_ws s' with
                    | w :: ws => String c w :: ws
                    | [] => [String c EmptyString]
                    end
           end
  end.

(** [s.splitlines()]; [after_cr] remembers that the previous character
    was a carriage return, so that a line feed right after it belongs to
    the same boundary. *)
Fixpoint splitlines_from (after_cr : bool) (s : string) : list string :=
  match s with
  | EmptyString => []
  | String c s' =>
      if after_cr && (code c =? 10) then splitlines_from false s'
      else if islinebreak c
           then EmptyString :: splitlines_from (code c =? 13) s'
           else match splitlines_from false s' with
                | l :: ls => String c l :: ls
                | [] => [String c EmptyString]
                end
  end.

Definition splitlines (s : string) : list string := splitlines_from false s.

Definition is_digit (c : ascii) : bool :=
  (48 <=? code c) && (code c <=? 57).

Fixpoint all_chars (p : ascii -> bool) (s : string) : bool :=
  match s with
  | EmptyString => true
  | String c s' => p c && all_chars p s'
  end.

Fixpoint decimal_value (acc : Z) (s : string) : Z :=
  match s with
  | EmptyString => acc
  | String c s' => decimal_value (10 * acc + Z.of_nat (code c - 48))%Z s'
  end.

(** [str(n)] for an integer. *)
Definition of_Z (n : Z) : string := NilZero.string_of_int (Z.to_int n).

End PyStr.

(* ===================================================================== *)
(** * Python values, exceptions, results *)
(* ===================================================================== *)

(** The exceptions the program can meet.  All of them derive from
    [Exception], so [except Exception] catches every one. *)
Inductive exn : Type :=
| ConnectionError
| ReadTimeout
| HTTPError (status : Z)
| JSONDecodeError
| AttributeError
| TypeError
| ValueError
| IndexError.

(** The outcome of evaluating a Python expression or statement. *)
Inductive res (A : Type) : Type :=
| Ok (a : A)
| Raise (e : exn).
Arguments Ok {A} a.
Arguments Raise {A} e.

Definition res_bind {A B} (r : res A) (f : A -> res B) : res B :=
  match r with
  | Ok a => f a
  | Raise e => Raise e
  end.

(** What [response.json()] can produce.  JSON numbers are integers here
    (floating point numbers are outside the model), and the keys of an
    object are distinct, as they are in the dict [json] builds. *)
#[warnings="-register-all"]
Inductive pyval : Type :=
| PNone
| PBool (b : bool)
| PInt (n : Z)
| PStr (s : string)
| PList (l : list pyval)
| PDict (kv : list (string * pyval)).

(** [bool(v)] *)
Definition truthy (v : pyval) : bool :=
  match v with
  | PNone => false
  | PBool b => b
  | PInt n => negb (n =? 0)%Z
  | PStr s => PyStr.nonempty s
  | PList l => match l with [] => false | _ :: _ => true end
  | PDict kv => match kv with [] => false | _ :: _ => true end
  end.

Fixpoint assoc_get (k : string) (kv : list (string * pyval)) : option pyval :=
  match kv with
  | [] => None
  | (k', v) :: kv' => if String.eqb k k' then Some v else assoc_get k kv'
  end.

(** [v.get(k, default)]: only a dict has the method. *)
Definition dict_get (v : pyval) (k : string) (default : pyval) : res pyval :=
  match v with
  | PDict kv => Ok (match assoc_get k kv with Some x => x | None => default end)
  | _ => Raise AttributeError
  end.

(** [v.lower()], [v.strip()], [v.split(sep)]: only a str has them. *)
Definition str_lower (v : pyval) : res string :=
  match v with PStr s => Ok (PyStr.lower s) | _ => Raise AttributeError end.

Definition str_strip (v : pyval) : res string :=
  match v with PStr s => Ok (PyStr.strip s) | _ => Raise AttributeError end.

Definition str_split (sep : ascii) (v : pyval) : res (list string) :=
  match v with PStr s => Ok (PyStr.split_char sep s) | _ => Raise AttributeError end.

Fixpoint chars (s : string) : list pyval :=
  match s with
  | EmptyString => []
  | String c s' => PStr (String c EmptyString) :: chars s'
  end.

(** [for x in v]: the items the loop visits. *)
Definition py_iter (v : pyval) : res (list pyval) :=
  match v with
  | PList l => Ok l
  | PStr s => Ok (chars s)
  | PDict kv => Ok (map (fun p => PStr (fst p)) kv)
  | _ => Raise TypeError
  end.

(** [a, b = parts] *)
Definition unpack2 (parts : list string) : res (string * string) :=
  match parts with
  | [a; b] => Ok (a, b)
  | _ => Raise ValueError
  end.

(* ===================================================================== *)
(** * Data of the program and of its environment *)
(* ===================================================================== *)

(** The dict [{"ip": ..., "port": ..., "type": ...}] every listing function
    builds; the three keys are always present and hold strings. *)
Record ProxyDict : Type := mkProxy {
  ip : string;
  port : string;
  type : string
}.

(** What BeautifulSoup gives for a [td]: its classes and
    [get_text(strip=True)]. *)
Record Td : Type := mkTd {
  td_class : list string;
  td_text : string
}.

(** A [tr] is the list of its [td] cells, [row.find_all("td")]. *)
Definition Tr : Type := list Td.

(** [BeautifulSoup(response.text, "html.parser")] as far as the scraper
    looks at it: [soup.find("table", class_="layui-table")], then
    [table.find("tbody")], then [tbody.find_all("tr")]. *)
Record Soup : Type := mkSoup {
  layui_table : option (option (list Tr))
}.

Record Response : Type := mkResponse {
  status_code : Z;
  text : string;
  json : res pyval;      (* response.json() *)
  soup : Soup
}.

(** The keyword arguments of [requests.get] and [requests.put]; an absent
    argument is an empty list or [None]. *)
Record Request : Type := mkRequest {
  url : string;
  proxies : list (string * string);
  headers : list (string * string);
  timeout : option Z
}.

(** The dict sent by [requests.put], before [json.dumps]. *)
Record PutData : Type := mkPutData {
  message : string;
  content : string;
  branch : string;
  sha : option pyval
}.

(** One argument of [print].  [TxtUpper before s after] is the string
    [before + s.upper() + after]: [str.upper] is kept as written, not
    computed, since its result can leave the range of the model (the
    micro sign, y with diaeresis) and can be longer than [s] (sharp s
    gives SS). *)
Inductive printed : Type :=
| Txt (s : string)
| Err (e : exn)
| Num (n : Z)
| Val (v : pyval)
| TxtUpper (before s after : string).

(** The observable actions of a run, in the order they happen. *)
Inductive event : Type :=
| EvGet (rq : Request) (rp : res Response)
| EvPut (rq : Request) (d : PutData) (rp : res Response)
| EvShuffle (before after : list ProxyDict)
| EvPrint (args : list printed).

(** The world outside the program.  It has a state of its own and answers
    each request from that state; a theorem quantified over all
    environments covers every behaviour of the network and of the random
    generator.  [randbelow_io n] stands for [random._randbelow(n)], reduced
    modulo [n] where it is used.  [py_repr] is [str] on a list or a dict
    and [b64encode] is [base64.b64encode(s.encode()).decode()]. *)
Record Env : Type := mkEnv {
  env_state : Type;
  requests_get_io : Request -> env_state -> res Response * env_state;
  requests_put_io : Request -> PutData -> env_state -> res Response * env_state;
  randbelow_io : nat -> env_state -> nat * env_state;
  py_repr : pyval -> string;
  b64encode : string -> string
}.

(* ===================================================================== *)
(** * The monad of the program: environment state, exceptions, trace *)
(* ===================================================================== *)

Section Monad.
Context {E : Env}.

Definition M (A : Type) : Type :=
  env_state E -> res A * env_state E * list event.

Definition ret {A} (a : A) : M A := fun s => (Ok a, s, []).

Definition bind {A B} (m : M A) (f : A -> M B) : M B :=
  fun s =>
    match m s with
    | (Ok a, s1, t1) => let '(r, s2, t2) := f a s1 in (r, s2, t1 ++ t2)
    | (Raise e, s1, t1) => (Raise e, s1, t1)
    end.

Definition raise {A} (e : exn) : M A := fun s => (Raise e, s, []).

Definition lift {A} (r : res A) : M A :=
  match r with Ok a => ret a | Raise e => raise e end.

(** [try: body / except Exception as e: handler e] *)
Definition try_except {A} (body : M A) (handler : exn -> M A) : M A :=
  fun s =>
    match body s with
    | (Ok a, s1, t1) => (Ok a, s1, t1)
    | (Raise e, s1, t1) => let '(r, s2, t2) := handler e s1 in (r, s2, t1 ++ t2)
    end.

Definition emit (ev : event) : M unit := fun s => (Ok tt, s, [ev]).

Definition print (args : list printed) : M unit := emit (EvPrint args).

Definition requests_get (rq : Request) : M Response :=
  fun s => let '(rp, s') := requests_get_io E rq s in (rp, s', [EvGet rq rp]).

Definition requests_put (rq : Request) (d : PutData) : M Response :=
  fun s => let '(rp, s') := requests_put_io E rq d s in (rp, s', [EvPut rq d rp]).

Definition randbelow (n : nat) : M nat :=
  fun s => let '(r, s') := randbelow_io E n s in (Ok (r mod n), s', []).

(** [response.raise_for_status()]: [HTTPError] for a status from 400 to
    599, nothing otherwise. *)
Definition raise_for_status (r : Response) : M unit :=
  if ((400 <=? status_code r) && (status_code r <? 600))%Z
  then raise (HTTPError (status_code r))
  else ret tt.

Definition result_of {A} (x : res A * env_state E * list event) : res A :=
  fst (fst x).
Definition state_of {A} (x : res A * env_state E * list event) : env_state E :=
  snd (fst x).
Definition trace_of {A} (x : res A * env_state E * list event) : list event :=
  snd x.

End Monad.
Arguments M : clear implicits.

Declare Scope py_scope.
Delimit Scope py_scope with py.
Notation "x <- c1 ;; c2" := (bind c1 (fun x => c2))
  (at level 100, c1 at next level, right associativity) : py_scope.
Notation "c1 ;; c2" := (bind c1 (fun _ => c2))
  (at level 100, right associativity) : py_scope.
Local Open Scope py_scope.

(** String concatenation, as [+] on [str] and as the pieces of an f-string. *)
Infix "+:+" := String.append (at level 60, right associativity) : py_scope.

Notation "'let?' x ':=' c1 'in' c2" := (res_bind c1 (fun x => c2))
  (at level 10, x name, c1 at level 100, c2 at level 200) : py_scope.

(** The newline inside a few of the printed texts. *)
Definition nl : string := String (ascii_of_nat 10) EmptyString.

(** [len(l)] as printed inside an f-string. *)
Definition len_str {A} (l : list A) : string := PyStr.of_Z (Z.of_nat (length l)).

(* ===================================================================== *)
(** * Loops that build the list of proxies *)
(* ===================================================================== *)

(** [for x in items: body], where one turn of [body] appends at most one
    record to the list ([Ok (Some p)]), skips ([Ok None]) or raises.  The
    result is the list as it stands when the loop ends, with the exception
    that ended it, if any: what was appended before stays appended. *)
Fixpoint for_append {A} (body : A -> res (option ProxyDict)) (items : list A)
    (acc : list ProxyDict) : list ProxyDict * res unit :=
  match items with
  | [] => (acc, Ok tt)
  | x :: xs =>
      match body x with
      | Ok None => for_append body xs acc
      | Ok (Some p) => for_append body xs (acc ++ [p])
      | Raise e => (acc, Raise e)
      end
  end.

Section Program.
Context {E : Env}.

(** [for x in items: acc = f x acc] for a body with effects. *)
Fixpoint for_each {A B} (f : A -> B -> M E B) (items : list A) (acc : B)
    : M E B :=
  match items with
  | [] => ret acc
  | x :: xs => acc' <- f x acc;; for_each f xs acc'
  end.

(** The shape shared by the four API listing functions:
<<
    try:
        items = prelude          # request and parsing, appends nothing
        for x in items: body     # appends at most one record per turn
    except Exception as e:
        handler e
>>
    It yields the list, whatever happened. *)
Definition try_collect {A} (prelude : M E (list A))
    (body : A -> res (option ProxyDict)) (handler : exn -> M E unit)
    (acc : list ProxyDict) : M E (list ProxyDict) :=
  r <- try_except (items <- prelude;; ret (Some items))
                  (fun e => handler e;; ret None);;
  match r with
  | None => ret acc
  | Some items =>
      match for_append body items acc with
      | (acc', Ok _) => ret acc'
      | (acc', Raise e) => handler e;; ret acc'
      end
  end.

Definition get (u : string) (t : Z) : Request :=
  {| url := u; proxies := []; headers := []; timeout := Some t |}.

(* =================================================================== *)
(** * 1) freeproxy.world *)
(* =================================================================== *)

Definition has_class (c : string) (cell : Td) : bool :=
  existsb (String.eqb c) (td_class cell).

(** The body of [for row in rows]. *)
Definition freeproxy_row (row : Tr) : res (option ProxyDict) :=
  let cells := row in
  match cells with
  | c0 :: c1 :: _ :: _ :: _ :: c5 :: _ =>
      let ip :=
        match List.find (has_class "show-ip-div") row with
        | Some ip_cell => td_text ip_cell
        | None => td_text c0
        end in
      let port := td_text c1 in
      let proxy_type := PyStr.lower (td_text c5) in
      match PyStr.split_ws proxy_type with
      | [] => Raise IndexError                (* proxy_type.split()[0] *)
      | proxy_type :: _ =>
          if PyStr.nonempty ip && PyStr.nonempty port
             && PyStr.nonempty proxy_type
          then Ok (Some {| ip := ip; port := port; type := proxy_type |})
          else Ok None
      end
  | _ => Ok None                              (* len(cells) < 6: continue *)
  end.

Definition get_jp_proxies_from_freeproxy_world : M E (list ProxyDict) :=
  let url := "https://www.freeproxy.world/?country=JP" in
  r <- try_except
         (response <- requests_get (get url 10);;
          raise_for_status response;;
          ret (Some response))
         (fun e =>
            print [Txt "Error fetching freeproxy.world page:"; Err e];;
            ret None);;
  match r with
  | None => ret []
  | Some response =>
      match layui_table (soup response) with
      | None =>
          print [Txt "Proxy table not found on freeproxy.world."];; ret []
      | Some None =>
          print [Txt "Table body not found on freeproxy.world."];; ret []
      | Some (Some rows) =>
          match for_append freeproxy_row rows [] with
          | (_, Raise e) => raise e
          | (proxies, Ok _) =>
              print [Txt ("[freeproxy.world] Found " +:+ len_str proxies
                          +:+ " proxies.")];;
              ret proxies
          end
      end
  end.

(* =================================================================== *)
(** * 2) ProxyScrape *)
(* =================================================================== *)

Definition proxyscrape_line (proto_type : string) (line : string)
    : res (option ProxyDict) :=
  let line := PyStr.strip line in
  if negb (PyStr.nonempty line) || negb (PyStr.contains ":" line)
  then Ok None
  else
    let? parts := unpack2 (PyStr.split_char ":" line) in
    let '(ip, port) := parts in
    Ok (Some {| ip := PyStr.strip ip; port := PyStr.strip port;
                type := proto_type |}).

Definition proxyscrape_protocol (proto : string * string)
    (all_proxies : list ProxyDict) : M E (list ProxyDict) :=
  let '(proto_param, proto_type) := proto in
  let base_url := "https://api.proxyscrape.com/v2/?request=displayproxies&country=JP&timeout=10000&anonymity=all" in
  let url := base_url +:+ "&protocol=" +:+ proto_param in
  try_collect
    (resp <- requests_get (get url 10);;
     raise_for_status resp;;
     ret (PyStr.splitlines (PyStr.strip (text resp))))
    (proxyscrape_line proto_type)
    (fun e => print [Txt ("[ProxyScrape - " +:+ proto_param +:+ "] Error:"); Err e])
    all_proxies.

Definition get_jp_proxies_from_proxyscrape : M E (list ProxyDict) :=
  let protocols := [("http", "http"); ("socks4", "socks4"); ("socks5", "socks5")] in
  all_proxies <- for_each proxyscrape_protocol protocols [];;
  print [Txt ("[ProxyScrape] Total proxies found: " +:+ len_str all_proxies)];;
  ret all_proxies.

(* =================================================================== *)
(** * 3) Proxyscan.io *)
(* =================================================================== *)

Definition proxyscan_entry (entry : pyval) : res (option ProxyDict) :=
  let? ip := dict_get entry "Ip" PNone in
  let? port := dict_get entry "Port" PNone in
  let? t := dict_get entry "Type" (PStr "") in
  let? ptype := str_lower t in
  if truthy ip && truthy port && PyStr.nonempty ptype then
    let ptype := if String.eqb ptype "https" then "http" else ptype in
    let? ip := str_strip ip in
    let? port := str_strip port in
    Ok (Some {| ip := ip; port := port; type := ptype |})
  else Ok None.

Definition get_jp_proxies_from_proxyscan : M E (list ProxyDict) :=
  let url := "https://www.proxyscan.io/api/proxy?country=JP&type=http,https,socks4,socks5&limit=20&format=json" in
  proxies_list <-
    try_collect
      (resp <- requests_get (get url 10);;
       raise_for_status resp;;
       data <- lift (json resp);;
       lift (py_iter data))
      proxyscan_entry
      (fun e => print [Txt "[Proxyscan] Error:"; Err e])
      [];;
  print [Txt ("[Proxyscan] Found " +:+ len_str proxies_list +:+ " proxies.")];;
  ret proxies_list.

(* =================================================================== *)
(** * 4) PubProxy *)
(* =================================================================== *)

Definition pubproxy_item (proxy_type : string) (item : pyval)
    : res (option ProxyDict) :=
  let? ip_port := dict_get item "ipPort" (PStr "") in
  if truthy ip_port then
    let? parts := str_split ":" ip_port in
    let? parts := unpack2 parts in
    let '(ip, port) := parts in
    Ok (Some {| ip := PyStr.strip ip; port := PyStr.strip port;
                type := proxy_type |})
  else Ok None.

(** One of the three [try] blocks: [query] is the part of the URL after
    [limit=20], [label] the tag of the diagnostic. *)
Definition pubproxy_tier (tier : string * string * string)
    (proxies_list : list ProxyDict) : M E (list ProxyDict) :=
  let '(query, label, proxy_type) := tier in
  let base_url := "http://pubproxy.com/api/proxy" in
  let url := base_url +:+ "?country=JP&limit=20&type=" +:+ query +:+ "&format=json" in
  try_collect
    (resp <- requests_get (get url 10);;
     raise_for_status resp;;
     data <- lift (json resp);;
     lift (let? items := dict_get data "data" (PList []) in py_iter items))
    (pubproxy_item proxy_type)
    (fun e => print [Txt ("[PubProxy - " +:+ label +:+ "] Error:"); Err e])
    proxies_list.

Definition get_jp_proxies_from_pubproxy : M E (list ProxyDict) :=
  proxies_list <-
    for_each pubproxy_tier
      [("http&https=true", "HTTP", "http");
       ("socks4", "SOCKS4", "socks4");
       ("socks5", "SOCKS5", "socks5")] [];;
  print [Txt ("[PubProxy] Found " +:+ len_str proxies_list +:+ " proxies.")];;
  ret proxies_list.

(* =================================================================== *)
(** * 5) GetProxyList *)
(* =================================================================== *)

(** [str(v)] *)
Definition py_str (v : pyval) : string :=
  match v with
  | PNone => "None"
  | PBool true => "True"
  | PBool false => "False"
  | PInt n => PyStr.of_Z n
  | PStr s => s
  | _ => py_repr E v
  end.

(** From [data = resp.json()] to the start of [for proto in protocols]:
    the address, the port and the items the loop will visit. *)
Definition getproxylist_protocols (data : pyval)
    : res (list (pyval * pyval * pyval)) :=
  let? ip := dict_get data "ip" PNone in
  let? port := dict_get data "port" PNone in
  let? protocols := dict_get data "protocols" (PList []) in
  let? protocols :=
    if negb (truthy protocols) then
      let? p := dict_get data "protocol" (PStr "") in
      let? proto := str_lower p in
      Ok (if PyStr.nonempty proto then PList [PStr proto] else protocols)
    else Ok protocols in
  let? items := py_iter protocols in
  Ok (map (fun proto => (ip, port, proto)) items).

(** The body of [for proto in protocols]. *)
Definition getproxylist_proto (x : pyval * pyval * pyval)
    : res (option ProxyDict) :=
  let '(ip, port, proto) := x in
  let? proto := str_lower proto in
  let proto := if String.eqb proto "https" then "http" else proto in
  if truthy ip && truthy port
     && existsb (String.eqb proto) ["http"; "socks4"; "socks5"]
  then Ok (Some {| ip := PyStr.strip (py_str ip);
                   port := PyStr.strip (py_str port);
                   type := proto |})
  else Ok None.

Definition getproxylist_request (_ : nat) (proxies_list : list ProxyDict)
    : M E (list ProxyDict) :=
  let base_url := "https://api.getproxylist.com/proxy?country[]=JP" in
  try_collect
    (resp <- requests_get (get base_url 10);;
     raise_for_status resp;;
     data <- lift (json resp);;
     lift (getproxylist_protocols data))
    getproxylist_proto
    (fun e => print [Txt "[GetProxyList] Single request error:"; Err e])
    proxies_list.

Definition get_jp_proxies_from_getproxylist (num_requests : nat)
    : M E (list ProxyDict) :=
  proxies_list <- for_each getproxylist_request (seq 0 num_requests) [];;
  print [Txt ("[GetProxyList] Gathered " +:+ len_str proxies_list
              +:+ " proxies from " +:+ PyStr.of_Z (Z.of_nat num_requests)
              +:+ " requests.")];;
  ret proxies_list.

(* =================================================================== *)
(** * Fetching the feed through one proxy *)
(* =================================================================== *)

(** [if rss_content:] on what the fetcher returned. *)
Definition truthy_content (rss_content : option string) : bool :=
  match rss_content with
  | Some c => PyStr.nonempty c
  | None => false
  end.

Definition proxy_request (rss_url : string) (proxy_data : ProxyDict)
    : Request :=
  let proxy_url := type proxy_data +:+ "://" +:+ ip proxy_data +:+ ":"
                   +:+ port proxy_data in
  {| url := rss_url;
     proxies := [("http", proxy_url); ("https", proxy_url)];
     headers := [];
     timeout := Some 15%Z |}.

Definition fetch_rss_with_proxy (rss_url : string) (proxy_data : ProxyDict)
    : M E (option string) :=
  let proxy_type := type proxy_data in
  let ip := ip proxy_data in
  let port := port proxy_data in
  try_except
    (print [TxtUpper "  Trying " proxy_type
                     (" proxy " +:+ ip +:+ ":" +:+ port +:+ " ...")];;
     response <- requests_get (proxy_request rss_url proxy_data);;
     raise_for_status response;;
     let content := text response in
     if negb (PyStr.contains "<dc:date>" content) then
       print [Txt "    Content does NOT contain <dc:date>; not a valid RSS feed."];;
       ret None
     else ret (Some content))
    (fun e =>
       print [Txt ("    Failed with " +:+ ip +:+ ":" +:+ port +:+ " ("
                   +:+ proxy_type +:+ "):"); Err e];;
       ret None).

Fixpoint try_all_proxies_once (rss_url : string)
    (proxies_list : list ProxyDict) : M E (option string) :=
  match proxies_list with
  | [] => ret None
  | proxy_data :: rest =>
      rss_content <- fetch_rss_with_proxy rss_url proxy_data;;
      if truthy_content rss_content then ret rss_content
      else try_all_proxies_once rss_url rest
  end.

(* =================================================================== *)
(** * random.shuffle *)
(* =================================================================== *)

(** [x[i], x[j] = x[j], x[i]] *)
Definition swap (i j : nat) (x : list ProxyDict) : list ProxyDict :=
  match x !! i, x !! j with
  | Some xi, Some xj => <[j:=xi]> (<[i:=xj]> x)
  | _, _ => x
  end.

(** The loop of CPython's [Random.shuffle]:
<<
    for i in reversed(range(1, len(x))):
        j = randbelow(i + 1)
        x[i], x[j] = x[j], x[i]
>>
    [shuffle_from i x] runs it from index [i] down to 1. *)
Fixpoint shuffle_from (i : nat) (x : list ProxyDict) : M E (list ProxyDict) :=
  match i with
  | 0 => ret x
  | S i' =>
      j <- randbelow (i + 1);;
      shuffle_from i' (swap i j x)
  end.

(** [random.shuffle(x)]; the result is the new content of the list
    object [x]. *)
Definition random_shuffle (x : list ProxyDict) : M E (list ProxyDict) :=
  x' <- shuffle_from (length x - 1) x;;
  emit (EvShuffle x x');;
  ret x'.

(* =================================================================== *)
(** * Rounds of attempts *)
(* =================================================================== *)

(** The turns of [for attempt_idx in range(attempts)] still to run, with
    the list object in its current order.  The result is what the
    function returns together with the final content of the list. *)
Fixpoint attempt_rounds (rss_url : string) (attempts remaining : nat)
    (proxies_list : list ProxyDict) : M E (option string * list ProxyDict) :=
  match remaining with
  | 0 => ret (None, proxies_list)
  | S remaining' =>
      let attempt_idx := attempts - remaining in
      print [Txt (nl +:+ "Attempt " +:+ PyStr.of_Z (Z.of_nat (attempt_idx + 1))
                  +:+ " of " +:+ PyStr.of_Z (Z.of_nat attempts) +:+ " ...")];;
      proxies_list <- random_shuffle proxies_list;;
      rss_content <- try_all_proxies_once rss_url proxies_list;;
      if truthy_content rss_content then ret (rss_content, proxies_list)
      else attempt_rounds rss_url attempts remaining' proxies_list
  end.

Definition try_proxies_multiple_attempts (rss_url : string)
    (proxies_list : list ProxyDict) (attempts : nat)
    : M E (option string * list ProxyDict) :=
  attempt_rounds rss_url attempts attempts proxies_list.

(* =================================================================== *)
(** * Publishing to the GitHub repository *)
(* =================================================================== *)

Definition REPO_OWNER : string := "ituberus".
Definition REPO_NAME : string := "Rdmansi".
Definition FILE_PATH : string := "rss.xml".
Definition BRANCH : string := "master".

(** The literal access token of the source is not reproduced. *)
Definition GITHUB_TOKEN : string := "<token>".

Definition github_url : string :=
  "https://api.github.com/repos/" +:+ REPO_OWNER +:+ "/" +:+ REPO_NAME
  +:+ "/contents/" +:+ FILE_PATH.

Definition github_request : Request :=
  {| url := github_url;
     proxies := [];
     headers := [("Authorization", "token " +:+ GITHUB_TOKEN);
                 ("Accept", "application/vnd.github.v3+json")];
     timeout := None |}.

Definition update_github_rss_feed (rss_content : string) : M E unit :=
  response <- requests_get github_request;;
  sha <- (if (status_code response =? 200)%Z then
            file_info <- lift (json response);;
            sha <- lift (dict_get file_info "sha" PNone);;
            print [Txt "File exists in repo; will update it."];;
            ret sha
          else
            print [Txt "File does not exist; will create a new one."];;
            ret PNone);;
  let b64_content := b64encode E rss_content in
  let data := {| message := "Update RSS feed";
                 content := b64_content;
                 branch := BRANCH;
                 sha := if truthy sha then Some sha else None |} in
  put_response <- requests_put github_request data;;
  if ((status_code put_response =? 200) || (status_code put_response =? 201))%Z
  then print [Txt "Successfully updated the GitHub repository with the new RSS feed."]
  else
    print [Txt "Failed to update the GitHub repository. Status Code:";
           Num (status_code put_response)];;
    body <- lift (json put_response);;
    print [Txt "Response:"; Val body].

(* =================================================================== *)
(** * Main logic *)
(* =================================================================== *)

Definition rss_url : string := "http://totogun.com/bbs/rss.php?bo_table=gnb_13".

(** One of the five blocks of [main], from the call of the listing
    function to the end of its [if]/[else].  [banner] holds the line
    printed before the attempts (the first block only).  [if rss_content:]
    holds when the content is a non-empty string.  The result tells
    whether the block executed [return]. *)
Definition source_block (lister : M E (list ProxyDict))
    (banner : list (list printed)) (attempts : nat)
    (success no_proxies : string) : M E bool :=
  proxies_list <- lister;;
  match proxies_list with
  | _ :: _ =>
      for_each (fun line (_ : unit) => print line) banner tt;;
      r <- try_proxies_multiple_attempts rss_url proxies_list attempts;;
      let rss_content := fst r in
      match rss_content with
      | Some c =>
          if PyStr.nonempty c then
            print [Txt (nl +:+ success)];;
            update_github_rss_feed c;;
            ret true
          else ret false
      | None => ret false
      end
  | [] =>
      print [Txt no_proxies];;
      ret false
  end.

Definition main : M E unit :=
  (* 1) freeproxy.world, 3 attempts *)
  print [Txt "Fetching JP proxies from freeproxy.world ..."];;
  returned <- source_block get_jp_proxies_from_freeproxy_world
    [[Txt (nl +:+ "Using freeproxy.world proxies (3 attempts):")]] 3
    "Successfully fetched RSS using freeproxy.world proxy!"
    "No Japanese proxies found on freeproxy.world or request failed.";;
  if returned : bool then ret tt else
  (* 2) ProxyScrape, 2 attempts *)
  print [Txt (nl +:+ "Now trying ProxyScrape (2 attempts) ...")];;
  returned <- source_block get_jp_proxies_from_proxyscrape [] 2
    "Successfully fetched RSS using ProxyScrape proxy!"
    "No JP proxies found on ProxyScrape or request failed.";;
  if returned : bool then ret tt else
  (* 3) Proxyscan.io, 2 attempts *)
  print [Txt (nl +:+ "Now trying Proxyscan.io (2 attempts) ...")];;
  returned <- source_block get_jp_proxies_from_proxyscan [] 2
    "Successfully fetched RSS using Proxyscan.io proxy!"
    "No JP proxies found on Proxyscan.io or request failed.";;
  if returned : bool then ret tt else
  (* 4) PubProxy, 2 attempts *)
  print [Txt (nl +:+ "Now trying PubProxy (2 attempts) ...")];;
  returned <- source_block get_jp_proxies_from_pubproxy [] 2
    "Successfully fetched RSS using PubProxy!"
    "No JP proxies found on PubProxy or request failed.";;
  if returned : bool then ret tt else
  (* 5) GetProxyList, 2 attempts *)
  print [Txt (nl +:+ "Now trying GetProxyList (2 attempts) ...")];;
  returned <- source_block (get_jp_proxies_from_getproxylist 10) [] 2
    "Successfully fetched RSS using GetProxyList!"
    "No JP proxies found from GetProxyList or requests failed.";;
  if returned : bool then ret tt else
  print [Txt (nl +:+ "FAILED to fetch a valid RSS feed after all attempts.")].

End Program.

(* ===================================================================== *)
(** * Reading a trace *)
(* ===================================================================== *)

(** Only [fetch_rss_with_proxy] passes [proxies] to [requests.get], only
    [update_github_rss_feed] passes [headers]; the five listing functions
    pass neither. *)
Definition is_fetch (e : event) : bool :=
  match e with
  | EvGet rq _ =>
      match proxies rq, headers rq with
      | _ :: _, [] => true
      | _, _ => false
      end
  | _ => false
  end.

Definition is_publish (e : event) : bool :=
  match e with
  | EvGet rq _ => match headers rq with [] => false | _ :: _ => true end
  | _ => false
  end.

Definition is_listing (e : event) : bool :=
  match e with
  | EvGet rq _ =>
      match proxies rq, headers rq with
      | [], [] => true
      | _, _ => false
      end
  | _ => false
  end.

Definition is_shuffle (e : event) : bool :=
  match e with EvShuffle _ _ => true | _ => false end.

Definition is_put (e : event) : bool :=
  match e with EvPut _ _ _ => true | _ => false end.

Definition is_print (e : event) : bool :=
  match e with EvPrint _ => true | _ => false end.

(** A response the fetcher takes as the feed: [raise_for_status] lets it
    pass and the body holds the marker. *)
Definition status_passes (r : Response) : bool :=
  negb ((400 <=? status_code r) && (status_code r <? 600))%Z.

Definition has_marker (body : string) : bool := PyStr.contains "<dc:date>" body.

Definition accepted (r : Response) : bool :=
  status_passes r && has_marker (text r).

(** The content a fetch attempt returned, read off its request event. *)
Definition fetch_success (e : event) : option string :=
  match e with
  | EvGet rq (Ok r) => if is_fetch e && accepted r then Some (text r) else None
  | _ => None
  end.

Definition is_success (e : event) : bool :=
  match fetch_success e with Some _ => true | None => false end.

(** What may happen before the first successful fetch: prints, listing
    requests, shuffles, fetch attempts that fail. *)
Definition before_success (e : event) : bool :=
  negb (is_success e) && negb (is_publish e) && negb (is_put e).

(** What may happen after it: no fetch, no listing, no shuffle. *)
Definition after_success (e : event) : bool :=
  negb (is_fetch e) && negb (is_listing e) && negb (is_shuffle e).

(** What a listing function does: prints and listing requests. *)
Definition listing_event (e : event) : bool := is_print e || is_listing e.

Fixpoint count (p : event -> bool) (t : list event) : nat :=
  match t with
  | [] => 0
  | e :: t' => (if p e then 1 else 0) + count p t'
  end.

(** The three outcomes of the specification's fetcher, read off what
    [fetch_rss_with_proxy] returns and prints: both [Invalid] and
    [NetworkFailure] return [None], with different diagnostics. *)
Inductive FetchOutcome : Type :=
| Success (content : string)
| Invalid
| NetworkFailure.

Definition no_marker_line : event :=
  EvPrint [Txt "    Content does NOT contain <dc:date>; not a valid RSS feed."].

Definition is_no_marker_line (e : event) : bool :=
  match e with
  | EvPrint [Txt s] =>
      String.eqb s "    Content does NOT contain <dc:date>; not a valid RSS feed."
  | _ => false
  end.

Definition outcome {E : Env} (x : res (option string) * env_state E * list event)
    : FetchOutcome :=
  match result_of x with
  | Ok (Some c) => Success c
  | _ => if existsb is_no_marker_line (trace_of x) then Invalid else NetworkFailure
  end.

(** The steps of a round that are counted below. *)
Inductive step_kind : Type := KShuffle | KFetch.

Fixpoint kinds (t : list event) : list step_kind :=
  match t with
  | [] => []
  | e :: t' =>
      if is_shuffle e then KShuffle :: kinds t'
      else if is_fetch e then KFetch :: kinds t'
      else kinds t'
  end.

Definition failed_line : event :=
  EvPrint [Txt (nl +:+ "FAILED to fetch a valid RSS feed after all attempts.")].

(** The two lines [fetch_rss_with_proxy] prints around its request. *)
Definition trying_line (p : ProxyDict) : event :=
  EvPrint [TxtUpper "  Trying " (type p)
                    (" proxy " +:+ ip p +:+ ":" +:+ port p +:+ " ...")].

Definition failed_with_line (p : ProxyDict) (e : exn) : event :=
  EvPrint [Txt ("    Failed with " +:+ ip p +:+ ":" +:+ port p +:+ " ("
                +:+ type p +:+ "):"); Err e].

(** The trace of a computation that ended on a successful fetch of [c]:
    nothing but failures before, the successful request last. *)
Definition win_trace (t : list event) (c : string) : Prop :=
  exists t0 e, t = t0 ++ [e] /\ forallb before_success t0 = true
               /\ fetch_success e = Some c.

Definition lost {E : Env} {A} (r : option string)
    (x : res A * env_state E * list event)
    : Prop :=
  r = None /\ forallb before_success (trace_of x) = true.

Definition won {E : Env} {A} (r : option string)
    (x : res A * env_state E * list event)
    : Prop :=
  exists c, r = Some c /\ has_marker c = true /\ win_trace (trace_of x) c.

(** A list of proxies each of which fails in every state of the world. *)
Definition always_fail (E : Env) (url : string) (l : list ProxyDict) : Prop :=
  forall (p : ProxyDict) (s : env_state E),
    In p l -> result_of (fetch_rss_with_proxy url p s) = Ok None.

(** A computation that returns in every state of the world. *)
Definition never_raises {E : Env} {A} (m : M E A) : Prop :=
  forall s : env_state E, exists a, result_of (m s) = Ok a.

(** A computation all of whose events satisfy [P]. *)
Definition quiet {E : Env} {A} (P : event -> bool) (m : M E A) : Prop :=
  forall s : env_state E, forallb P (trace_of (m s)) = true.

(** A listing computation all of whose returned records satisfy [Q]. *)
Definition emits {E : Env} (Q : ProxyDict -> Prop) (m : M E (list ProxyDict))
    : Prop :=
  forall (s : env_state E) l, result_of (m s) = Ok l -> Forall Q l.

(** The shape of a proxy record in the specification, on the strings the
    listing functions store: a scheme among HTTP, SOCKS4 and SOCKS5, a port
    written in decimal digits with a value from 1 to 65535, an address
    that is not empty. *)
Definition scheme_ok (t : string) : bool :=
  existsb (String.eqb t) ["http"; "socks4"; "socks5"].

Definition port_ok (s : string) : bool :=
  PyStr.nonempty s && PyStr.all_chars PyStr.is_digit s
  && (1 <=? PyStr.decimal_value 0 s)%Z && (PyStr.decimal_value 0 s <=? 65535)%Z.

Definition well_shaped (p : ProxyDict) : bool :=
  PyStr.nonempty (ip p) && port_ok (port p) && scheme_ok (type p).

(** The trace of a run that reached [DONE]: failures only, then the
    successful fetch of [c], the line announcing it, and the publisher
    running on [c]. *)
Definition done_trace {E : Env} (t : list event) (c : string) : Prop :=
  exists t0 e msg (s : env_state E),
    t = t0 ++ e :: EvPrint [Txt msg] :: trace_of (update_github_rss_feed c s)
    /\ forallb before_success t0 = true /\ fetch_success e = Some c.

(** The trace of a run that reached [FAILED]. *)
Definition failed_trace (t : list event) : Prop :=
  exists t0, t = t0 ++ [failed_line] /\ forallb before_success t0 = true.

(** How the part of [main] after the first block can end. *)
Definition tail_shape {E : Env} (x : res unit * env_state E * list event)
    : Prop :=
  (result_of x = Ok tt /\ failed_trace (trace_of x))
  \/ (exists c, done_trace (E:=E) (trace_of x) c).

(** What the publisher does after its first request. *)
Definition publisher_step (e : event) : bool := is_print e || is_put e.

(** [main] is five times the same step: a line is printed, a block runs,
    and the function returns or goes on with the rest. *)
Definition stage {E : Env} (announce : list printed) (block : M E bool)
    (rest : M E unit) : M E unit :=
  print announce;;
  returned <- block;;
  if returned : bool then ret tt else rest.

(* ===================================================================== *)
(** * The five sources behind one name *)
(* ===================================================================== *)

(** The specification's [list_candidates], one variant per listing
    function, as [main] calls them. *)
Inductive source : Type :=
| FreeproxyWorld
| ProxyScrape
| Proxyscan
| PubProxy
| GetProxyList.

Definition list_candidates {E : Env} (src : source) : M E (list ProxyDict) :=
  match src with
  | FreeproxyWorld => get_jp_proxies_from_freeproxy_world
  | ProxyScrape => get_jp_proxies_from_proxyscrape
  | Proxyscan => get_jp_proxies_from_proxyscan
  | PubProxy => get_jp_proxies_from_pubproxy
  | GetProxyList => get_jp_proxies_from_getproxylist 10
  end.

(** What the checks of each listing function guarantee about a record it
    appends. *)
Definition source_guarantee (src : source) (p : ProxyDict) : Prop :=
  PyStr.nonempty (type p) = true
  /\ match src with
     | FreeproxyWorld =>
         PyStr.nonempty (ip p) = true /\ PyStr.nonempty (port p) = true
     | Proxyscan => type p <> "https"
     | ProxyScrape | PubProxy | GetProxyList => scheme_ok (type p) = true
     end.

(** A diagnostic of a caught exception: [print(label, e)]. *)
Definition is_diagnostic (e : event) : bool :=
  match e with
  | EvPrint [Txt _; Err _] => true
  | _ => false
  end.

(** A world in which no request gets through. *)
Definition down (E : Env) : Prop :=
  forall rq (s : env_state E), exists e, fst (requests_get_io E rq s) = Raise e.

(* ===================================================================== *)
(** * Concrete worlds *)
(* ===================================================================== *)

(** A scripted world: its state counts the actions so far, and the
    answers are given by that count and by the request. *)
Definition script_env (get_reply : nat -> Request -> res Response)
    (put_reply : nat -> Request -> PutData -> res Response)
    (draw : nat -> nat) : Env :=
  {| env_state := nat;
     requests_get_io rq n := (get_reply n rq, S n);
     requests_put_io rq d n := (put_reply n rq d, S n);
     randbelow_io k n := (draw n, S n);
     py_repr _ := "<object>";
     b64encode c := c |}.

Definition no_soup : Soup := {| layui_table := None |}.

Definition text_page (st : Z) (body : string) : Response :=
  {| status_code := st; text := body; json := Raise JSONDecodeError;
     soup := no_soup |}.

Definition json_page (st : Z) (v : pyval) : Response :=
  {| status_code := st; text := ""; json := Ok v; soup := no_soup |}.

Definition table_page (rows : list Tr) : Response :=
  {| status_code := 200; text := ""; json := Raise JSONDecodeError;
     soup := {| layui_table := Some (Some rows) |} |}.

Definition cell (t : string) : Td := {| td_class := []; td_text := t |}.

Definition url_has (fragment : string) (rq : Request) : bool :=
  PyStr.contains fragment (url rq).

Definition via_proxy (rq : Request) : bool :=
  match proxies rq with [] => false | _ :: _ => true end.

(** No request gets through. *)
Definition unreachable : Env :=
  script_env (fun _ _ => Raise ConnectionError)
             (fun _ _ _ => Raise ConnectionError) (fun n => n).

(** ProxyScrape answers every query with the line [:0]; Proxyscan.io lists
    one entry of type FTP with port 99999. *)
Definition odd_lists : Env :=
  script_env
    (fun _ rq =>
       if url_has "proxyscrape" rq then Ok (text_page 200 ":0")
       else if url_has "proxyscan" rq then
         Ok (json_page 200
               (PList [PDict [("Ip", PStr "10.0.0.1"); ("Port", PStr "99999");
                              ("Type", PStr "FTP")]]))
       else Raise ConnectionError)
    (fun _ _ _ => Raise ConnectionError) (fun n => n).

(** The table of freeproxy.world has one row, of type HTTPS. *)
Definition https_row : Env :=
  script_env
    (fun _ rq =>
       if url_has "freeproxy.world" rq then
         Ok (table_page [[cell "203.0.113.7"; cell "8080"; cell "Japan";
                          cell "Tokyo"; cell "120 ms"; cell "HTTPS"]])
       else Raise ConnectionError)
    (fun _ _ _ => Raise ConnectionError) (fun n => n).

(** The table of freeproxy.world has one row whose type cell is empty. *)
Definition blank_type_row : Env :=
  script_env
    (fun _ rq =>
       if url_has "freeproxy.world" rq then
         Ok (table_page [[cell "203.0.113.7"; cell "8080"; cell "Japan";
                          cell "Tokyo"; cell "120 ms"; cell ""]])
       else Raise ConnectionError)
    (fun _ _ _ => Raise ConnectionError) (fun n => n).

(** ProxyScrape answers the HTTP query with one proxy and cannot be
    reached for the two SOCKS queries. *)
Definition half_scrape : Env :=
  script_env
    (fun _ rq =>
       if url_has "protocol=http" rq then Ok (text_page 200 "203.0.113.7:8080")
       else Raise ConnectionError)
    (fun _ _ _ => Raise ConnectionError) (fun n => n).

(** A proxy answers with status 300 (Multiple Choices, which the client
    neither follows as a redirect nor reports as an error) and a body that
    holds the marker. *)
Definition multiple_choices : Env :=
  script_env
    (fun _ rq =>
       if via_proxy rq then Ok (text_page 300 "<rss><dc:date>2024</dc:date></rss>")
       else Raise ConnectionError)
    (fun _ _ _ => Raise ConnectionError) (fun n => n).

(** A proxy answers with status 200 and a page without the marker. *)
Definition captcha : Env :=
  script_env
    (fun _ rq =>
       if via_proxy rq then Ok (text_page 200 "<html>Are you human?</html>")
       else Raise ConnectionError)
    (fun _ _ _ => Raise ConnectionError) (fun n => n).

(** ProxyScrape lists three proxies for HTTP; none of them relays. *)
Definition three_dead : Env :=
  script_env
    (fun _ rq =>
       if via_proxy rq then Raise ReadTimeout
       else if url_has "protocol=http" rq then
         Ok (text_page 200 ("198.51.100.1:80" +:+ nl +:+ "198.51.100.2:80"
                            +:+ nl +:+ "198.51.100.3:80"))
       else Raise ConnectionError)
    (fun _ _ _ => Raise ConnectionError) (fun n => n).

(** freeproxy.world lists one proxy, it relays the feed, and the
    repository accepts the new file. *)
Definition lucky : Env :=
  script_env
    (fun _ rq =>
       if via_proxy rq then Ok (text_page 200 "<rss><dc:date>2024</dc:date></rss>")
       else if url_has "freeproxy.world" rq then
         Ok (table_page [[cell "203.0.113.7"; cell "8080"; cell "Japan";
                          cell "Tokyo"; cell "120 ms"; cell "HTTP"]])
       else Ok (json_page 404 (PDict [("message", PStr "Not Found")])))
    (fun _ _ _ => Ok (json_page 201 (PDict [])))
    (fun n => n).

(** A status in the 2xx class. *)
Definition is_2xx (r : Response) : bool :=
  ((200 <=? status_code r) && (status_code r <? 300))%Z.

(** The answer of the network to the request of one fetch attempt. *)
Definition reply_to {E : Env} (url : string) (p : ProxyDict) (s : env_state E)
    : res Response :=
  fst (requests_get_io E (proxy_request url p) s).

Definition sample_proxy : ProxyDict :=
  {| ip := "203.0.113.7"; port := "8080"; type := "http" |}.

Definition sample_feed : string := "<rss><dc:date>2024</dc:date></rss>".

(** The run of [main] in the world [lucky], and its three parts around
    the successful fetch. *)
Definition lucky_trace : list event :=
  Eval vm_compute in trace_of (main (E:=lucky) 0).

Definition lucky_before : list event := firstn 7 lucky_trace.
Definition lucky_fetch : event := nth 7 lucky_trace failed_line.
Definition lucky_after : list event := skipn 8 lucky_trace.

(** The number of fetch steps among the steps of a trace. *)
Fixpoint fetch_steps (ks : list step_kind) : nat :=
  match ks with
  | [] => 0
  | KFetch :: ks' => S (fetch_steps ks')
  | KShuffle :: ks' => fetch_steps ks'
  end.

(** What ProxyScrape lists in the world [three_dead], and the trace of
    that listing. *)
Definition three_dead_batch : list ProxyDict :=
  [ {| ip := "198.51.100.1"; port := "80"; type := "http" |};
    {| ip := "198.51.100.2"; port := "80"; type := "http" |};
    {| ip := "198.51.100.3"; port := "80"; type := "http" |} ].

Definition three_dead_listing : list event :=
  Eval vm_compute in trace_of (get_jp_proxies_from_proxyscrape (E:=three_dead) 0).

(* ===================================================================== *)
(** * The publish store *)
(* ===================================================================== *)

(** Modelled from the spec: the store behind the publisher is not part of
    the repository; sections 4.4 and 6 of the specification describe it as
    a contents endpoint with GET (current content and revision id, 404 if
    absent) and PUT (create or update, conditioned on the prior revision
    id, success or conflict).  [stored] is the revision id and the content
    of the file, if it exists; [incoming] is a commit of another writer
    that lands right after the next read, which is how a revision read by
    the publisher becomes stale. *)
Record Store : Type := mkStore {
  stored : option (string * string);
  incoming : option (string * string)
}.

Definition store_get (st : Store) : res Response * Store :=
  let reply :=
    match stored st with
    | Some (rev, body) =>
        json_page 200 (PDict [("sha", PStr rev); ("content", PStr body)])
    | None => json_page 404 (PDict [("message", PStr "Not Found")])
    end in
  (Ok reply,
   match incoming st with
   | Some commit => {| stored := Some commit; incoming := None |}
   | None => st
   end).

Definition store_put (hash : string -> string) (d : PutData) (st : Store)
    : res Response * Store :=
  let accept (st_code : Z) :=
    (Ok (json_page st_code (PDict [("content", PStr (content d))])),
     {| stored := Some (hash (content d), content d); incoming := incoming st |}) in
  let refuse (st_code : Z) (why : string) :=
    (Ok (json_page st_code (PDict [("message", PStr why)])), st) in
  match stored st, sha d with
  | None, None => accept 201%Z
  | Some (rev, _), Some (PStr given) =>
      if String.eqb given rev then accept 200%Z
      else refuse 409%Z "revision does not match"
  | _, _ => refuse 422%Z "revision missing or unexpected"
  end.

(** The world made of the store alone: every GET reads the file, every
    PUT writes it.  [hash] gives the revision id of a content and [b64]
    is the base64 encoding. *)
Definition store_env (hash b64 : string -> string) : Env :=
  {| env_state := Store;
     requests_get_io _ st := store_get st;
     requests_put_io _ d st := store_put hash d st;
     randbelow_io _ st := (0, st);
     py_repr _ := "<object>";
     b64encode := b64 |}.

(** The three results of the specification's publisher, read off the
    lines [update_github_rss_feed] prints (it returns nothing). *)
Inductive PublishResult : Type :=
| Created
| Updated
| Rejected (status : Z).

Definition is_line (line : string) (e : event) : bool :=
  match e with
  | EvPrint [Txt t] => String.eqb t line
  | _ => false
  end.

Fixpoint rejection (t : list event) : option Z :=
  match t with
  | [] => None
  | EvPrint [Txt line; Num st] :: t' =>
      if String.eqb line "Failed to update the GitHub repository. Status Code:"
      then Some st else rejection t'
  | _ :: t' => rejection t'
  end.

Definition publish_result (t : list event) : option PublishResult :=
  if existsb (is_line "Successfully updated the GitHub repository with the new RSS feed.") t
  then
    if existsb (is_line "File exists in repo; will update it.") t
    then Some Updated
    else if existsb (is_line "File does not exist; will create a new one.") t
         then Some Created
         else None
  else option_map Rejected (rejection t).

(** The writes of a trace, in order. *)
Fixpoint puts (t : list event) : list PutData :=
  match t with
  | [] => []
  | EvPut _ d _ :: t' => d :: puts t'
  | _ :: t' => puts t'
  end.

(** What the publisher sends for the feed [rss], with or without a
    revision id. *)
Definition put_data {E : Env} (rss : string) (rev : option string) : PutData :=
  {| message := "Update RSS feed";
     content := b64encode E rss;
     branch := "master";
     sha := option_map PStr rev |}.

Definition is_failed_line (e : event) : bool :=
  is_line (nl +:+ "FAILED to fetch a valid RSS feed after all attempts.") e.

(** The request of the scraper, and the answers that leave it without a
    table to read: an exception, an error status, no table, no table
    body. *)
Definition freeproxy_world_request : Request :=
  get "https://www.freeproxy.world/?country=JP" 10.

Definition page_unusable (rp : res Response) : bool :=
  match rp with
  | Raise _ => true
  | Ok r =>
      negb (status_passes r)
      || match layui_table (soup r) with
         | None | Some None => true
         | Some (Some _) => false
         end
  end.

(** What the publisher learns from its read: the value of ["sha"] when
    the status is 200, [None] otherwise; and what it then sends. *)
Definition sha_read (r : Response) : res pyval :=
  if (status_code r =? 200)%Z
  then let? file_info := json r in dict_get file_info "sha" PNone
  else Ok PNone.

Definition data_sent {E : Env} (rss : string) (v : pyval) : PutData :=
  {| message := "Update RSS feed";
     content := b64encode E rss;
     branch := BRANCH;
     sha := if truthy v then Some v else None |}.

Definition write_accepted (pr : Response) : bool :=
  ((status_code pr =? 200) || (status_code pr =? 201))%Z.

(* ===================================================================== *)
(** * The requests of a trace *)
(* ===================================================================== *)

(** The listing requests and the fetch requests of a trace, in the order
    they were made. *)
Fixpoint listing_requests (t : list event) : list Request :=
  match t with
  | [] => []
  | EvGet rq rp :: t' =>
      if is_listing (EvGet rq rp) then rq :: listing_requests t'
      else listing_requests t'
  | _ :: t' => listing_requests t'
  end.

Fixpoint fetch_requests (t : list event) : list Request :=
  match t with
  | [] => []
  | EvGet rq rp :: t' =>
      if is_fetch (EvGet rq rp) then rq :: fetch_requests t'
      else fetch_requests t'
  | _ :: t' => fetch_requests t'
  end.

(** The requests the listing functions send: the URL each one builds, with
    [timeout=10]. *)
Definition proxyscrape_request (proto_param : string) : Request :=
  get ("https://api.proxyscrape.com/v2/?request=displayproxies&country=JP&timeout=10000&anonymity=all"
       +:+ "&protocol=" +:+ proto_param) 10.

Definition proxyscan_request : Request :=
  get "https://www.proxyscan.io/api/proxy?country=JP&type=http,https,socks4,socks5&limit=20&format=json" 10.

Definition pubproxy_request (query : string) : Request :=
  get ("http://pubproxy.com/api/proxy" +:+ "?country=JP&limit=20&type=" +:+ query
       +:+ "&format=json") 10.

Definition getproxylist_get : Request :=
  get "https://api.getproxylist.com/proxy?country[]=JP" 10.

(** What each source asks of its provider, in order. *)
Definition listing_plan (src : source) : list Request :=
  match src with
  | FreeproxyWorld => [freeproxy_world_request]
  | ProxyScrape => map proxyscrape_request ["http"; "socks4"; "socks5"]
  | Proxyscan => [proxyscan_request]
  | PubProxy => map pubproxy_request ["http&https=true"; "socks4"; "socks5"]
  | GetProxyList => repeat getproxylist_get 10
  end.

(** The sources in the order [main] tries them. *)
Definition source_order : list source :=
  [FreeproxyWorld; ProxyScrape; Proxyscan; PubProxy; GetProxyList].

(** The records a loop appends before it ends: those of the items up to
    the first one that raises. *)
Fixpoint kept {A} (body : A -> res (option ProxyDict)) (items : list A)
    : list ProxyDict :=
  match items with
  | [] => []
  | x :: xs =>
      match body x with
      | Ok (Some p) => p :: kept body xs
      | Ok None => kept body xs
      | Raise _ => []
      end
  end.

(** The number of occurrences of a character. *)
Fixpoint count_char (c : ascii) (s : string) : nat :=
  match s with
  | EmptyString => 0
  | String a s' => (if Ascii.eqb a c then 1 else 0) + count_char c s'
  end.

(** An event that is not a request to a provider of proxy lists. *)
Definition not_listing (e : event) : bool := negb (is_listing e).

(** The five blocks of [main] as a table: the line printed before the
    block, the source, the banner, the number of attempts and the two
    messages.  [run_rows] runs such a table the way [main] is written. *)
Record block_row : Type := {
  row_announce : list printed;
  row_source : source;
  row_banner : list (list printed);
  row_attempts : nat;
  row_success : string;
  row_no_proxies : string
}.

Definition main_rows : list block_row :=
  [ {| row_announce := [Txt "Fetching JP proxies from freeproxy.world ..."];
       row_source := FreeproxyWorld;
       row_banner := [[Txt (nl +:+ "Using freeproxy.world proxies (3 attempts):")]];
       row_attempts := 3;
       row_success := "Successfully fetched RSS using freeproxy.world proxy!";
       row_no_proxies :=
         "No Japanese proxies found on freeproxy.world or request failed." |};
    {| row_announce := [Txt (nl +:+ "Now trying ProxyScrape (2 attempts) ...")];
       row_source := ProxyScrape;
       row_banner := [];
       row_attempts := 2;
       row_success := "Successfully fetched RSS using ProxyScrape proxy!";
       row_no_proxies := "No JP proxies found on ProxyScrape or request failed." |};
    {| row_announce := [Txt (nl +:+ "Now trying Proxyscan.io (2 attempts) ...")];
       row_source := Proxyscan;
       row_banner := [];
       row_attempts := 2;
       row_success := "Successfully fetched RSS using Proxyscan.io proxy!";
       row_no_proxies := "No JP proxies found on Proxyscan.io or request failed." |};
    {| row_announce := [Txt (nl +:+ "Now trying PubProxy (2 attempts) ...")];
       row_source := PubProxy;
       row_banner := [];
       row_attempts := 2;
       row_success := "Successfully fetched RSS using PubProxy!";
       row_no_proxies := "No JP proxies found on PubProxy or request failed." |};
    {| row_announce := [Txt (nl +:+ "Now trying GetProxyList (2 attempts) ...")];
       row_source := GetProxyList;
       row_banner := [];
       row_attempts := 2;
       row_success := "Successfully fetched RSS using GetProxyList!";
       row_no_proxies :=
         "No JP proxies found from GetProxyList or requests failed." |} ].

Definition row_block {E : Env} (r : block_row) : M E bool :=
  source_block (list_candidates (row_source r)) (row_banner r) (row_attempts r)
    (row_success r) (row_no_proxies r).

Fixpoint run_rows {E : Env} (rows : list block_row) (final : M E unit)
    : M E unit :=
  match rows with
  | [] => final
  | r :: rows' => stage (row_announce r) (row_block r) (run_rows rows' final)
  end.

(** A run that stopped before the end of the table: it raised, or a fetch
    attempt succeeded. *)
Definition stopped {E : Env} (x : res unit * env_state E * list event) : Prop :=
  (exists e, result_of x = Raise e) \/ existsb is_success (trace_of x) = true.

(** [main] from its block number [k] on (the first block is number 0):
    what is left of [main] once [k] blocks have ended without a
    [return]. *)
Definition main_from {E : Env} (k : nat) : M E unit :=
  run_rows (skipn k main_rows)
    (print [Txt (nl +:+ "FAILED to fetch a valid RSS feed after all attempts.")]).

(** The blocks [rows] ran one after the other from the state [s], each
    ended without a [return], and they left the state [s'] and the
    events [t]. *)
Fixpoint passed {E : Env} (rows : list block_row) (s s' : env_state E)
    (t : list event) : Prop :=
  match rows with
  | [] => s' = s /\ t = []
  | r :: rows' =>
      exists s1 tb t',
        row_block r s = (Ok false, s1, tb)
        /\ passed rows' s1 s' t'
        /\ t = EvPrint (row_announce r) :: tb ++ t'
  end.

(** A record whose address and port carry no white space around them. *)
Definition stripped (p : ProxyDict) : Prop :=
  PyStr.strip (ip p) = ip p /\ PyStr.strip (port p) = port p.

(** The scheme a [Type] or protocol label stands for: lower case, with
    https taken as http. *)
Definition scheme_of (label : string) : string :=
  if String.eqb (PyStr.lower label) "https" then "http" else PyStr.lower label.

(** Proxyscan.io lists three entries; the second gives its port as a JSON
    number. *)
Definition numeric_port_entries : list pyval :=
  [PDict [("Ip", PStr "203.0.113.7"); ("Port", PStr "8080"); ("Type", PStr "HTTPS")];
   PDict [("Ip", PStr "203.0.113.8"); ("Port", PInt 3128); ("Type", PStr "HTTP")];
   PDict [("Ip", PStr "203.0.113.9"); ("Port", PStr "1080"); ("Type", PStr "SOCKS5")]].

Definition numeric_port : Env :=
  script_env
    (fun _ rq =>
       if url_has "proxyscan" rq then Ok (json_page 200 (PList numeric_port_entries))
       else Raise ConnectionError)
    (fun _ _ _ => Raise ConnectionError) (fun n => n).

(** A character of a lower-case word: not white space, and left as it is
    by [str.lower]. *)
Definition word_char (c : ascii) : bool :=
  negb (PyStr.isspace c) && Ascii.eqb (PyStr.lower_char c) c.

Definition lower_word (w : string) : bool :=
  PyStr.nonempty w && PyStr.all_chars word_char w.

(* ===================================================================== *)
(** * The scaffolding scripts: html/create.py, backend/productsbalancefiles.py *)
(* ===================================================================== *)

(** The directory tree the scripts work in, seen from the directory their
    paths start from: a regular file with its content, or a directory
    with its named entries.  Ownership, permissions, links, time stamps
    and the limits on the length of a name are outside the model, so a
    call fails here only for the shape of the tree. *)
#[warnings="-register-all"]
Inductive fsnode : Type :=
| FsFile (data : string)
| FsDir (entries : list (string * fsnode)).

(** A path as pathlib holds it: its components. *)
Definition fspath : Type := list string.

Fixpoint fs_assoc (x : string) (es : list (string * fsnode)) : option fsnode :=
  match es with
  | [] => None
  | (y, c) :: es' => if String.eqb x y then Some c else fs_assoc x es'
  end.

Fixpoint fs_set (x : string) (c : fsnode) (es : list (string * fsnode))
    : list (string * fsnode) :=
  match es with
  | [] => [(x, c)]
  | (y, d) :: es' =>
      if String.eqb x y then (y, c) :: es' else (y, d) :: fs_set x c es'
  end.

(** [os.stat(p)]: the node, or [ENOENT], or [ENOTDIR]. *)
Inductive fs_stat : Type :=
| Found (n : fsnode)
| Missing
| NotADir.

Fixpoint fs_lookup (n : fsnode) (p : fspath) : fs_stat :=
  match p with
  | [] => Found n
  | x :: p' =>
      match n with
      | FsFile _ => NotADir
      | FsDir es =>
          match fs_assoc x es with
          | Some c => fs_lookup c p'
          | None => Missing
          end
      end
  end.

(** [Path.exists()]: a failing [stat] gives [False]. *)
Definition path_exists (n : fsnode) (p : fspath) : bool :=
  match fs_lookup n p with Found _ => true | _ => false end.

(** [Path.is_dir()] *)
Definition path_is_dir (n : fsnode) (p : fspath) : bool :=
  match fs_lookup n p with Found (FsDir _) => true | _ => false end.

Inductive oserror : Type :=
| FileExistsError
| FileNotFoundError
| NotADirectoryError.

(** What a call on the tree gives: the new tree, or an [OSError]. *)
Inductive osres : Type :=
| OsOk (n : fsnode)
| OsRaise (e : oserror).

(** How a step of a script ends: it returns, it raises, or it is given a
    path that leaves the model ([FsOut], see [path_parts]); the model
    says nothing of what the script does from there on. *)
Inductive fsres (A : Type) : Type :=
| FsOk (a : A)
| FsRaise (e : oserror)
| FsOut.
Arguments FsOk {A} a.
Arguments FsRaise {A} e.
Arguments FsOut {A}.

(** [Path.mkdir(parents=True, exist_ok=True)]: the missing directories of
    the path are made; a directory that is there is left alone; a file
    in the way raises, at the end of the path [FileExistsError], before
    it [NotADirectoryError]. *)
Fixpoint mkdir_parents (n : fsnode) (p : fspath) : osres :=
  match p with
  | [] =>
      match n with
      | FsDir _ => OsOk n
      | FsFile _ => OsRaise FileExistsError
      end
  | x :: p' =>
      match n with
      | FsFile _ => OsRaise NotADirectoryError
      | FsDir es =>
          let child := match fs_assoc x es with Some c => c | None => FsDir [] end in
          match mkdir_parents child p' with
          | OsOk c' => OsOk (FsDir (fs_set x c' es))
          | OsRaise e => OsRaise e
          end
      end
  end.

(** [Path.touch()]: what is there is left as it is; a missing file is
    made, empty, when its parent is a directory. *)
Fixpoint touch (n : fsnode) (p : fspath) : osres :=
  match p with
  | [] => OsOk n
  | x :: p' =>
      match n with
      | FsFile _ => OsRaise NotADirectoryError
      | FsDir es =>
          match fs_assoc x es, p' with
          | Some c, _ =>
              match touch c p' with
              | OsOk c' => OsOk (FsDir (fs_set x c' es))
              | OsRaise e => OsRaise e
              end
          | None, [] => OsOk (FsDir (fs_set x (FsFile "") es))
          | None, _ :: _ => OsRaise FileNotFoundError
          end
      end
  end.

(** A printed line: [print(f"{label}{path}")]. *)
Inductive fs_line : Type :=
| FsPrint (label : string) (p : fspath).

(** A script step: from a tree to its outcome, the tree it leaves and the
    lines it printed. *)
Definition FsM (A : Type) : Type := fsnode -> fsres A * fsnode * list fs_line.

Definition fs_ret {A} (a : A) : FsM A := fun fs => (FsOk a, fs, []).

Definition fs_bind {A B} (m : FsM A) (f : A -> FsM B) : FsM B :=
  fun fs =>
    match m fs with
    | (FsOk a, fs1, t1) => let '(r, fs2, t2) := f a fs1 in (r, fs2, t1 ++ t2)
    | (FsRaise e, fs1, t1) => (FsRaise e, fs1, t1)
    | (FsOut, fs1, t1) => (FsOut, fs1, t1)
    end.

(** The step at which a path leaves the model. *)
Definition fs_out {A} : FsM A := fun fs => (FsOut, fs, []).

Definition fs_exists (p : fspath) : FsM bool :=
  fun fs => (FsOk (path_exists fs p), fs, []).

Definition fs_mkdir (p : fspath) : FsM unit :=
  fun fs =>
    match mkdir_parents fs p with
    | OsOk fs' => (FsOk tt, fs', [])
    | OsRaise e => (FsRaise e, fs, [])
    end.

Definition fs_touch (p : fspath) : FsM unit :=
  fun fs =>
    match touch fs p with
    | OsOk fs' => (FsOk tt, fs', [])
    | OsRaise e => (FsRaise e, fs, [])
    end.

Definition fs_print (label : string) (p : fspath) : FsM unit :=
  fun fs => (FsOk tt, fs, [FsPrint label p]).

(** [for x in items: body] *)
Fixpoint fs_for {A} (items : list A) (body : A -> FsM unit) : FsM unit :=
  match items with
  | [] => fs_ret tt
  | x :: xs => fs_bind (body x) (fun _ => fs_for xs body)
  end.

Definition fs_result {A} (x : fsres A * fsnode * list fs_line) : fsres A :=
  fst (fst x).
Definition fs_state {A} (x : fsres A * fsnode * list fs_line) : fsnode :=
  snd (fst x).
Definition fs_lines {A} (x : fsres A * fsnode * list fs_line) : list fs_line :=
  snd x.

(** ** html/create.py *)

(** The dict [structure], in the order of its keys. *)
Definition structure : list (string * list string) :=
  [("css", ["main.css"]);
   ("js", ["auth.js"; "dashboard.js"; "products.js"; "transactions.js";
           "finance.js"; "utils.js"]);
   ("admin", ["index.html"; "verifications.html"; "users.html"]);
   ("merchant", ["dashboard.html"; "products.html"; "transactions.html";
                 "finance.html"]);
   (".", ["index.html"; "login.html"; "register.html"])].

(** The components pathlib reads in a relative path given as a string:
    the string is cut at its slashes, and the empty components and the
    components [.] are dropped, so that the empty string and [.] have no
    component.  [None] is a path that leaves the model: an absolute path
    (joined to a directory it replaces it), a component [..] (the tree has
    no way up), or a string with a NUL character. *)
Definition path_parts (name : string) : option fspath :=
  if PyStr.startswith "/" name
     || PyStr.contains (String Ascii.zero EmptyString) name
  then None
  else
    let parts :=
      List.filter (fun c => negb (String.eqb c "" || String.eqb c "."))
                  (PyStr.split_char "/" name) in
    if existsb (String.eqb "..") parts then None else Some parts.

(** [dir / name] *)
Definition fs_join (dir : fspath) (name : string) : option fspath :=
  option_map (app dir) (path_parts name).

(** The body of [for filename in files]. *)
Definition create_file (dir_path : fspath) (filename : string) : FsM unit :=
  match fs_join dir_path filename with
  | None => fs_out
  | Some file_path =>
      fs_bind (fs_exists file_path) (fun there =>
      if negb there then
        fs_bind (fs_touch file_path) (fun _ => fs_print "Created: " file_path)
      else fs_print "Already exists: " file_path)
  end.

(** [base_dir if subdir == '.' else base_dir / subdir] *)
Definition dir_of (base_dir : fspath) (subdir : string) : option fspath :=
  if String.eqb subdir "." then Some base_dir else fs_join base_dir subdir.

(** [create_structure(base_dir, spec)] *)
Definition create_structure (base_dir : fspath)
    (spec : list (string * list string)) : FsM unit :=
  fs_for spec (fun entry =>
    let '(subdir, files) := entry in
    match dir_of base_dir subdir with
    | None => fs_out
    | Some dir_path =>
        fs_bind (fs_mkdir dir_path) (fun _ =>
        fs_for files (create_file dir_path))
    end).

(** ** backend/productsbalancefiles.py *)

(** The list [files], each path by its components. *)
Definition files : list fspath :=
  [["src"; "app.ts"];
   ["src"; "server.ts"];
   ["src"; "config"; "default.ts"];
   ["src"; "config"; "db.ts"];
   ["src"; "controllers"; "product.controller.ts"];
   ["src"; "controllers"; "admin.product.controller.ts"];
   ["src"; "controllers"; "balance.controller.ts"];
   ["src"; "controllers"; "admin.balance.controller.ts"];
   ["src"; "controllers"; "notification.controller.ts"];
   ["src"; "models"; "balance.model.ts"];
   ["src"; "models"; "fx-rate.model.ts"];
   ["src"; "models"; "notification.model.ts"];
   ["src"; "models"; "product.model.ts"];
   ["src"; "models"; "merchant.model.ts"];
   ["src"; "models"; "settings.model.ts"];
   ["src"; "modules"; "commerce"; "index.ts"];
   ["src"; "routes"; "product.routes.ts"];
   ["src"; "routes"; "finance.routes.ts"];
   ["src"; "routes"; "notification.routes.ts"];
   ["src"; "routes"; "admin.routes.ts"];
   ["src"; "services"; "fx.service.ts"];
   ["src"; "services"; "balance.service.ts"];
   ["src"; "services"; "product.service.ts"];
   ["src"; "services"; "notification.service.ts"];
   ["src"; "services"; "cron.service.ts"];
   ["src"; "services"; "init.service.ts"];
   ["src"; "utils"; "redis.ts"];
   ["src"; "utils"; "logger.ts"]].

(** The body of [for file_path in files], its two statements in turn;
    [path.parent] drops the last component. *)
Definition make_parent (path : fspath) : FsM unit :=
  let parent := removelast path in
  fs_bind (fs_exists parent) (fun there =>
  if negb there then
    fs_bind (fs_mkdir parent) (fun _ => fs_print "Created directory: " parent)
  else fs_ret tt).

Definition make_leaf (path : fspath) : FsM unit :=
  fs_bind (fs_exists path) (fun there =>
  if negb there then
    fs_bind (fs_touch path) (fun _ => fs_print "Created file: " path)
  else fs_print "Skipped existing file: " path).

Definition make_file (path : fspath) : FsM unit :=
  fs_bind (make_parent path) (fun _ => make_leaf path).

(** The script: the loop over a list of paths. *)
Definition make_files (paths : list fspath) : FsM unit := fs_for paths make_file.

(** ** Reading a tree *)

(** What is in the first tree is in the second: a file with the same
    content, a directory as a directory. *)
Definition fs_extends (a b : fsnode) : Prop :=
  forall p,
    match fs_lookup a p with
    | Found (FsFile d) => fs_lookup b p = Found (FsFile d)
    | Found (FsDir _) => path_is_dir b p = true
    | _ => True
    end.

Definition line_label (l : fs_line) : string :=
  match l with FsPrint label _ => label end.

Definition line_path (l : fs_line) : fspath :=
  match l with FsPrint _ p => p end.

(** What a line of the scripts says of its path. *)
Inductive line_kind : Type :=
| NewFile
| NewDir
| Kept.

Definition kind_of (l : fs_line) : line_kind :=
  let s := line_label l in
  if String.eqb s "Created: " || String.eqb s "Created file: " then NewFile
  else if String.eqb s "Created directory: " then NewDir
  else Kept.

(** A line is true of a run from [before] to [after]: what it reports as
    created was not there before and is there after, a new file being
    empty; what it reports as existing is there after. *)
Definition line_true (before after : fsnode) (l : fs_line) : Prop :=
  match kind_of l with
  | NewFile =>
      path_exists before (line_path l) = false
      /\ fs_lookup after (line_path l) = Found (FsFile "")
  | NewDir =>
      path_exists before (line_path l) = false
      /\ path_is_dir after (line_path l) = true
  | Kept => path_exists after (line_path l) = true
  end.

(** A step that only adds to the tree and prints true lines. *)
Definition fs_sound {A} (m : FsM A) : Prop :=
  forall fs,
    fs_extends fs (fs_state (m fs))
    /\ Forall (line_true fs (fs_state (m fs))) (fs_lines (m fs)).

(** The paths of the directories and of the files a [spec] lists under
    [base_dir], in the order the loops visit them; a name that leaves
    the model gives no path. *)
Definition option_list {A} (o : option A) : list A :=
  match o with Some a => [a] | None => [] end.

Definition file_paths (dir : fspath) (names : list string) : list fspath :=
  concat (map (fun f => option_list (fs_join dir f)) names).

Definition entry_files (base_dir : fspath) (entry : string * list string)
    : list fspath :=
  match dir_of base_dir (fst entry) with
  | Some dir => file_paths dir (snd entry)
  | None => []
  end.

Definition listed_files (base_dir : fspath) (spec : list (string * list string))
    : list fspath :=
  concat (map (entry_files base_dir) spec).

Definition listed_dirs (base_dir : fspath) (spec : list (string * list string))
    : list fspath :=
  concat (map (fun entry => option_list (dir_of base_dir (fst entry))) spec).

(** What one entry of [spec] asks of the tree. *)
Definition entry_built (base : fspath) (entry : string * list string)
    (fs : fsnode) : Prop :=
  match dir_of base (fst entry) with
  | Some dir =>
      path_is_dir fs dir = true
      /\ Forall (fun f => exists p, fs_join dir f = Some p
                                   /\ path_exists fs p = true)
                (snd entry)
  | None => False
  end.

(** The step of [create_structure] for one entry of [spec]. *)
Definition create_entry (base_dir : fspath) (entry : string * list string)
    : FsM unit :=
  match dir_of base_dir (fst entry) with
  | None => fs_out
  | Some dir_path =>
      fs_bind (fs_mkdir dir_path) (fun _ =>
      fs_for (snd entry) (create_file dir_path))
  end.

(** A [spec] with a file name of two components, in a directory that is
    not there. *)
Definition nested_name : list (string * list string) :=
  [("css", ["sub/x.css"])].

(** A tree with a regular file where [create_structure] needs the
    directory [css]. *)
Definition css_is_a_file : fsnode := FsDir [("css", FsFile "body {}")].

(** A tree with a regular file where the second script needs the
    directory [src/config]. *)
Definition config_is_a_file : fsnode :=
  FsDir [("src", FsDir [("config", FsFile "{}")])].

(** The line in which a listing function reports the size of its batch,
    [n] being the printed number. *)
Definition count_line (src : source) (n : string) : event :=
  EvPrint
    [Txt match src with
         | FreeproxyWorld => "[freeproxy.world] Found " +:+ n +:+ " proxies."
         | ProxyScrape => "[ProxyScrape] Total proxies found: " +:+ n
         | Proxyscan => "[Proxyscan] Found " +:+ n +:+ " proxies."
         | PubProxy => "[PubProxy] Found " +:+ n +:+ " proxies."
         | GetProxyList =>
             "[GetProxyList] Gathered " +:+ n +:+ " proxies from "
             +:+ PyStr.of_Z 10 +:+ " requests."
         end].

(** ** One query of a listing function *)

(** The reply to a listing request made in the state [s]. *)
Definition listing_reply {E : Env} (rq : Request) (s : env_state E)
    : res Response :=
  fst (requests_get_io E rq s).

(** The exception a request ends in, if any: the one [requests.get]
    raised, or the [HTTPError] of [raise_for_status]. *)
Definition request_error (rp : res Response) : option exn :=
  match rp with
  | Raise e => Some e
  | Ok r => if status_passes r then None else Some (HTTPError (status_code r))
  end.

(** The exception that ends a loop over the items, if any. *)
Fixpoint loop_error {A} (body : A -> res (option ProxyDict)) (items : list A)
    : option exn :=
  match items with
  | [] => None
  | x :: xs =>
      match body x with
      | Raise e => Some e
      | Ok _ => loop_error body xs
      end
  end.

(** What one [try] block of an API source adds to the batch, and the
    exception it catches, by the reply to its request; [parse] is what
    the block does with a reply that [raise_for_status] lets pass, before
    its loop. *)
Definition query_outcome {A} (parse : Response -> res (list A))
    (body : A -> res (option ProxyDict)) (rp : res Response)
    : list ProxyDict * option exn :=
  match rp with
  | Raise e => ([], Some e)
  | Ok r =>
      if status_passes r then
        match parse r with
        | Raise e => ([], Some e)
        | Ok items => (kept body items, loop_error body items)
        end
      else ([], Some (HTTPError (status_code r)))
  end.

(** A [try] block that fails softly: started with the batch [acc], it
    returns [acc] followed by what the query adds, and its events are
    the request and, when an exception was caught, the diagnostic that
    prints it. *)
Definition soft_query {E : Env}
    (x : res (list ProxyDict) * env_state E * list event)
    (acc : list ProxyDict) (rq : Request) (rp : res Response) (label : string)
    (out : list ProxyDict * option exn) : Prop :=
  result_of x = Ok (acc ++ fst out)
  /\ trace_of x
     = EvGet rq rp
       :: match snd out with
          | Some e => [EvPrint [Txt label; Err e]]
          | None => []
          end.

(** What the four API sources do with a reply before their loop. *)
Definition proxyscrape_parse (r : Response) : res (list string) :=
  Ok (PyStr.splitlines (PyStr.strip (text r))).

Definition proxyscan_parse (r : Response) : res (list pyval) :=
  let? data := json r in py_iter data.

Definition pubproxy_parse (r : Response) : res (list pyval) :=
  let? data := json r in
  let? items := dict_get data "data" (PList []) in
  py_iter items.

Definition getproxylist_parse (r : Response)
    : res (list (pyval * pyval * pyval)) :=
  let? data := json r in getproxylist_protocols data.

(** An event that is not a request, or a request that failed. *)
Definition get_failed (e : event) : bool :=
  match e with
  | EvGet _ rp => match request_error rp with Some _ => true | None => false end
  | _ => true
  end.

(* ===================================================================== *)
(** * Properties *)
(* ===================================================================== *)

(** ** Strings *)

Lemma startswith_spec p s :
  PyStr.startswith p s = true <-> exists post, s = p +:+ post.
Proof.
  revert s; induction p as [|a p IH]; intros s; simpl.
  - split; [intros _; exists s; reflexivity | reflexivity].
  - destruct s as [|b s]; simpl.
    + split; [discriminate | intros [post H]; discriminate].
    + rewrite andb_true_iff, IH. split.
      * intros [Hab [post ->]]. apply Ascii.eqb_eq in Hab as ->.
        exists post; reflexivity.
      * intros [post H]. injection H as -> ->. split.
        -- apply Ascii.eqb_refl.
        -- exists post; reflexivity.
Qed.

(** [needle in hay] holds exactly when [hay] is [pre + needle + post]. *)
Lemma contains_spec needle hay :
  PyStr.contains needle hay = true
  <-> exists pre post, hay = pre +:+ needle +:+ post.
Proof.
  induction hay as [|c hay IH].
  - simpl. rewrite orb_false_r, startswith_spec. split.
    + intros [post H]. exists EmptyString, post. exact H.
    + intros [pre [post H]]. destruct pre; [exists post; exact H | discriminate].
  - cbn [PyStr.contains]. rewrite orb_true_iff, startswith_spec, IH. split.
    + intros [[post H] | [pre [post H]]].
      * exists EmptyString, post. exact H.
      * exists (String c pre), post. simpl. rewrite H. reflexivity.
    + intros [pre [post H]]. destruct pre as [|c' pre]; simpl in H.
      * left. exists post. exact H.
      * right. injection H as _ H. exists pre, post. exact H.
Qed.

Lemma has_marker_nonempty c : has_marker c = true -> PyStr.nonempty c = true.
Proof. destruct c; [discriminate | reflexivity]. Qed.

(** ** The fetcher, step by step *)

Section FetcherFacts.
Context {E : Env}.

(** Every run of [fetch_rss_with_proxy], by the answer of the network. *)
Lemma fetch_run (url : string) (p : ProxyDict) (s : env_state E) :
  fetch_rss_with_proxy url p s =
  match requests_get_io E (proxy_request url p) s with
  | (Ok r, s') =>
      if status_passes r then
        if has_marker (text r)
        then (Ok (Some (text r)), s',
              [trying_line p; EvGet (proxy_request url p) (Ok r)])
        else (Ok None, s',
              [trying_line p; EvGet (proxy_request url p) (Ok r);
               no_marker_line])
      else (Ok None, s',
            [trying_line p; EvGet (proxy_request url p) (Ok r);
             failed_with_line p (HTTPError (status_code r))])
  | (Raise e, s') =>
      (Ok None, s',
       [trying_line p; EvGet (proxy_request url p) (Raise e);
        failed_with_line p e])
  end.
Proof.
  set (rq := proxy_request url p). unfold fetch_rss_with_proxy, try_except, bind, print, emit,
    requests_get, raise_for_status, status_passes, has_marker.
  fold rq. destruct (requests_get_io E rq s) as [[r|e] s']; [|reflexivity].
  destruct ((400 <=? status_code r)%Z && (status_code r <? 600)%Z);
    [reflexivity|].
  cbn [negb raise ret].
  destruct (PyStr.contains "<dc:date>" (text r)); reflexivity.
Qed.

End FetcherFacts.

(** ** One pass over the list, the shuffle, the rounds *)

Section ControllerFacts.
Context {E : Env}.

Lemma win_trace_prepend t1 t2 c :
  forallb before_success t1 = true -> win_trace t2 c -> win_trace (t1 ++ t2) c.
Proof.
  intros H1 (t0 & e & -> & H0 & He). exists (t1 ++ t0), e.
  rewrite forallb_app, H1, H0, <- app_assoc. auto.
Qed.

Ltac fetch_cases url p s :=
  rewrite (fetch_run url p s);
  let r := fresh "r" in
  let e := fresh "e" in
  let s' := fresh "s'" in
  let Hst := fresh "Hst" in
  let Hmk := fresh "Hmk" in
  destruct (requests_get_io E (proxy_request url p) s) as [[r|e] s'];
  [ destruct (status_passes r) eqn:Hst;
    [ destruct (has_marker (text r)) eqn:Hmk | ] | ].

Lemma fetch_success_get url p r :
  status_passes r = true -> has_marker (text r) = true ->
  fetch_success (EvGet (proxy_request url p) (Ok r)) = Some (text r).
Proof.
  intros Hst Hmk. unfold fetch_success, accepted. cbn. rewrite Hst, Hmk.
  reflexivity.
Qed.

Lemma before_success_get_ok url p r :
  accepted r = false ->
  before_success (EvGet (proxy_request url p) (Ok r)) = true.
Proof.
  intros H. unfold before_success, is_success, fetch_success. cbn.
  rewrite H. reflexivity.
Qed.

(** A fetch never raises; it either returns [None] after events that are
    no success, or returns a body with the marker, its request last. *)
Lemma fetch_shape url p (s : env_state E) :
  let x := fetch_rss_with_proxy url p s in
  exists r, result_of x = Ok r /\ (r = None \/ truthy_content r = true)
            /\ kinds (trace_of x) = [KFetch] /\ (lost r x \/ won r x).
Proof.
  cbv zeta. unfold lost, won.
  fetch_cases url p s; cbn [result_of trace_of fst snd].
  - exists (Some (text r)). split; [reflexivity|].
    split; [right; apply has_marker_nonempty, Hmk|].
    split; [reflexivity|].
    right. exists (text r). repeat split; [exact Hmk|].
    exists [trying_line p], (EvGet (proxy_request url p) (Ok r)).
    repeat split. apply fetch_success_get; assumption.
  - exists None. split; [reflexivity|]. split; [left; reflexivity|].
    split; [reflexivity|]. left. split; [reflexivity|].
    cbn [forallb]. rewrite before_success_get_ok; [reflexivity|].
    unfold accepted. rewrite Hmk. apply andb_false_r.
  - exists None. split; [reflexivity|]. split; [left; reflexivity|].
    split; [reflexivity|]. left. split; [reflexivity|].
    cbn [forallb]. rewrite before_success_get_ok; [reflexivity|].
    unfold accepted. rewrite Hst. reflexivity.
  - exists None. split; [reflexivity|]. split; [left; reflexivity|].
    split; [reflexivity|]. left. split; reflexivity.
Qed.

(** Reading the trace agrees with the function: a fetch attempt returns
    the content [c] exactly when its trace holds a successful fetch of
    [c]. *)
Lemma fetch_returns_iff_event url p (s : env_state E) c :
  result_of (fetch_rss_with_proxy url p s) = Ok (Some c)
  <-> exists e, In e (trace_of (fetch_rss_with_proxy url p s))
                /\ fetch_success e = Some c.
Proof.
  fetch_cases url p s; cbn [result_of trace_of fst snd]; split.
  - intros [= <-]. exists (EvGet (proxy_request url p) (Ok r)).
    split; [right; left; reflexivity|]. apply fetch_success_get; assumption.
  - intros (e & [<-|[<-|[]]] & He); [discriminate|].
    rewrite fetch_success_get in He by assumption. congruence.
  - discriminate.
  - intros (e & [<-|[<-|[<-|[]]]] & He); try discriminate.
    unfold fetch_success, accepted in He. rewrite Hmk, andb_false_r in He.
    cbn in He. discriminate.
  - discriminate.
  - intros (e & [<-|[<-|[<-|[]]]] & He); try discriminate.
    unfold fetch_success, accepted in He. rewrite Hst, andb_false_r in He.
    discriminate.
  - discriminate.
  - intros (e0 & [<-|[<-|[<-|[]]]] & He); discriminate.
Qed.

Lemma kinds_app t1 t2 : kinds (t1 ++ t2) = kinds t1 ++ kinds t2.
Proof.
  induction t1 as [|e t1 IH]; [reflexivity|]. simpl.
  destruct (is_shuffle e); [|destruct (is_fetch e)]; simpl; congruence.
Qed.

(** One pass: never raises; on failure every proxy was asked once. *)
Lemma try_all_proxies_once_shape url l (s : env_state E) :
  let x := try_all_proxies_once url l s in
  exists r, result_of x = Ok r /\ (r = None \/ truthy_content r = true)
    /\ ((lost r x /\ kinds (trace_of x) = repeat KFetch (length l)) \/ won r x).
Proof.
  revert s. induction l as [|p l IH]; intros s.
  - exists None. split; [reflexivity|]. split; [left; reflexivity|].
    left. repeat split.
  - cbn [try_all_proxies_once]. unfold bind, lost, won in *.
    destruct (fetch_shape url p s) as (r & Hr & Ht & Hk & Hcase).
    unfold lost, won in Hcase.
    destruct (fetch_rss_with_proxy url p s) as [[r0 s1] t1].
    cbn [result_of trace_of fst snd] in *. subst r0.
    destruct r as [c|].
    + destruct Ht as [Ht|Ht]; [discriminate|]. rewrite Ht.
      unfold ret. cbn [result_of trace_of fst snd]. rewrite app_nil_r.
      exists (Some c). split; [reflexivity|]. split; [right; exact Ht|].
      right. destruct Hcase as [[Hn _]|Hw]; [discriminate|exact Hw].
    + cbn [truthy_content]. specialize (IH s1). cbv zeta in IH.
      destruct (try_all_proxies_once url l s1) as [[r2 s2] t2].
      destruct IH as (r & Hr2 & Ht2 & Hcase2).
      cbn [result_of trace_of fst snd] in *. subst r2.
      cbn [result_of trace_of fst snd].
      exists r. split; [reflexivity|]. split; [exact Ht2|].
      destruct Hcase as [[_ Hb1]|(c & Hc & _)]; [|discriminate].
      destruct Hcase2 as [[[Hn Hb2] Hk2]|(c & Hc & Hm & Hw)].
      * left. repeat split; [exact Hn| |].
        -- cbn [trace_of snd] in *. rewrite forallb_app, Hb1, Hb2. reflexivity.
        -- rewrite kinds_app, Hk, Hk2. reflexivity.
      * right. exists c. repeat split; [exact Hc|exact Hm|].
        apply win_trace_prepend; assumption.
Qed.

Lemma swap_perm i j (x : list ProxyDict) : swap i j x ≡ₚ x.
Proof.
  unfold swap. destruct (x !! i) as [xi|] eqn:Hi; [|reflexivity].
  destruct (x !! j) as [xj|] eqn:Hj; [|reflexivity].
  apply Permutation_insert_swap; assumption.
Qed.

Lemma shuffle_from_run i x (s : env_state E) :
  exists x' s', shuffle_from i x s = (Ok x', s', []) /\ x' ≡ₚ x.
Proof.
  revert x s. induction i as [|i IH]; intros x s.
  - exists x, s. split; reflexivity.
  - cbn [shuffle_from]. unfold bind, randbelow.
    destruct (randbelow_io E (S i + 1) s) as [j s1].
    destruct (IH (swap (S i) (j mod (S i + 1)) x) s1) as (x' & s' & Hrun & Hp).
    rewrite Hrun. exists x', s'. split; [reflexivity|].
    rewrite Hp. apply swap_perm.
Qed.

(** [random.shuffle] never raises and leaves a permutation of the list. *)
Lemma random_shuffle_run x (s : env_state E) :
  exists x' s', random_shuffle x s = (Ok x', s', [EvShuffle x x']) /\ x' ≡ₚ x.
Proof.
  unfold random_shuffle, bind.
  destruct (shuffle_from_run (length x - 1) x s) as (x' & s' & Hrun & Hp).
  rewrite Hrun. exists x', s'. split; [reflexivity|exact Hp].
Qed.

(** The rounds: never raise, leave a permutation of the list, and end
    either without any success or right on the first one. *)
Lemma attempt_rounds_shape url attempts remaining l (s : env_state E) :
  let x := attempt_rounds url attempts remaining l s in
  exists r l', result_of x = Ok (r, l') /\ l' ≡ₚ l
    /\ (r = None \/ truthy_content r = true) /\ (lost r x \/ won r x).
Proof.
  revert l s. induction remaining as [|k IH]; intros l s.
  - exists None, l. unfold lost. repeat split; auto.
  - cbn [attempt_rounds]. cbv zeta. unfold bind, print, emit. cbv beta iota.
    destruct (random_shuffle_run l s) as (l1 & s1 & Hsh & Hp1).
    rewrite Hsh.
    destruct (try_all_proxies_once_shape url l1 s1) as (r & Hr & Ht & Hcase).
    destruct (try_all_proxies_once url l1 s1) as [[r0 s2] t2].
    unfold lost, won in *. cbn [result_of trace_of fst snd] in *. subst r0.
    destruct r as [c|].
    + destruct Ht as [Ht|Ht]; [discriminate|]. rewrite Ht.
      unfold ret. cbn [result_of trace_of fst snd].
      exists (Some c), l1. split; [reflexivity|]. split; [exact Hp1|].
      split; [right; exact Ht|]. right.
      destruct Hcase as [[[Hn _] _]|(c' & Hc & Hm & Hw)]; [discriminate|].
      exists c'. repeat split; [exact Hc|exact Hm|].
      rewrite app_nil_r.
      apply (win_trace_prepend [_]); [reflexivity|].
      apply (win_trace_prepend [_]); [reflexivity|exact Hw].
    + cbn [truthy_content]. specialize (IH l1 s2). cbv zeta in IH.
      destruct (attempt_rounds url attempts k l1 s2) as [[r3 s3] t3].
      destruct IH as (r & l' & Hr3 & Hp & Ht3 & Hcase3).
      cbn [result_of trace_of fst snd] in *. subst r3.
      exists r, l'. split; [reflexivity|].
      split; [rewrite Hp; exact Hp1|]. split; [exact Ht3|].
      destruct Hcase as [[[_ Hb2] _]|(c & Hc & _)]; [|discriminate].
      destruct Hcase3 as [[Hn Hb3]|(c & Hc & Hm & Hw)].
      * left. split; [exact Hn|].
        cbn [app forallb]. rewrite forallb_app, Hb2, Hb3. reflexivity.
      * right. exists c. repeat split; [exact Hc|exact Hm|].
        apply (win_trace_prepend [_]); [reflexivity|].
        apply (win_trace_prepend [_]); [reflexivity|].
        apply win_trace_prepend; assumption.
Qed.

Lemma always_fail_perm url l l' :
  l' ≡ₚ l -> always_fail E url l -> always_fail E url l'.
Proof.
  intros Hp H p s Hin. apply H. eapply Permutation_in; eassumption.
Qed.

Lemma try_all_proxies_once_fail url l (s : env_state E) :
  always_fail E url l ->
  let x := try_all_proxies_once url l s in
  result_of x = Ok None /\ kinds (trace_of x) = repeat KFetch (length l).
Proof.
  intros Hf. cbv zeta.
  destruct (try_all_proxies_once_shape url l s) as (r & Hr & _ & Hcase).
  assert (Hnone : result_of (try_all_proxies_once url l s) = Ok None).
  { clear r Hr Hcase. revert s. induction l as [|p l IH]; intros s.
    - reflexivity.
    - cbn [try_all_proxies_once]. unfold bind.
      pose proof (Hf p s (or_introl eq_refl)) as Hp.
      destruct (fetch_rss_with_proxy url p s) as [[r0 s1] t1].
      cbn [result_of fst] in Hp. subst r0. cbn [truthy_content].
      assert (IH' : always_fail E url l).
      { intros q s' Hq. apply Hf. right. exact Hq. }
      specialize (IH IH' s1).
      destruct (try_all_proxies_once url l s1) as [[r2 s2] t2].
      exact IH. }
  split; [exact Hnone|].
  rewrite Hnone in Hr. injection Hr as <-.
  destruct Hcase as [[_ Hk]|(c & Hc & _)]; [exact Hk|discriminate].
Qed.

(** With proxies that always fail, every round shuffles once and asks
    every proxy once. *)
Lemma attempt_rounds_fail url attempts remaining l (s : env_state E) :
  always_fail E url l ->
  let x := attempt_rounds url attempts remaining l s in
  (exists l', result_of x = Ok (None, l'))
  /\ kinds (trace_of x)
     = concat (repeat (KShuffle :: repeat KFetch (length l)) remaining).
Proof.
  revert l s. induction remaining as [|k IH]; intros l s Hf.
  - split; [exists l|]; reflexivity.
  - cbn [attempt_rounds]. cbv zeta. unfold bind, print, emit. cbv beta iota.
    destruct (random_shuffle_run l s) as (l1 & s1 & Hsh & Hp1).
    rewrite Hsh.
    pose proof (always_fail_perm url l l1 Hp1 Hf) as Hf1.
    destruct (try_all_proxies_once_fail url l1 s1 Hf1) as [Hr Hk].
    destruct (try_all_proxies_once url l1 s1) as [[r0 s2] t2].
    cbn [result_of trace_of fst snd] in *. subst r0. cbn [truthy_content].
    destruct (IH l1 s2 Hf1) as [[l' Hr3] Hk3].
    destruct (attempt_rounds url attempts k l1 s2) as [[r3 s3] t3].
    cbn [result_of trace_of fst snd] in *. subst r3.
    split; [exists l'; reflexivity|].
    cbn [app kinds is_shuffle is_fetch repeat concat].
    rewrite kinds_app, Hk, Hk3, (Permutation_length Hp1). reflexivity.
Qed.

End ControllerFacts.

(** ** Rules for the combinators *)

Section Rules.
Context {E : Env}.

Lemma quiet_ret {A} P (a : A) : quiet (E:=E) P (ret a).
Proof. intros s. reflexivity. Qed.

Lemma quiet_raise {A} P e : quiet (E:=E) (A:=A) P (raise e).
Proof. intros s. reflexivity. Qed.

Lemma quiet_lift {A} P (r : res A) : quiet (E:=E) P (lift r).
Proof. destruct r; intros s; reflexivity. Qed.

Lemma quiet_print P args : P (EvPrint args) = true -> quiet (E:=E) P (print args).
Proof. intros H s. cbn. rewrite H. reflexivity. Qed.

Lemma quiet_get P rq :
  (forall rp, P (EvGet rq rp) = true) -> quiet (E:=E) P (requests_get rq).
Proof.
  intros H s. unfold requests_get. destruct (requests_get_io E rq s) as [rp s'].
  cbn. rewrite H. reflexivity.
Qed.

Lemma quiet_raise_for_status P r : quiet (E:=E) P (raise_for_status r).
Proof.
  unfold raise_for_status.
  destruct ((400 <=? status_code r)%Z && (status_code r <? 600)%Z);
    [apply quiet_raise | apply quiet_ret].
Qed.

Lemma quiet_bind {A B} P (m : M E A) (f : A -> M E B) :
  quiet P m -> (forall a, quiet P (f a)) -> quiet P (bind m f).
Proof.
  intros Hm Hf s. unfold bind. specialize (Hm s).
  destruct (m s) as [[[a|e] s1] t1]; cbn [trace_of snd] in *; [|exact Hm].
  specialize (Hf a s1). destruct (f a s1) as [[r s2] t2].
  cbn [trace_of snd] in *. rewrite forallb_app, Hm, Hf. reflexivity.
Qed.

Lemma quiet_try_except {A} P (body : M E A) handler :
  quiet P body -> (forall e, quiet P (handler e)) ->
  quiet P (try_except body handler).
Proof.
  intros Hb Hh s. unfold try_except. specialize (Hb s).
  destruct (body s) as [[[a|e] s1] t1]; cbn [trace_of snd] in *; [exact Hb|].
  specialize (Hh e s1). destruct (handler e s1) as [[r s2] t2].
  cbn [trace_of snd] in *. rewrite forallb_app, Hb, Hh. reflexivity.
Qed.

Lemma quiet_for_each {A B} P (f : A -> B -> M E B) items acc :
  (forall x b, quiet P (f x b)) -> quiet P (for_each f items acc).
Proof.
  intros Hf. revert acc. induction items as [|x xs IH]; intros acc.
  - apply quiet_ret.
  - cbn [for_each]. apply quiet_bind; [apply Hf | intros b; apply IH].
Qed.

Lemma quiet_try_collect {A} P (prelude : M E (list A)) body handler acc :
  quiet P prelude -> (forall e, quiet P (handler e)) ->
  quiet P (try_collect prelude body handler acc).
Proof.
  intros Hp Hh. unfold try_collect. apply quiet_bind.
  - apply quiet_try_except.
    + apply quiet_bind; [exact Hp | intros; apply quiet_ret].
    + intros e. apply quiet_bind; [apply Hh | intros; apply quiet_ret].
  - intros [items|]; [|apply quiet_ret].
    destruct (for_append body items acc) as [acc' [u|e]]; [apply quiet_ret|].
    apply quiet_bind; [apply Hh | intros; apply quiet_ret].
Qed.

Lemma never_raises_ret {A} (a : A) : never_raises (E:=E) (ret a).
Proof. intros s. exists a. reflexivity. Qed.

Lemma never_raises_print args : never_raises (E:=E) (print args).
Proof. intros s. exists tt. reflexivity. Qed.

Lemma never_raises_bind {A B} (m : M E A) (f : A -> M E B) :
  never_raises m -> (forall a, never_raises (f a)) -> never_raises (bind m f).
Proof.
  intros Hm Hf s. unfold bind. destruct (Hm s) as [a Ha].
  destruct (m s) as [[r s1] t1]. cbn [result_of fst] in Ha. subst r.
  destruct (Hf a s1) as [b Hb]. destruct (f a s1) as [[r s2] t2].
  cbn [result_of fst] in *. subst r. exists b. reflexivity.
Qed.

Lemma never_raises_try_except {A} (body : M E A) handler :
  (forall e, never_raises (handler e)) -> never_raises (try_except body handler).
Proof.
  intros Hh s. unfold try_except.
  destruct (body s) as [[[a|e] s1] t1]; [exists a; reflexivity|].
  destruct (Hh e s1) as [b Hb]. destruct (handler e s1) as [[r s2] t2].
  cbn [result_of fst] in *. subst r. exists b. reflexivity.
Qed.

Lemma never_raises_for_each {A B} (f : A -> B -> M E B) items acc :
  (forall x b, never_raises (f x b)) -> never_raises (for_each f items acc).
Proof.
  intros Hf. revert acc. induction items as [|x xs IH]; intros acc.
  - apply never_raises_ret.
  - cbn [for_each]. apply never_raises_bind; [apply Hf | intros b; apply IH].
Qed.

(** Whatever the request and the parsing do, a [try] block whose handler
    only reports never lets an exception out. *)
Lemma never_raises_try_collect {A} (prelude : M E (list A)) body handler acc :
  (forall e, never_raises (handler e)) ->
  never_raises (try_collect prelude body handler acc).
Proof.
  intros Hh. unfold try_collect. apply never_raises_bind.
  - apply never_raises_try_except. intros e.
    apply never_raises_bind; [apply Hh | intros; apply never_raises_ret].
  - intros [items|]; [|apply never_raises_ret].
    destruct (for_append body items acc) as [acc' [u|e]];
      [apply never_raises_ret|].
    apply never_raises_bind; [apply Hh | intros; apply never_raises_ret].
Qed.

End Rules.

(** ** The listing functions *)

Section ListingFacts.
Context {E : Env}.

Lemma listing_event_get u t rp : listing_event (EvGet (get u t) rp) = true.
Proof. reflexivity. Qed.

Ltac quiet_listing :=
  repeat first
    [ apply quiet_ret | apply quiet_raise | apply quiet_lift
    | apply quiet_raise_for_status
    | apply quiet_print; reflexivity
    | apply quiet_get; intros; apply listing_event_get
    | apply quiet_try_collect | apply quiet_for_each
    | apply quiet_try_except | apply quiet_bind | intro ].

Lemma freeproxy_world_quiet :
  quiet (E:=E) listing_event get_jp_proxies_from_freeproxy_world.
Proof.
  unfold get_jp_proxies_from_freeproxy_world. apply quiet_bind.
  - quiet_listing.
  - intros [response|]; [|apply quiet_ret].
    destruct (layui_table (soup response)) as [[rows|]|]; [|quiet_listing..].
    destruct (for_append freeproxy_row rows []) as [proxies [u|e]];
      quiet_listing.
Qed.

Lemma proxyscrape_quiet :
  quiet (E:=E) listing_event get_jp_proxies_from_proxyscrape.
Proof.
  unfold get_jp_proxies_from_proxyscrape. apply quiet_bind; [|quiet_listing].
  apply quiet_for_each. intros [pp pt] b. unfold proxyscrape_protocol.
  quiet_listing.
Qed.

Lemma proxyscan_quiet :
  quiet (E:=E) listing_event get_jp_proxies_from_proxyscan.
Proof. unfold get_jp_proxies_from_proxyscan. quiet_listing. Qed.

Lemma pubproxy_quiet :
  quiet (E:=E) listing_event get_jp_proxies_from_pubproxy.
Proof.
  unfold get_jp_proxies_from_pubproxy. apply quiet_bind; [|quiet_listing].
  apply quiet_for_each. intros [[q lb] pt] b. unfold pubproxy_tier.
  quiet_listing.
Qed.

Lemma getproxylist_quiet n :
  quiet (E:=E) listing_event (get_jp_proxies_from_getproxylist n).
Proof.
  unfold get_jp_proxies_from_getproxylist. apply quiet_bind; [|quiet_listing].
  apply quiet_for_each. intros k b. unfold getproxylist_request.
  quiet_listing.
Qed.

Ltac no_raise :=
  repeat first
    [ apply never_raises_ret | apply never_raises_print
    | apply never_raises_try_collect | apply never_raises_for_each
    | apply never_raises_bind | intro ].

(** The four API listing functions return in every state of the world,
    whatever the providers answer. *)
Lemma proxyscrape_never_raises :
  never_raises (E:=E) get_jp_proxies_from_proxyscrape.
Proof.
  unfold get_jp_proxies_from_proxyscrape. apply never_raises_bind; [|no_raise].
  apply never_raises_for_each. intros [pp pt] b. unfold proxyscrape_protocol.
  no_raise.
Qed.

Lemma proxyscan_never_raises :
  never_raises (E:=E) get_jp_proxies_from_proxyscan.
Proof. unfold get_jp_proxies_from_proxyscan. no_raise. Qed.

Lemma pubproxy_never_raises :
  never_raises (E:=E) get_jp_proxies_from_pubproxy.
Proof.
  unfold get_jp_proxies_from_pubproxy. apply never_raises_bind; [|no_raise].
  apply never_raises_for_each. intros [[q lb] pt] b. unfold pubproxy_tier.
  no_raise.
Qed.

Lemma getproxylist_never_raises n :
  never_raises (E:=E) (get_jp_proxies_from_getproxylist n).
Proof.
  unfold get_jp_proxies_from_getproxylist. apply never_raises_bind; [|no_raise].
  apply never_raises_for_each. intros k b. unfold getproxylist_request.
  no_raise.
Qed.

End ListingFacts.

(** ** What the listing functions put in a batch *)

Section BatchFacts.
Context {E : Env}.

Lemma for_append_Forall {A} (Q : ProxyDict -> Prop)
    (body : A -> res (option ProxyDict)) items acc :
  Forall Q acc -> (forall x p, body x = Ok (Some p) -> Q p) ->
  Forall Q (fst (for_append body items acc)).
Proof.
  intros Hacc Hbody. revert acc Hacc.
  induction items as [|x xs IH]; intros acc Hacc; [exact Hacc|].
  cbn [for_append]. destruct (body x) as [[p|]|e] eqn:Hx.
  - apply IH. apply Forall_app. split; [exact Hacc|].
    constructor; [eapply Hbody; exact Hx | constructor].
  - apply IH, Hacc.
  - exact Hacc.
Qed.

Lemma emits_try_collect {A} Q (prelude : M E (list A)) body handler acc :
  Forall Q acc -> (forall x p, body x = Ok (Some p) -> Q p) ->
  emits Q (try_collect prelude body handler acc).
Proof.
  intros Hacc Hbody s l. unfold try_collect, bind, try_except, ret.
  destruct (prelude s) as [[[items|e] s1] t1].
  - pose proof (for_append_Forall Q body items acc Hacc Hbody) as HF.
    destruct (for_append body items acc) as [acc' [u|e]]; cbn [fst] in HF.
    + cbn. intros [= <-]. exact HF.
    + destruct (handler e s1) as [[[u|e'] s2] t2]; cbn; [|discriminate].
      intros [= <-]. exact HF.
  - destruct (handler e s1) as [[[u|e'] s2] t2]; cbn; [|discriminate].
    intros [= <-]. exact Hacc.
Qed.

Lemma emits_for_each {A} Q (f : A -> list ProxyDict -> M E (list ProxyDict))
    items acc :
  Forall Q acc -> (forall x b, Forall Q b -> emits Q (f x b)) ->
  emits Q (for_each f items acc).
Proof.
  intros Hacc Hf. revert acc Hacc.
  induction items as [|x xs IH]; intros acc Hacc s l.
  - cbn. intros [= <-]. exact Hacc.
  - cbn [for_each]. unfold bind.
    pose proof (Hf x acc Hacc s) as Hx.
    destruct (f x acc s) as [[[b|e] s1] t1]; cbn [result_of fst] in *;
      [|discriminate].
    specialize (IH b (Hx b eq_refl) s1 l).
    destruct (for_each f xs b s1) as [[r s2] t2]. exact IH.
Qed.

(** A listing function that ends by printing its count returns what its
    loop has built. *)
Lemma emits_then_print Q (m : M E (list ProxyDict)) args :
  emits Q m -> emits Q (l <- m;; print (args l);; ret l).
Proof.
  intros Hm s l. unfold bind, print, emit, ret. specialize (Hm s).
  destruct (m s) as [[[b|e] s1] t1]; cbn [result_of fst] in *; [|discriminate].
  intros [= <-]. apply Hm. reflexivity.
Qed.

Lemma freeproxy_row_emits row p :
  freeproxy_row row = Ok (Some p) ->
  PyStr.nonempty (ip p) = true /\ PyStr.nonempty (port p) = true
  /\ PyStr.nonempty (type p) = true.
Proof.
  unfold freeproxy_row.
  destruct row as [|c0 [|c1 [|c2 [|c3 [|c4 [|c5 rest]]]]]]; try discriminate.
  destruct (PyStr.split_ws (PyStr.lower (td_text c5))) as [|t ts];
    [discriminate|].
  destruct (PyStr.nonempty _ && PyStr.nonempty _ && PyStr.nonempty t) eqn:H;
    [|discriminate].
  intros [= <-]. cbn [ip port type].
  apply andb_true_iff in H as [H Ht]. apply andb_true_iff in H as [Hi Hp].
  auto.
Qed.

Lemma proxyscrape_line_emits proto_type line p :
  proxyscrape_line proto_type line = Ok (Some p) -> type p = proto_type.
Proof.
  unfold proxyscrape_line.
  destruct (negb _ || negb _); [discriminate|].
  destruct (unpack2 _) as [[a b]|e]; cbn; [|discriminate].
  intros [= <-]. reflexivity.
Qed.

Lemma proxyscan_entry_emits entry p :
  proxyscan_entry entry = Ok (Some p) ->
  PyStr.nonempty (type p) = true /\ type p <> "https".
Proof.
  unfold proxyscan_entry, res_bind.
  destruct (dict_get entry "Ip" PNone) as [vi|]; [|discriminate].
  destruct (dict_get entry "Port" PNone) as [vp|]; [|discriminate].
  destruct (dict_get entry "Type" (PStr "")) as [vt|]; [|discriminate].
  destruct (str_lower vt) as [ptype|]; [|discriminate].
  destruct (truthy vi && truthy vp && PyStr.nonempty ptype) eqn:H;
    [|discriminate].
  destruct (str_strip vi) as [i|]; [|discriminate].
  destruct (str_strip vp) as [q|]; [|discriminate].
  intros [= <-]. cbn [type].
  apply andb_true_iff in H as [_ Ht].
  destruct (String.eqb ptype "https") eqn:Heq.
  - split; [reflexivity|discriminate].
  - split; [exact Ht|]. apply String.eqb_neq. exact Heq.
Qed.

Lemma pubproxy_item_emits proxy_type item p :
  pubproxy_item proxy_type item = Ok (Some p) -> type p = proxy_type.
Proof.
  unfold pubproxy_item, res_bind.
  destruct (dict_get item "ipPort" (PStr "")) as [v|]; [|discriminate].
  destruct (truthy v); [|discriminate].
  destruct (str_split ":" v) as [parts|]; [|discriminate].
  destruct (unpack2 parts) as [[a b]|]; [|discriminate].
  intros [= <-]. reflexivity.
Qed.

Lemma getproxylist_proto_emits x p :
  getproxylist_proto (E:=E) x = Ok (Some p) -> scheme_ok (type p) = true.
Proof.
  unfold getproxylist_proto, res_bind. destruct x as [[vi vp] proto].
  destruct (str_lower proto) as [t|]; [|discriminate].
  destruct (truthy vi && truthy vp && existsb _ _) eqn:H; [|discriminate].
  intros [= <-]. cbn [type].
  apply andb_true_iff in H as [_ H]. exact H.
Qed.

End BatchFacts.

(** ** The publisher and the blocks of [main] *)

Section MainFacts.
Context {E : Env}.

Lemma quiet_put P rq d :
  (forall rp, P (EvPut rq d rp) = true) -> quiet (E:=E) P (requests_put rq d).
Proof.
  intros H s. unfold requests_put.
  destruct (requests_put_io E rq d s) as [rp s']. cbn. rewrite H. reflexivity.
Qed.

Lemma bind_get_trace {B} rq (k : Response -> M E B) (s : env_state E) :
  trace_of (bind (requests_get rq) k s)
  = match requests_get_io E rq s with
    | (Ok r, s1) => EvGet rq (Ok r) :: trace_of (k r s1)
    | (Raise e, s1) => [EvGet rq (Raise e)]
    end.
Proof.
  unfold bind, requests_get.
  destruct (requests_get_io E rq s) as [[r|e] s1]; [|reflexivity].
  destruct (k r s1) as [[r2 s2] t2]. reflexivity.
Qed.

(** The publisher starts with its request for the stored file; after it
    come only prints and the write. *)
Lemma publisher_run c (s : env_state E) :
  exists rp t,
    trace_of (update_github_rss_feed c s) = EvGet github_request rp :: t
    /\ forallb publisher_step t = true.
Proof.
  unfold update_github_rss_feed.
  match goal with
  | |- context [bind (requests_get github_request) ?k] =>
      assert (Hk : forall r, quiet (E:=E) publisher_step (k r))
  end.
  { intros r. apply quiet_bind.
    - destruct (status_code r =? 200)%Z.
      + apply quiet_bind; [apply quiet_lift|]. intros fi.
        apply quiet_bind; [apply quiet_lift|]. intros v.
        apply quiet_bind; [apply quiet_print; reflexivity|]. intros _.
        apply quiet_ret.
      + apply quiet_bind; [apply quiet_print; reflexivity|]. intros _.
        apply quiet_ret.
    - intros v. apply quiet_bind; [apply quiet_put; reflexivity|]. intros pr.
      destruct ((status_code pr =? 200)%Z || (status_code pr =? 201)%Z).
      + apply quiet_print; reflexivity.
      + apply quiet_bind; [apply quiet_print; reflexivity|]. intros _.
        apply quiet_bind; [apply quiet_lift|]. intros b.
        apply quiet_print; reflexivity. }
  rewrite bind_get_trace.
  destruct (requests_get_io E github_request s) as [[r|e] s1].
  - eexists _, _. split; [reflexivity|]. apply Hk.
  - exists (Raise e), []. split; reflexivity.
Qed.

Lemma forallb_weaken (P Q : event -> bool) t :
  (forall e, P e = true -> Q e = true) ->
  forallb P t = true -> forallb Q t = true.
Proof.
  intros H. induction t as [|e t IH]; [reflexivity|]. cbn.
  intros Ht. apply andb_true_iff in Ht as [He Ht].
  rewrite (H e He), (IH Ht). reflexivity.
Qed.

Lemma listing_before_success e : listing_event e = true -> before_success e = true.
Proof.
  destruct e as [rq rp| | |]; try discriminate; [|reflexivity].
  unfold listing_event, before_success, is_success, fetch_success, is_listing,
    is_publish, is_fetch. cbn.
  destruct (proxies rq); [|discriminate].
  destruct (headers rq); [|discriminate].
  destruct rp; reflexivity.
Qed.

Lemma publisher_after_success e : publisher_step e = true -> after_success e = true.
Proof. destruct e; try discriminate; reflexivity. Qed.

Lemma done_trace_prepend t1 t2 c :
  forallb before_success t1 = true ->
  done_trace (E:=E) t2 c -> done_trace (E:=E) (t1 ++ t2) c.
Proof.
  intros H1 (t0 & e & msg & s & -> & H0 & He).
  exists (t1 ++ t0), e, msg, s. rewrite forallb_app, H1, H0, <- app_assoc. auto.
Qed.

Lemma failed_trace_prepend t1 t2 :
  forallb before_success t1 = true -> failed_trace t2 -> failed_trace (t1 ++ t2).
Proof.
  intros H1 (t0 & -> & H0). exists (t1 ++ t0).
  rewrite forallb_app, H1, H0, <- app_assoc. auto.
Qed.

Lemma banner_run (banner : list (list printed)) (s : env_state E) :
  exists t, for_each (fun line (_ : unit) => print line) banner tt s = (Ok tt, s, t)
            /\ forallb is_print t = true.
Proof.
  induction banner as [|line banner IH].
  - exists []. split; reflexivity.
  - destruct IH as (t & Ht & Hp). cbn [for_each]. unfold bind.
    change (print line s) with (Ok tt, s, [EvPrint line]).
    cbv beta iota. rewrite Ht. exists (EvPrint line :: t). split; [reflexivity|].
    exact Hp.
Qed.

(** One block of [main]: the listing raised; or the block fell through
    with nothing but failures; or a fetch succeeded and the block went on
    to the publisher with that content. *)
Lemma source_block_shape lister banner n ok no (s : env_state E) :
  quiet listing_event lister ->
  let x := source_block lister banner n ok no s in
  (exists e, result_of x = Raise e /\ result_of (lister s) = Raise e
             /\ forallb before_success (trace_of x) = true)
  \/ (result_of x = Ok false /\ forallb before_success (trace_of x) = true)
  \/ (exists c, done_trace (E:=E) (trace_of x) c /\ result_of x <> Ok false).
Proof.
  intros Hq x.
  assert (Hx : x = source_block lister banner n ok no s) by reflexivity.
  clearbody x. unfold source_block in Hx. unfold bind at 1 in Hx.
  specialize (Hq s). apply (forallb_weaken _ _ _ listing_before_success) in Hq.
  destruct (lister s) as [[[l|e] s1] t1]; cbn [result_of trace_of fst snd] in *.
  2:{ subst x. left. exists e. auto. }
  destruct l as [|p l].
  { subst x. right. left. unfold bind, print, emit, ret.
    cbn [result_of trace_of fst snd].
    split; [reflexivity|]. rewrite forallb_app, Hq. reflexivity. }
  unfold bind at 1 in Hx.
  destruct (banner_run banner s1) as (tb & Hb & Hpb). rewrite Hb in Hx.
  apply (forallb_weaken _ before_success) in Hpb;
    [|intros [] H; try discriminate H; reflexivity].
  unfold bind at 1 in Hx. unfold try_proxies_multiple_attempts in Hx.
  destruct (attempt_rounds_shape rss_url n n (p :: l) s1)
    as (r & l' & Hr & _ & Ht & Hcase).
  destruct (attempt_rounds rss_url n n (p :: l) s1) as [[r0 s3] t3].
  unfold lost, won in Hcase. cbn [result_of trace_of fst snd] in *. subst r0.
  cbn [fst] in Hx. destruct Hcase as [[-> Hb3]|(c & -> & Hm & Hw)].
  - subst x. right. left. unfold ret. cbn [result_of trace_of fst snd].
    split; [reflexivity|].
    rewrite !forallb_app, Hq, Hpb, Hb3. reflexivity.
  - right. right. exists c. rewrite (has_marker_nonempty c Hm) in Hx.
    unfold bind at 1, print, emit in Hx. unfold bind at 1 in Hx.
    destruct Hw as (t0 & ev & -> & H0 & Hev).
    assert (Hd : forall t4, trace_of (update_github_rss_feed c s3) = t4 ->
              done_trace (E:=E)
                (t1 ++ tb ++ (t0 ++ [ev]) ++ [EvPrint [Txt (nl +:+ ok)]] ++ t4) c).
    { intros t4 <-. exists (t1 ++ tb ++ t0), ev, (nl +:+ ok), s3.
      rewrite !forallb_app, Hq, Hpb, H0. repeat split; [|exact Hev].
      rewrite <- !app_assoc. reflexivity. }
    destruct (update_github_rss_feed c s3) as [[[u|e] s4] t4];
      unfold ret in Hx; subst x; cbn [result_of trace_of fst snd] in *.
    + split; [|discriminate]. rewrite app_nil_r. apply Hd. reflexivity.
    + split; [|discriminate]. apply Hd. reflexivity.
Qed.

Lemma main_stages :
  main (E:=E) =
  stage [Txt "Fetching JP proxies from freeproxy.world ..."]
    (source_block get_jp_proxies_from_freeproxy_world
       [[Txt (nl +:+ "Using freeproxy.world proxies (3 attempts):")]] 3
       "Successfully fetched RSS using freeproxy.world proxy!"
       "No Japanese proxies found on freeproxy.world or request failed.")
 (stage [Txt (nl +:+ "Now trying ProxyScrape (2 attempts) ...")]
    (source_block get_jp_proxies_from_proxyscrape [] 2
       "Successfully fetched RSS using ProxyScrape proxy!"
       "No JP proxies found on ProxyScrape or request failed.")
 (stage [Txt (nl +:+ "Now trying Proxyscan.io (2 attempts) ...")]
    (source_block get_jp_proxies_from_proxyscan [] 2
       "Successfully fetched RSS using Proxyscan.io proxy!"
       "No JP proxies found on Proxyscan.io or request failed.")
 (stage [Txt (nl +:+ "Now trying PubProxy (2 attempts) ...")]
    (source_block get_jp_proxies_from_pubproxy [] 2
       "Successfully fetched RSS using PubProxy!"
       "No JP proxies found on PubProxy or request failed.")
 (stage [Txt (nl +:+ "Now trying GetProxyList (2 attempts) ...")]
    (source_block (get_jp_proxies_from_getproxylist 10) [] 2
       "Successfully fetched RSS using GetProxyList!"
       "No JP proxies found from GetProxyList or requests failed.")
    (print [Txt (nl +:+ "FAILED to fetch a valid RSS feed after all attempts.")]))))).
Proof. reflexivity. Qed.

Lemma stage_shape announce lister banner n ok no rest (s : env_state E) :
  quiet listing_event lister ->
  (forall s', tail_shape (rest s')) ->
  let x := stage announce (source_block lister banner n ok no) rest s in
  (exists e, result_of x = Raise e /\ result_of (lister s) = Raise e
             /\ forallb before_success (trace_of x) = true)
  \/ tail_shape x.
Proof.
  intros Hq Hrest x.
  assert (Hx : x = stage announce (source_block lister banner n ok no) rest s)
    by reflexivity.
  clearbody x. unfold stage in Hx. unfold bind at 1, print, emit in Hx.
  unfold bind at 1 in Hx.
  pose proof (source_block_shape lister banner n ok no s Hq) as Hb.
  cbv zeta in Hb.
  destruct (source_block lister banner n ok no s) as [[rb sb] tb].
  cbn [result_of trace_of fst snd] in Hb.
  destruct Hb as [(e & -> & Hl & Hbs)|[[-> Hbs]|(c & Hd & Hne)]].
  - subst x. left. exists e. cbn [result_of trace_of fst snd].
    repeat split; [exact Hl|]. exact Hbs.
  - right. specialize (Hrest sb).
    destruct (rest sb) as [[rr sr] tr]. subst x.
    unfold tail_shape in *. cbn [result_of trace_of fst snd] in *.
    destruct Hrest as [[-> Hf]|[c Hd]].
    + left. split; [reflexivity|].
      apply (failed_trace_prepend [_]); [reflexivity|].
      apply failed_trace_prepend; assumption.
    + right. exists c. apply (done_trace_prepend [_]); [reflexivity|].
      apply done_trace_prepend; assumption.
  - right. right. exists c.
    assert (Ht : trace_of x = [EvPrint announce] ++ tb).
    { destruct rb as [[|]|e]; subst x; unfold ret;
        cbn [result_of trace_of fst snd]; rewrite ?app_nil_r; try reflexivity.
      contradiction Hne; reflexivity. }
    rewrite Ht. apply (done_trace_prepend [_]); [reflexivity|exact Hd].
Qed.

(** Every run of [main]: the first listing raised before any attempt; or
    the run ended on the failure line after failures only; or a fetch
    succeeded and the run went straight to the publisher. *)
Lemma main_shape (s : env_state E) :
  let x := main s in
  (exists e, result_of x = Raise e
             /\ result_of (get_jp_proxies_from_freeproxy_world s) = Raise e
             /\ forallb before_success (trace_of x) = true)
  \/ tail_shape x.
Proof.
  rewrite main_stages. apply stage_shape; [apply freeproxy_world_quiet|].
  assert (Hend : forall s', tail_shape (E:=E)
            (print [Txt (nl +:+ "FAILED to fetch a valid RSS feed after all attempts.")] s')).
  { intros s'. left. split; [reflexivity|]. exists []. split; reflexivity. }
  assert (Hnr : forall lister announce banner n ok no rest,
            never_raises lister -> quiet listing_event lister ->
            (forall s', tail_shape (rest s')) ->
            forall s', tail_shape (E:=E)
              (stage announce (source_block lister banner n ok no) rest s')).
  { intros lister announce banner n ok no rest Hn Hq Hr s'.
    destruct (stage_shape announce lister banner n ok no rest s' Hq Hr)
      as [(e & _ & Hl & _)|Ht]; [|exact Ht].
    destruct (Hn s') as [a Ha]. rewrite Ha in Hl. discriminate. }
  apply Hnr; [apply proxyscrape_never_raises | apply proxyscrape_quiet |].
  apply Hnr; [apply proxyscan_never_raises | apply proxyscan_quiet |].
  apply Hnr; [apply pubproxy_never_raises | apply pubproxy_quiet |].
  apply Hnr; [apply getproxylist_never_raises | apply getproxylist_quiet |].
  exact Hend.
Qed.

End MainFacts.


(** ** Cutting a trace at its only event of a kind *)

Lemma split_unique (P : event -> bool) t0 e' rest pre e post :
  forallb (fun x => negb (P x)) t0 = true -> P e' = true ->
  forallb (fun x => negb (P x)) rest = true -> P e = true ->
  pre ++ e :: post = t0 ++ e' :: rest ->
  pre = t0 /\ e = e' /\ post = rest.
Proof.
  intros H0 He' Hrest He. revert t0 H0.
  induction pre as [|a pre IH]; intros t0 H0 Heq.
  - destruct t0 as [|b t0]; cbn in Heq.
    + injection Heq as -> ->. auto.
    + injection Heq as -> _. cbn in H0. rewrite He in H0. discriminate.
  - destruct t0 as [|b t0]; cbn in Heq.
    + injection Heq as -> Hr. exfalso. rewrite <- Hr in Hrest.
      rewrite forallb_app in Hrest. cbn in Hrest. rewrite He in Hrest.
      cbn in Hrest. rewrite andb_false_r in Hrest. discriminate.
    + injection Heq as -> Hr. cbn in H0.
      apply andb_true_iff in H0 as [_ H0].
      destruct (IH t0 H0 Hr) as (-> & -> & ->). auto.
Qed.

Lemma before_success_not_success t :
  forallb before_success t = true -> forallb (fun x => negb (is_success x)) t = true.
Proof.
  apply forallb_weaken. intros e H. unfold before_success in H.
  apply andb_true_iff in H as [H _]. apply andb_true_iff in H as [H _]. exact H.
Qed.

Lemma before_success_not_publish t :
  forallb before_success t = true -> forallb (fun x => negb (is_publish x)) t = true.
Proof.
  apply forallb_weaken. intros e H. unfold before_success in H.
  apply andb_true_iff in H as [H _]. apply andb_true_iff in H as [_ H]. exact H.
Qed.

Lemma publisher_step_not_success t :
  forallb publisher_step t = true -> forallb (fun x => negb (is_success x)) t = true.
Proof. apply forallb_weaken. intros [] H; try discriminate H; reflexivity. Qed.

Lemma publisher_step_not_publish t :
  forallb publisher_step t = true -> forallb (fun x => negb (is_publish x)) t = true.
Proof. apply forallb_weaken. intros [] H; try discriminate H; reflexivity. Qed.

Lemma count_app p t1 t2 : count p (t1 ++ t2) = count p t1 + count p t2.
Proof. induction t1 as [|e t1 IH]; cbn; [reflexivity|]. rewrite IH. lia. Qed.

Lemma count_none p t : forallb (fun x => negb (p x)) t = true -> count p t = 0.
Proof.
  induction t as [|e t IH]; [reflexivity|]. cbn. intros H.
  apply andb_true_iff in H as [He Ht]. rewrite (IH Ht).
  destruct (p e); [discriminate|reflexivity].
Qed.

Lemma success_is_success e c : fetch_success e = Some c -> is_success e = true.
Proof. unfold is_success. intros ->. reflexivity. Qed.

Lemma success_not_publish e c : fetch_success e = Some c -> is_publish e = false.
Proof.
  destruct e as [rq [r|]| | |]; try discriminate. cbn.
  destruct (proxies rq); [discriminate|].
  destruct (headers rq); [reflexivity|discriminate].
Qed.

Lemma forallb_at (P : event -> bool) pre e post :
  forallb P (pre ++ e :: post) = true -> P e = true.
Proof.
  rewrite forallb_app. cbn. intros H.
  apply andb_true_iff in H as [_ H]. apply andb_true_iff in H as [H _]. exact H.
Qed.

Lemma github_request_event rp :
  is_success (EvGet github_request rp) = false
  /\ is_publish (EvGet github_request rp) = true
  /\ after_success (EvGet github_request rp) = true.
Proof. destruct rp; repeat split. Qed.

(** The events of the publisher: one request that opens it, no fetch, no
    listing, no shuffle. *)
Lemma publisher_trace_facts {E : Env} c (s : env_state E) :
  let u := trace_of (update_github_rss_feed c s) in
  forallb after_success u = true
  /\ forallb (fun x => negb (is_success x)) u = true
  /\ exists rp t, u = EvGet github_request rp :: t
                  /\ forallb (fun x => negb (is_publish x)) t = true.
Proof.
  cbv zeta. destruct (publisher_run c s) as (rp & t & -> & Ht).
  destruct (github_request_event rp) as (Hs & Hp & Ha).
  repeat split.
  - cbn [forallb]. rewrite Ha.
    apply (forallb_weaken _ _ _ publisher_after_success), Ht.
  - cbn [forallb]. rewrite Hs. apply publisher_step_not_success, Ht.
  - exists rp, t. split; [reflexivity|]. apply publisher_step_not_publish, Ht.
Qed.

Lemma failed_trace_no_success t :
  failed_trace t -> forallb (fun x => negb (is_success x)) t = true.
Proof.
  intros (t0 & -> & H0). rewrite forallb_app.
  rewrite (before_success_not_success t0 H0). reflexivity.
Qed.

Lemma failed_trace_no_publish t :
  failed_trace t -> forallb (fun x => negb (is_publish x)) t = true.
Proof.
  intros (t0 & -> & H0). rewrite forallb_app.
  rewrite (before_success_not_publish t0 H0). reflexivity.
Qed.

Lemma kinds_prints t : forallb is_print t = true -> kinds t = [].
Proof.
  induction t as [|e t IH]; [reflexivity|]. cbn [forallb]. intros H.
  apply andb_true_iff in H as [He Ht]. destruct e; try discriminate.
  cbn. apply IH, Ht.
Qed.

Lemma count_fetch_kinds t : count is_fetch t = fetch_steps (kinds t).
Proof.
  induction t as [|e t IH]; [reflexivity|]. cbn [count kinds].
  destruct e as [rq rp|rq d rp|a b|args]; cbn [is_shuffle]; try exact IH.
  destruct (is_fetch (EvGet rq rp)); cbn; rewrite IH; reflexivity.
Qed.

Lemma fetch_steps_app k1 k2 : fetch_steps (k1 ++ k2) = fetch_steps k1 + fetch_steps k2.
Proof.
  induction k1 as [|[] k1 IH]; cbn; [reflexivity|exact IH|rewrite IH; reflexivity].
Qed.

(** ** The guarantee of each source, and the sources when the network is down *)

Section SourceFacts.
Context {E : Env}.

Lemma emits_for_each_in {A} Q (f : A -> list ProxyDict -> M E (list ProxyDict))
    items acc :
  Forall Q acc ->
  (forall x b, In x items -> Forall Q b -> emits Q (f x b)) ->
  emits Q (for_each f items acc).
Proof.
  revert acc. induction items as [|x xs IH]; intros acc Hacc Hf s l.
  - cbn. intros [= <-]. exact Hacc.
  - cbn [for_each]. unfold bind.
    pose proof (Hf x acc (or_introl eq_refl) Hacc s) as Hx.
    destruct (f x acc s) as [[[b|e] s1] t1]; cbn [result_of fst] in *;
      [|discriminate].
    assert (IH' : emits Q (for_each f xs b)).
    { apply IH; [apply Hx; reflexivity|].
      intros y c Hy. apply Hf. right. exact Hy. }
    specialize (IH' s1 l).
    destruct (for_each f xs b s1) as [[r s2] t2]. exact IH'.
Qed.

Lemma scheme_ok_nonempty t : scheme_ok t = true -> PyStr.nonempty t = true.
Proof. destruct t; [discriminate|reflexivity]. Qed.

Lemma freeproxy_world_guarantee :
  emits (E:=E) (source_guarantee FreeproxyWorld) get_jp_proxies_from_freeproxy_world.
Proof.
  intros s l. unfold get_jp_proxies_from_freeproxy_world. unfold bind at 1.
  match goal with
  | |- context [try_except ?b ?h s] => destruct (try_except b h s) as [[[r|e] s1] t1]
  end; [|discriminate].
  destruct r as [response|]; [|cbn; intros [= <-]; constructor].
  destruct (layui_table (soup response)) as [[rows|]|];
    [|cbn; intros [= <-]; constructor..].
  pose proof (for_append_Forall (source_guarantee FreeproxyWorld)
                freeproxy_row rows [] ltac:(constructor)) as HF.
  destruct (for_append freeproxy_row rows []) as [proxies [u|e]];
    [|discriminate].
  cbn. intros [= <-]. apply HF. intros row p Hp.
  destruct (freeproxy_row_emits row p Hp) as (Hi & Hq & Ht).
  split; [exact Ht|]. split; assumption.
Qed.

Lemma proxyscrape_guarantee :
  emits (E:=E) (source_guarantee ProxyScrape) get_jp_proxies_from_proxyscrape.
Proof.
  unfold get_jp_proxies_from_proxyscrape.
  apply (emits_then_print _ _
           (fun l => [Txt ("[ProxyScrape] Total proxies found: " +:+ len_str l)])).
  apply emits_for_each_in; [constructor|].
  intros [pp pt] b Hin Hb. unfold proxyscrape_protocol.
  apply emits_try_collect; [exact Hb|].
  intros line p Hp. apply proxyscrape_line_emits in Hp.
  unfold source_guarantee. rewrite Hp.
  cbn in Hin. destruct Hin as [[= _ <-]|[[= _ <-]|[[= _ <-]|[]]]];
    split; reflexivity.
Qed.

Lemma proxyscan_guarantee :
  emits (E:=E) (source_guarantee Proxyscan) get_jp_proxies_from_proxyscan.
Proof.
  unfold get_jp_proxies_from_proxyscan.
  apply (emits_then_print _ _
           (fun l => [Txt ("[Proxyscan] Found " +:+ len_str l +:+ " proxies.")])).
  apply emits_try_collect; [constructor|].
  intros entry p Hp. apply proxyscan_entry_emits in Hp. exact Hp.
Qed.

Lemma pubproxy_guarantee :
  emits (E:=E) (source_guarantee PubProxy) get_jp_proxies_from_pubproxy.
Proof.
  unfold get_jp_proxies_from_pubproxy.
  apply (emits_then_print _ _
           (fun l => [Txt ("[PubProxy] Found " +:+ len_str l +:+ " proxies.")])).
  apply emits_for_each_in; [constructor|].
  intros [[q lb] pt] b Hin Hb. unfold pubproxy_tier.
  apply emits_try_collect; [exact Hb|].
  intros item p Hp. apply pubproxy_item_emits in Hp.
  unfold source_guarantee. rewrite Hp.
  cbn in Hin. destruct Hin as [[= _ _ <-]|[[= _ _ <-]|[[= _ _ <-]|[]]]];
    split; reflexivity.
Qed.

Lemma getproxylist_guarantee n :
  emits (E:=E) (source_guarantee GetProxyList) (get_jp_proxies_from_getproxylist n).
Proof.
  unfold get_jp_proxies_from_getproxylist.
  apply (emits_then_print _ _
           (fun l => [Txt ("[GetProxyList] Gathered " +:+ len_str l
                           +:+ " proxies from " +:+ PyStr.of_Z (Z.of_nat n)
                           +:+ " requests.")])).
  apply emits_for_each_in; [constructor|].
  intros k b _ Hb. unfold getproxylist_request.
  apply emits_try_collect; [exact Hb|].
  intros x p Hp. apply getproxylist_proto_emits in Hp.
  split; [apply scheme_ok_nonempty, Hp|exact Hp].
Qed.

(** Every record of a batch passed the checks of its source. *)
Lemma batch_guarantee src :
  emits (E:=E) (source_guarantee src) (list_candidates src).
Proof.
  destruct src; cbn [list_candidates].
  - apply freeproxy_world_guarantee.
  - apply proxyscrape_guarantee.
  - apply proxyscan_guarantee.
  - apply pubproxy_guarantee.
  - apply getproxylist_guarantee.
Qed.

Lemma get_down rq (s : env_state E) :
  down E ->
  exists e s', requests_get rq s = (Raise e, s', [EvGet rq (Raise e)]).
Proof.
  intros Hd. unfold requests_get. destruct (Hd rq s) as [e He].
  destruct (requests_get_io E rq s) as [rp s']. cbn [fst] in He. subst rp.
  exists e, s'. reflexivity.
Qed.

Lemma try_collect_down {A} rq (k : Response -> M E (list A)) body label acc
    (s : env_state E) :
  down E ->
  exists s' t,
    try_collect (resp <- requests_get rq;; k resp) body
      (fun e => print [Txt label; Err e]) acc s = (Ok acc, s', t)
    /\ existsb is_diagnostic t = true.
Proof.
  intros Hd. destruct (get_down rq s Hd) as (e & s' & Hg).
  unfold try_collect, bind, try_except. rewrite Hg.
  exists s'. eexists. split; [reflexivity|]. reflexivity.
Qed.

Lemma for_each_down {A} (f : A -> list ProxyDict -> M E (list ProxyDict))
    items acc (s : env_state E) :
  (forall x b s0, exists s' t,
      f x b s0 = (Ok b, s', t) /\ existsb is_diagnostic t = true) ->
  exists s' t,
    for_each f items acc s = (Ok acc, s', t)
    /\ (items <> [] -> existsb is_diagnostic t = true).
Proof.
  intros Hf. revert s. induction items as [|x xs IH]; intros s.
  - exists s, []. split; [reflexivity|]. intros H. contradiction H; reflexivity.
  - cbn [for_each]. unfold bind.
    destruct (Hf x acc s) as (s1 & t1 & Hx & Hd1). rewrite Hx.
    destruct (IH s1) as (s2 & t2 & Hxs & _). rewrite Hxs.
    exists s2, (t1 ++ t2). split; [reflexivity|]. intros _.
    rewrite existsb_app, Hd1. reflexivity.
Qed.

Lemma then_print_run (m : M E (list ProxyDict)) args (s s' : env_state E) l t :
  m s = (Ok l, s', t) ->
  (l <- m;; print (args l);; ret l) s = (Ok l, s', t ++ [EvPrint (args l)]).
Proof. intros H. unfold bind, print, emit, ret. rewrite H. reflexivity. Qed.

(** With the network down every source is seen as an empty batch, after
    a diagnostic. *)
Lemma sources_down src (s : env_state E) :
  down E ->
  result_of (list_candidates src s) = Ok []
  /\ existsb is_diagnostic (trace_of (list_candidates src s)) = true.
Proof.
  intros Hd.
  assert (Hwrap : forall (m : M E (list ProxyDict)) args,
            (exists s' t, m s = (Ok [], s', t) /\ existsb is_diagnostic t = true) ->
            result_of ((l <- m;; print (args l);; ret l) s) = Ok []
            /\ existsb is_diagnostic
                 (trace_of ((l <- m;; print (args l);; ret l) s)) = true).
  { intros m args (s' & t & Hm & Hdg).
    rewrite (then_print_run m args s s' [] t Hm). cbn [result_of trace_of fst snd].
    split; [reflexivity|]. rewrite existsb_app, Hdg. reflexivity. }
  destruct src; cbn [list_candidates].
  - unfold get_jp_proxies_from_freeproxy_world, bind, try_except.
    destruct (get_down (get "https://www.freeproxy.world/?country=JP" 10) s Hd)
      as (e & s' & Hg).
    rewrite Hg. split; reflexivity.
  - unfold get_jp_proxies_from_proxyscrape.
    apply (Hwrap _ (fun l => [Txt ("[ProxyScrape] Total proxies found: "
                                   +:+ len_str l)])).
    edestruct (for_each_down proxyscrape_protocol) as (s' & t & Hrun & Hdg).
    { intros [pp pt] b s0. unfold proxyscrape_protocol.
      apply try_collect_down, Hd. }
    exists s', t. split; [exact Hrun|]. apply Hdg. discriminate.
  - unfold get_jp_proxies_from_proxyscan.
    apply (Hwrap _ (fun l => [Txt ("[Proxyscan] Found " +:+ len_str l
                                   +:+ " proxies.")])).
    apply try_collect_down, Hd.
  - unfold get_jp_proxies_from_pubproxy.
    apply (Hwrap _ (fun l => [Txt ("[PubProxy] Found " +:+ len_str l
                                   +:+ " proxies.")])).
    edestruct (for_each_down pubproxy_tier) as (s' & t & Hrun & Hdg).
    { intros [[q lb] pt] b s0. unfold pubproxy_tier.
      apply try_collect_down, Hd. }
    exists s', t. split; [exact Hrun|]. apply Hdg. discriminate.
  - unfold get_jp_proxies_from_getproxylist.
    apply (Hwrap _ (fun l => [Txt ("[GetProxyList] Gathered " +:+ len_str l
                                   +:+ " proxies from "
                                   +:+ PyStr.of_Z (Z.of_nat 10)
                                   +:+ " requests.")])).
    edestruct (for_each_down getproxylist_request) as (s' & t & Hrun & Hdg).
    { intros k b s0. unfold getproxylist_request.
      apply try_collect_down, Hd. }
    exists s', t. split; [exact Hrun|]. apply Hdg. discriminate.
Qed.

(** The scraper without a table to read: an empty batch, and a line
    that says why. *)
Lemma freeproxy_world_unusable (s : env_state E) :
  page_unusable (fst (requests_get_io E freeproxy_world_request s)) = true ->
  result_of (get_jp_proxies_from_freeproxy_world s) = Ok []
  /\ existsb is_print (trace_of (get_jp_proxies_from_freeproxy_world s)) = true.
Proof.
  unfold get_jp_proxies_from_freeproxy_world, bind, try_except, requests_get,
    raise_for_status, page_unusable, status_passes, freeproxy_world_request.
  destruct (requests_get_io E (get "https://www.freeproxy.world/?country=JP" 10) s)
    as [[r|e] s']; cbn [fst]; [|intros _; split; reflexivity].
  destruct ((400 <=? status_code r)%Z && (status_code r <? 600)%Z);
    cbn [negb orb]; [intros _; split; reflexivity|].
  cbn. destruct (layui_table (soup r)) as [[rows|]|];
    [discriminate|intros _; split; reflexivity..].
Qed.

End SourceFacts.

(** ** A block whose listing is empty *)

Lemma source_block_empty {E : Env} (lister : M E (list ProxyDict)) banner n ok no
    (s s1 : env_state E) t1 :
  lister s = (Ok [], s1, t1) ->
  source_block lister banner n ok no s = (Ok false, s1, t1 ++ [EvPrint [Txt no]]).
Proof.
  intros Hl. unfold source_block. unfold bind at 1. rewrite Hl. reflexivity.
Qed.

(** A step of [main] starts with its line and with the listing of its
    source. *)
Lemma stage_starts_with_listing {E : Env} announce (lister : M E (list ProxyDict))
    banner n ok no rest (s : env_state E) :
  exists t, trace_of (stage announce (source_block lister banner n ok no) rest s)
            = EvPrint announce :: trace_of (lister s) ++ t.
Proof.
  unfold stage, source_block. unfold bind at 1, print, emit.
  unfold bind at 1. unfold bind at 1.
  destruct (lister s) as [[[l|e] s1] t1]; cbn [trace_of snd].
  - match goal with
    | |- context [match ?k s1 with (a, b) => _ end] =>
        destruct (k s1) as [[[r|e] s2] t2]
    end.
    + destruct r.
      * eexists. cbn. rewrite <- app_assoc. reflexivity.
      * match goal with
        | |- context [rest s2] => destruct (rest s2) as [[r3 s3] t3]
        end.
        eexists. cbn. rewrite <- app_assoc. reflexivity.
    + eexists. cbn. reflexivity.
  - exists []. cbn. rewrite app_nil_r. reflexivity.
Qed.

(** In [main]: when freeproxy.world yields an empty batch, what comes next
    is the line that says so, the announcement of ProxyScrape and the
    listing of ProxyScrape; no fetch attempt stands in between. *)
Lemma main_after_empty_first_batch {E : Env} (s s1 : env_state E) t1 :
  get_jp_proxies_from_freeproxy_world s = (Ok [], s1, t1) ->
  exists t,
    trace_of (main s)
    = EvPrint [Txt "Fetching JP proxies from freeproxy.world ..."]
      :: t1
      ++ [EvPrint [Txt "No Japanese proxies found on freeproxy.world or request failed."];
          EvPrint [Txt (nl +:+ "Now trying ProxyScrape (2 attempts) ...")]]
      ++ trace_of (get_jp_proxies_from_proxyscrape s1) ++ t.
Proof.
  intros Hl. rewrite main_stages.
  match goal with
  | |- context [stage ?a1 (source_block ?l1 ?b1 ?n1 ?ok1 ?no1) ?rest1 s] =>
      unfold stage at 1; unfold bind at 1, print, emit; unfold bind at 1;
      rewrite (source_block_empty l1 b1 n1 ok1 no1 s s1 t1 Hl)
  end.
  match goal with
  | |- context [stage ?a2 (source_block ?l2 ?b2 ?n2 ?ok2 ?no2) ?rest2 s1] =>
      destruct (stage_starts_with_listing a2 l2 b2 n2 ok2 no2 rest2 s1) as [t Ht];
      destruct (stage a2 (source_block l2 b2 n2 ok2 no2) rest2 s1)
        as [[r2 s2] t2]
  end.
  cbn [trace_of snd] in Ht. subst t2. exists t. cbn [trace_of snd].
  cbn [app]. rewrite <- !app_assoc. reflexivity.
Qed.

(** ** The publisher in any world *)

(** X13: every run of [update_github_rss_feed], by the answers to its read
    and to its write: it writes at most once, with the revision id it read if
    there is one, and its lines tell Created, Updated or Rejected. *)
Lemma publisher_on_replies {E : Env} (rss : string) (s : env_state E) :
  match requests_get_io E github_request s with
  | (Raise e, _) =>
      result_of (update_github_rss_feed rss s) = Raise e
      /\ puts (trace_of (update_github_rss_feed rss s)) = []
  | (Ok r, s1) =>
      match sha_read r with
      | Raise e =>
          result_of (update_github_rss_feed rss s) = Raise e
          /\ puts (trace_of (update_github_rss_feed rss s)) = []
      | Ok v =>
          puts (trace_of (update_github_rss_feed rss s)) = [data_sent (E:=E) rss v]
          /\ match requests_put_io E github_request (data_sent (E:=E) rss v) s1 with
             | (Raise e, _) => result_of (update_github_rss_feed rss s) = Raise e
             | (Ok pr, _) =>
                 publish_result (trace_of (update_github_rss_feed rss s))
                 = Some (if write_accepted pr
                         then if (status_code r =? 200)%Z then Updated else Created
                         else Rejected (status_code pr))
             end
      end
  end.
Proof.
  unfold update_github_rss_feed, sha_read, write_accepted, data_sent.
  unfold bind, requests_get, requests_put, print, emit, lift, ret, raise, res_bind.
  destruct (requests_get_io E github_request s) as [[r|e] s1];
    [|split; reflexivity].
  destruct (status_code r =? 200)%Z eqn:H200.
  - destruct (json r) as [fi|e]; [|split; reflexivity].
    destruct (dict_get fi "sha" PNone) as [v|e]; [|split; reflexivity].
    destruct (requests_put_io E github_request _ s1) as [[pr|e] s2];
      [|split; reflexivity].
    destruct ((status_code pr =? 200)%Z || (status_code pr =? 201)%Z);
      [split; reflexivity|].
    destruct (json pr) as [body|e]; split; reflexivity.
  - destruct (requests_put_io E github_request _ s1) as [[pr|e] s2];
      [|split; reflexivity].
    destruct ((status_code pr =? 200)%Z || (status_code pr =? 201)%Z);
      [split; reflexivity|].
    destruct (json pr) as [body|e]; split; reflexivity.
Qed.

(* ===================================================================== *)
(** * The claims *)
(* ===================================================================== *)

(** ** C1: what the fetcher returns *)

(** C1, where the claim fails as stated: a proxy that answers with status
    300 and a body holding the marker makes [fetch_rss_with_proxy] return
    that body, although the status is not in the 2xx class. *)
Lemma C1_success_without_2xx :
  outcome (fetch_rss_with_proxy (E:=multiple_choices) rss_url sample_proxy 0)
  = Success sample_feed
  /\ reply_to (E:=multiple_choices) rss_url sample_proxy 0
     = Ok (text_page 300 sample_feed)
  /\ is_2xx (text_page 300 sample_feed) = false.
Proof. repeat split. Qed.

(** C1 (amended): a fetch attempt returns Success with the response body
    if and only if the request got a response whose status
    [raise_for_status] lets pass (any status outside 400..599) and whose
    body contains the literal substring [<dc:date>]; a body returned with
    HTTP 200 that lacks the marker yields Invalid, never Success. *)
Theorem C1_fetch_outcome (E : Env) (url : string) (p : ProxyDict)
    (s : env_state E) :
  (forall c,
     outcome (fetch_rss_with_proxy url p s) = Success c
     <-> exists r, reply_to url p s = Ok r /\ status_passes r = true
                   /\ has_marker (text r) = true /\ c = text r)
  /\ (forall r,
        reply_to url p s = Ok r -> status_code r = 200%Z ->
        has_marker (text r) = false ->
        outcome (fetch_rss_with_proxy url p s) = Invalid).
Proof.
  unfold reply_to, outcome. rewrite fetch_run.
  destruct (requests_get_io E (proxy_request url p) s) as [[r|e] s'];
    cbn [fst].
  - destruct (status_passes r) eqn:Hst; [destruct (has_marker (text r)) eqn:Hmk|];
      cbn [result_of trace_of fst snd]; split.
    + intros c. split.
      * intros [= <-]. exists r. auto.
      * intros (r' & [= <-] & _ & _ & ->). reflexivity.
    + intros r' [= <-] _ Hno. congruence.
    + intros c. split.
      * cbn. discriminate.
      * intros (r' & [= <-] & _ & Hm & _). congruence.
    + intros r' [= <-] _ _. reflexivity.
    + intros c. split.
      * cbn. discriminate.
      * intros (r' & [= <-] & Hp & _). congruence.
    + intros r' [= <-] H200 _. exfalso.
      unfold status_passes in Hst. rewrite H200 in Hst. discriminate.
  - cbn [result_of trace_of fst snd]. split.
    + intros c. split; [cbn; discriminate|].
      intros (r' & Hr & _). discriminate.
    + intros r' Hr. discriminate.
Qed.

(** The two halves of C1 at work: a page with status 200 and no marker
    is Invalid; a proxy answering 300 with the feed is a Success. *)
Lemma C1_fetch_outcome_witness :
  outcome (fetch_rss_with_proxy (E:=captcha) rss_url sample_proxy 0) = Invalid
  /\ outcome (fetch_rss_with_proxy (E:=multiple_choices) rss_url sample_proxy 0)
     = Success sample_feed.
Proof.
  split.
  - apply (proj2 (C1_fetch_outcome captcha rss_url sample_proxy 0)
             (text_page 200 "<html>Are you human?</html>"));
      reflexivity.
  - apply (proj1 (C1_fetch_outcome multiple_choices rss_url sample_proxy 0)
             sample_feed).
    exists (text_page 300 sample_feed). repeat split.
Defined.

(** ** C2: the first success ends the search *)

(** C2: in every run of [main], once a fetch attempt has returned the
    content [c], nothing that follows is a fetch, a listing or a shuffle:
    what follows is the line that announces the success and the publisher
    running on [c]. *)
Theorem C2_first_success_is_final (E : Env) (s : env_state E)
    (pre post : list event) (e : event) (c : string) :
  trace_of (main s) = pre ++ e :: post ->
  fetch_success e = Some c ->
  forallb after_success post = true
  /\ exists msg (s' : env_state E),
       post = EvPrint [Txt msg] :: trace_of (update_github_rss_feed c s').
Proof.
  intros Htr He. pose proof (success_is_success e c He) as Hs.
  destruct (main_shape s) as [(ex & _ & _ & Hb)|[[_ Hf]|[c' Hd]]].
  - rewrite Htr in Hb. apply before_success_not_success in Hb.
    apply forallb_at in Hb. rewrite Hs in Hb. discriminate.
  - apply failed_trace_no_success in Hf. rewrite Htr in Hf.
    apply forallb_at in Hf. rewrite Hs in Hf. discriminate.
  - destruct Hd as (t0 & e' & msg & s' & Heq & H0 & He').
    destruct (publisher_trace_facts c' s') as (Ha & Hn & _).
    rewrite Htr in Heq.
    apply (split_unique is_success) in Heq as (-> & -> & ->);
      [ | apply before_success_not_success, H0
        | apply (success_is_success _ _ He')
        | cbn [forallb]; rewrite Hn; reflexivity
        | exact Hs ].
    rewrite He in He'. injection He' as <-.
    split; [cbn [forallb]; rewrite Ha; reflexivity|].
    exists msg, s'. reflexivity.
Qed.

(** C2 in the world [lucky]: after the successful fetch come the success
    line and the publisher, nothing else. *)
Lemma C2_first_success_is_final_witness :
  forallb after_success lucky_after = true
  /\ exists msg (s' : env_state lucky),
       lucky_after
       = EvPrint [Txt msg] :: trace_of (update_github_rss_feed sample_feed s').
Proof.
  apply (C2_first_success_is_final lucky 0 lucky_before lucky_after lucky_fetch
           sample_feed).
  - vm_compute. reflexivity.
  - vm_compute. reflexivity.
Defined.

(** ** C3: the publisher runs at most once; a run without success *)

(** C3, where the code departs from the claim: the freeproxy.world table
    has one row whose type cell is empty.  [proxy_type.split()[0]] raises
    [IndexError] outside any [try], and [main] ends on that exception: no
    fetch attempt was made, none succeeded, the publisher was not
    invoked, and the failure line ([FAILED]) was never printed. *)
Theorem C3_run_ends_without_failed_line :
  result_of (main (E:=blank_type_row) 0) = Raise IndexError
  /\ forallb (fun e => negb (is_success e)) (trace_of (main (E:=blank_type_row) 0))
     = true
  /\ count is_fetch (trace_of (main (E:=blank_type_row) 0)) = 0
  /\ count is_publish (trace_of (main (E:=blank_type_row) 0)) = 0
  /\ existsb is_failed_line (trace_of (main (E:=blank_type_row) 0)) = false.
Proof. repeat split. Qed.

(** X26: in every run of [main] the publisher is invoked at most once, and
    an invocation comes after a fetch attempt that returned Success; when
    no fetch attempt of the run succeeds the publisher is never invoked,
    and the run, if its first listing returned a batch, ends on the
    failure line ([FAILED]). *)
Theorem publisher_at_most_once (E : Env) (s : env_state E) :
  count is_publish (trace_of (main s)) <= 1
  /\ (forall pre e post,
        trace_of (main s) = pre ++ e :: post -> is_publish e = true ->
        existsb is_success pre = true)
  /\ (forallb (fun e => negb (is_success e)) (trace_of (main s)) = true ->
      count is_publish (trace_of (main s)) = 0
      /\ ((exists l, result_of (get_jp_proxies_from_freeproxy_world s) = Ok l) ->
          result_of (main s) = Ok tt /\ failed_trace (trace_of (main s)))).
Proof.
  destruct (main_shape s) as [(ex & Hr & Hl & Hb)|[[Hr Hf]|[c Hd]]].
  - pose proof (before_success_not_publish _ Hb) as Hnp.
    split; [|split].
    + rewrite (count_none _ _ Hnp). lia.
    + intros pre e post Htr He. rewrite Htr in Hnp.
      apply forallb_at in Hnp. rewrite He in Hnp. discriminate.
    + intros _. split; [apply count_none, Hnp|].
      intros [l Hok]. rewrite Hok in Hl. discriminate.
  - pose proof (failed_trace_no_publish _ Hf) as Hnp.
    split; [|split].
    + rewrite (count_none _ _ Hnp). lia.
    + intros pre e post Htr He. rewrite Htr in Hnp.
      apply forallb_at in Hnp. rewrite He in Hnp. discriminate.
    + intros _. split; [apply count_none, Hnp|].
      intros _. split; [exact Hr|exact Hf].
  - destruct Hd as (t0 & e' & msg & s' & Heq & H0 & He').
    destruct (publisher_trace_facts c s') as (_ & _ & rp & t & Hu & Hnp).
    rewrite Hu in Heq.
    pose proof (before_success_not_publish _ H0) as Hnp0.
    pose proof (success_not_publish _ _ He') as Hnpe.
    destruct (github_request_event rp) as (_ & Hpub & _).
    split; [|split].
    + rewrite Heq, count_app. cbn [count]. rewrite Hnpe, Hpub.
      rewrite (count_none _ _ Hnp0), (count_none _ _ Hnp). cbn. lia.
    + intros pre e post Htr He. rewrite Heq in Htr.
      change (t0 ++ e' :: EvPrint [Txt msg] :: EvGet github_request rp :: t)
        with (t0 ++ [e'; EvPrint [Txt msg]] ++ EvGet github_request rp :: t)
        in Htr.
      rewrite app_assoc in Htr. symmetry in Htr.
      apply (split_unique is_publish) in Htr as (-> & _ & _);
        [ | rewrite forallb_app, Hnp0; cbn; rewrite Hnpe; reflexivity
          | exact Hpub | exact Hnp | exact He ].
      rewrite existsb_app. cbn. rewrite (success_is_success _ _ He').
      apply orb_true_r.
    + intros Hno. exfalso. rewrite Heq in Hno. apply forallb_at in Hno.
      rewrite (success_is_success _ _ He') in Hno. discriminate.
Qed.

(** X26 in the world [unreachable]: no fetch succeeds, the publisher is
    not invoked and the run ends on the failure line. *)
Lemma publisher_at_most_once_witness :
  count is_publish (trace_of (main (E:=unreachable) 0)) = 0
  /\ result_of (main (E:=unreachable) 0) = Ok tt
  /\ failed_trace (trace_of (main (E:=unreachable) 0)).
Proof.
  assert (Hno : forallb (fun e => negb (is_success e))
                  (trace_of (main (E:=unreachable) 0)) = true)
    by (vm_compute; reflexivity).
  destruct (proj2 (proj2 (publisher_at_most_once unreachable 0)) Hno)
    as [Hc Hf].
  split; [exact Hc|]. apply Hf. exists []. vm_compute. reflexivity.
Defined.

(** ** C4: two rounds over three dead proxies *)

(** C4: for a source tried with [attempts=2] whose batch holds exactly 3
    proxies that always fail, the block makes exactly 6 fetch attempts, in
    two rounds of three with a shuffle before each round, and then falls
    through to the next source. *)
Theorem C4_two_rounds_of_three (E : Env) (lister : M E (list ProxyDict))
    (banner : list (list printed)) (ok no : string) (s s1 : env_state E)
    (l : list ProxyDict) (t1 : list event) :
  lister s = (Ok l, s1, t1) ->
  length l = 3 ->
  always_fail E rss_url l ->
  result_of (source_block lister banner 2 ok no s) = Ok false
  /\ kinds (trace_of (source_block lister banner 2 ok no s))
     = kinds t1 ++ [KShuffle; KFetch; KFetch; KFetch;
                    KShuffle; KFetch; KFetch; KFetch]
  /\ count is_fetch (trace_of (source_block lister banner 2 ok no s))
     = count is_fetch t1 + 6.
Proof.
  intros Hl Hlen Hf.
  set (x := source_block lister banner 2 ok no s).
  assert (Hx : x = source_block lister banner 2 ok no s) by reflexivity.
  clearbody x. unfold source_block in Hx. unfold bind at 1 in Hx.
  rewrite Hl in Hx. destruct l as [|p l]; [discriminate|].
  unfold bind at 1 in Hx.
  destruct (banner_run banner s1) as (tb & Hb & Hpb). rewrite Hb in Hx.
  unfold bind at 1 in Hx. unfold try_proxies_multiple_attempts in Hx.
  destruct (attempt_rounds_fail rss_url 2 2 (p :: l) s1 Hf) as [[l' Hr] Hk].
  destruct (attempt_rounds rss_url 2 2 (p :: l) s1) as [[r3 s3] t3].
  cbn [result_of trace_of fst snd] in Hr, Hk. subst r3. cbn [fst] in Hx.
  unfold ret in Hx. subst x. cbn [result_of trace_of fst snd].
  rewrite Hlen in Hk. cbn [repeat concat app] in Hk.
  assert (Hkinds : kinds (t1 ++ tb ++ t3 ++ [])
                   = kinds t1 ++ [KShuffle; KFetch; KFetch; KFetch;
                                  KShuffle; KFetch; KFetch; KFetch]).
  { rewrite app_nil_r, !kinds_app, (kinds_prints tb Hpb), Hk. reflexivity. }
  split; [reflexivity|]. split; [exact Hkinds|].
  rewrite !count_fetch_kinds, Hkinds, fetch_steps_app. reflexivity.
Qed.

(** C4 in the world [three_dead]: ProxyScrape lists three proxies, none
    relays, and the block makes six attempts before it falls through. *)
Lemma C4_two_rounds_of_three_witness :
  result_of (source_block (E:=three_dead) get_jp_proxies_from_proxyscrape []
               2 "ok" "none" 0) = Ok false
  /\ kinds (trace_of (source_block (E:=three_dead)
                        get_jp_proxies_from_proxyscrape [] 2 "ok" "none" 0))
     = kinds three_dead_listing ++ [KShuffle; KFetch; KFetch; KFetch;
                                    KShuffle; KFetch; KFetch; KFetch]
  /\ count is_fetch (trace_of (source_block (E:=three_dead)
                                 get_jp_proxies_from_proxyscrape [] 2
                                 "ok" "none" 0))
     = count is_fetch three_dead_listing + 6.
Proof.
  apply (C4_two_rounds_of_three three_dead get_jp_proxies_from_proxyscrape []
           "ok" "none" 0 3 three_dead_batch three_dead_listing).
  - vm_compute. reflexivity.
  - reflexivity.
  - intros p s Hin. reflexivity.
Defined.

(** ** A block whose listing returned an empty batch *)

(** When the listing function of a block returns an empty batch, the
    block prints the line saying so and does nothing else, and the step
    it belongs to goes on with the rest from the state the listing left. *)
Lemma empty_batch_block (E : Env) (lister : M E (list ProxyDict))
    (banner : list (list printed)) (attempts : nat) (ok no : string)
    (announce : list printed) (rest : M E unit)
    (s s1 : env_state E) (t1 : list event) :
  lister s = (Ok [], s1, t1) ->
  source_block lister banner attempts ok no s
    = (Ok false, s1, t1 ++ [EvPrint [Txt no]])
  /\ count is_fetch (trace_of (source_block lister banner attempts ok no s))
     = count is_fetch t1
  /\ stage announce (source_block lister banner attempts ok no) rest s
     = (result_of (rest s1), state_of (rest s1),
        EvPrint announce :: (t1 ++ [EvPrint [Txt no]]) ++ trace_of (rest s1)).
Proof.
  intros Hl.
  assert (Hb : source_block lister banner attempts ok no s
               = (Ok false, s1, t1 ++ [EvPrint [Txt no]])).
  { unfold source_block. unfold bind at 1. rewrite Hl. reflexivity. }
  split; [exact Hb|]. split.
  - rewrite Hb. cbn [trace_of snd]. rewrite count_app. cbn. lia.
  - unfold stage. unfold bind at 1, print, emit. unfold bind at 1.
    rewrite Hb. destruct (rest s1) as [[r sr] tr]. reflexivity.
Qed.

(** ** C10: the rounds only reorder the list *)

(** C10: whatever the list, the number of attempts and the world,
    [try_proxies_multiple_attempts] returns, and the list it leaves is a
    permutation of the list it was given: the same records with the same
    multiplicities. *)
Theorem C10_rounds_permute_list (E : Env) (url : string) (l : list ProxyDict)
    (attempts : nat) (s : env_state E) :
  exists r l',
    result_of (try_proxies_multiple_attempts url l attempts s) = Ok (r, l')
    /\ l' ≡ₚ l.
Proof.
  unfold try_proxies_multiple_attempts.
  destruct (attempt_rounds_shape url attempts attempts l s)
    as (r & l' & Hr & Hp & _).
  exists r, l'. split; [exact Hr|exact Hp].
Qed.

(** ** C5: the shape of the records in a batch *)

(** C5, where the claim fails as stated: ProxyScrape answering [:0] yields
    records with an empty address and port 0, and a Proxyscan.io entry of
    type FTP with port 99999 is emitted as it is; none of these has the
    shape of a proxy record. *)
Lemma C5_ill_shaped_records_emitted :
  result_of (list_candidates (E:=odd_lists) ProxyScrape 0)
  = Ok [ {| ip := ""; port := "0"; type := "http" |};
         {| ip := ""; port := "0"; type := "socks4" |};
         {| ip := ""; port := "0"; type := "socks5" |} ]
  /\ well_shaped {| ip := ""; port := "0"; type := "http" |} = false
  /\ result_of (list_candidates (E:=odd_lists) Proxyscan 0)
     = Ok [ {| ip := "10.0.0.1"; port := "99999"; type := "ftp" |} ]
  /\ port_ok "99999" = false
  /\ scheme_ok "ftp" = false.
Proof. repeat split. Qed.

(** C5 (amended): for every proxy source and every provider response,
    every record of the batch has a non-empty type; the type is one of
    http, socks4, socks5 for ProxyScrape, PubProxy and GetProxyList and is
    never https for Proxyscan.io; the address and the port are non-empty
    for freeproxy.world.  (No source checks that the port is a number from
    1 to 65535.) *)
Theorem C5_records_pass_source_checks (E : Env) (src : source)
    (s : env_state E) (l : list ProxyDict) (p : ProxyDict) :
  result_of (list_candidates src s) = Ok l -> In p l ->
  source_guarantee src p.
Proof.
  intros Hl Hin. pose proof (batch_guarantee src s l Hl) as HF.
  rewrite List.Forall_forall in HF. apply HF, Hin.
Qed.

(** C5 at work on the batch ProxyScrape returns in the world [odd_lists]. *)
Lemma C5_records_pass_source_checks_witness :
  source_guarantee ProxyScrape {| ip := ""; port := "0"; type := "http" |}.
Proof.
  apply (C5_records_pass_source_checks odd_lists ProxyScrape 0
           [ {| ip := ""; port := "0"; type := "http" |};
             {| ip := ""; port := "0"; type := "socks4" |};
             {| ip := ""; port := "0"; type := "socks5" |} ]).
  - reflexivity.
  - left. reflexivity.
Defined.

(** ** C6: the https label *)

(** C6, the run that departs from the claim: a row of the freeproxy.world
    table labelled HTTPS is emitted with type https, not coerced to
    http. *)
Theorem C6_freeproxy_world_keeps_https :
  result_of (list_candidates (E:=https_row) FreeproxyWorld 0)
  = Ok [ {| ip := "203.0.113.7"; port := "8080"; type := "https" |} ].
Proof. reflexivity. Qed.

(** The four other sources do what C6 says: none of their records carries
    the type https. *)
Lemma api_sources_never_emit_https (E : Env) (src : source) (s : env_state E)
    (l : list ProxyDict) (p : ProxyDict) :
  src <> FreeproxyWorld ->
  result_of (list_candidates src s) = Ok l -> In p l -> type p <> "https".
Proof.
  intros Hsrc Hl Hin. pose proof (batch_guarantee src s l Hl) as HF.
  rewrite List.Forall_forall in HF. destruct (HF p Hin) as [_ Hg].
  destruct src; try exact Hg; try (intros Heq; rewrite Heq in Hg; discriminate).
  contradiction Hsrc; reflexivity.
Qed.

(** ** C7: failures of a provider *)

(** C7, where the claim fails as stated: a row of the freeproxy.world
    table with an empty type cell makes the listing raise [IndexError] to
    its caller; and ProxyScrape failing on two of its three queries (two
    diagnostics are printed) returns the batch of the query that worked,
    not an empty batch. *)
Lemma C7_raise_and_partial_batch :
  result_of (list_candidates (E:=blank_type_row) FreeproxyWorld 0)
  = Raise IndexError
  /\ result_of (list_candidates (E:=half_scrape) ProxyScrape 0)
     = Ok [sample_proxy]
  /\ count is_diagnostic (trace_of (list_candidates (E:=half_scrape) ProxyScrape 0))
     = 2.
Proof. repeat split. Qed.

(** ** C8: create, update, reject *)

(** C8: on the store of the specification, a publish that finds no stored
    revision writes without a revision id, reports Created and leaves the
    new content stored; one that finds a revision sends that revision id,
    reports Updated and leaves the new content stored; one whose revision
    has become stale, another commit having landed after the read, reports
    Rejected and leaves the stored content as that commit made it. *)
Theorem C8_publish_results (hash b64 : string -> string) (rss : string) :
  (forall st : Store,
     stored st = None -> incoming st = None ->
     puts (trace_of (update_github_rss_feed (E:=store_env hash b64) rss st))
     = [put_data (E:=store_env hash b64) rss None]
     /\ publish_result
          (trace_of (update_github_rss_feed (E:=store_env hash b64) rss st))
        = Some Created
     /\ stored (state_of (update_github_rss_feed (E:=store_env hash b64) rss st))
        = Some (hash (b64 rss), b64 rss))
  /\ (forall (st : Store) rev old,
        stored st = Some (rev, old) -> incoming st = None ->
        PyStr.nonempty rev = true ->
        puts (trace_of (update_github_rss_feed (E:=store_env hash b64) rss st))
        = [put_data (E:=store_env hash b64) rss (Some rev)]
        /\ publish_result
             (trace_of (update_github_rss_feed (E:=store_env hash b64) rss st))
           = Some Updated
        /\ stored (state_of (update_github_rss_feed (E:=store_env hash b64) rss st))
           = Some (hash (b64 rss), b64 rss))
  /\ (forall (st : Store) rev old commit,
        stored st = Some (rev, old) -> incoming st = Some commit ->
        fst commit <> rev -> PyStr.nonempty rev = true ->
        puts (trace_of (update_github_rss_feed (E:=store_env hash b64) rss st))
        = [put_data (E:=store_env hash b64) rss (Some rev)]
        /\ publish_result
             (trace_of (update_github_rss_feed (E:=store_env hash b64) rss st))
           = Some (Rejected 409)
        /\ stored (state_of (update_github_rss_feed (E:=store_env hash b64) rss st))
           = Some commit).
Proof.
  split; [|split].
  - intros [sd inc] Hs Hi. cbn in Hs, Hi. subst sd inc. repeat split.
  - intros [sd inc] rev old Hs Hi Hne. cbn in Hs, Hi. subst sd inc.
    unfold update_github_rss_feed, bind, requests_get, requests_put, print,
      emit, ret, lift.
    cbn. rewrite Hne. cbn. unfold store_put. cbn. rewrite String.eqb_refl.
    repeat split.
  - intros [sd inc] rev old [rev' new'] Hs Hi Hdiff Hne. cbn in Hs, Hi, Hdiff.
    subst sd inc.
    unfold update_github_rss_feed, bind, requests_get, requests_put, print,
      emit, ret, lift.
    cbn. rewrite Hne. cbn. unfold store_put. cbn.
    assert (Heq : String.eqb rev rev' = false).
    { apply String.eqb_neq. intros ->. apply Hdiff. reflexivity. }
    rewrite Heq. repeat split.
Qed.

(** C8 on a store that holds revision [r1] while another writer commits
    [r2] after the read: the publish is rejected and the store keeps the
    other writer's content. *)
Lemma C8_publish_results_witness :
  publish_result
    (trace_of (update_github_rss_feed (E:=store_env (fun c => c) (fun c => c))
                 sample_feed
                 {| stored := Some ("r1", "old feed");
                    incoming := Some ("r2", "their feed") |}))
  = Some (Rejected 409)
  /\ stored
       (state_of (update_github_rss_feed (E:=store_env (fun c => c) (fun c => c))
                    sample_feed
                    {| stored := Some ("r1", "old feed");
                       incoming := Some ("r2", "their feed") |}))
     = Some ("r2", "their feed").
Proof.
  destruct (proj2 (proj2
    (C8_publish_results (fun c => c) (fun c => c) sample_feed))
    {| stored := Some ("r1", "old feed"); incoming := Some ("r2", "their feed") |}
    "r1" "old feed" ("r2", "their feed") eq_refl eq_refl)
    as (_ & Hres & Hst).
  - discriminate.
  - reflexivity.
  - split; [exact Hres|exact Hst].
Defined.

(* ===================================================================== *)
(** * Further properties of the code *)
(* ===================================================================== *)

(** ** Running a sequence *)

Section RunFacts.
Context {E : Env}.

Lemma bind_ok {A B} (m : M E A) (f : A -> M E B) (s s1 : env_state E) a t1 :
  m s = (Ok a, s1, t1) ->
  bind m f s = (result_of (f a s1), state_of (f a s1), t1 ++ trace_of (f a s1)).
Proof.
  intros H. unfold bind. rewrite H. destruct (f a s1) as [[r s2] t2]. reflexivity.
Qed.

Lemma bind_raise {A B} (m : M E A) (f : A -> M E B) (s s1 : env_state E) e t1 :
  m s = (Raise e, s1, t1) -> bind m f s = (Raise e, s1, t1).
Proof. intros H. unfold bind. rewrite H. reflexivity. Qed.

Lemma run_eta {A} (x : res A * env_state E * list event) :
  x = (result_of x, state_of x, trace_of x).
Proof. destruct x as [[r s] t]. reflexivity. Qed.

Lemma fetch_requests_app t1 t2 :
  fetch_requests (t1 ++ t2) = fetch_requests t1 ++ fetch_requests t2.
Proof.
  induction t1 as [|e t1 IH]; [reflexivity|].
  destruct e as [rq rp| | |]; cbn [app fetch_requests]; try exact IH.
  destruct (is_fetch (EvGet rq rp)); cbn; rewrite IH; reflexivity.
Qed.

Lemma listing_requests_app t1 t2 :
  listing_requests (t1 ++ t2) = listing_requests t1 ++ listing_requests t2.
Proof.
  induction t1 as [|e t1 IH]; [reflexivity|].
  destruct e as [rq rp| | |]; cbn [app listing_requests]; try exact IH.
  destruct (is_listing (EvGet rq rp)); cbn; rewrite IH; reflexivity.
Qed.

Lemma count_fetch_requests t : count is_fetch t = length (fetch_requests t).
Proof.
  induction t as [|e t IH]; [reflexivity|].
  destruct e as [rq rp| | |]; cbn [count fetch_requests]; try exact IH.
  destruct (is_fetch (EvGet rq rp)); cbn; rewrite IH; reflexivity.
Qed.

Lemma count_listing_requests t : count is_listing t = length (listing_requests t).
Proof.
  induction t as [|e t IH]; [reflexivity|].
  destruct e as [rq rp| | |]; cbn [count listing_requests]; try exact IH.
  destruct (is_listing (EvGet rq rp)); cbn; rewrite IH; reflexivity.
Qed.

(** What one fetch attempt leaves in the trace: its own request, no
    shuffle. *)
Lemma fetch_requests_of_fetch url p (s : env_state E) :
  fetch_requests (trace_of (fetch_rss_with_proxy url p s)) = [proxy_request url p]
  /\ count is_shuffle (trace_of (fetch_rss_with_proxy url p s)) = 0.
Proof.
  rewrite fetch_run.
  destruct (requests_get_io E (proxy_request url p) s) as [[r|e] s'];
    [destruct (status_passes r); [destruct (has_marker (text r))|]|];
    split; reflexivity.
Qed.

(** One pass asks the proxies in the order of the list and stops at the
    first that succeeds. *)
Lemma try_all_pass url l (s : env_state E) :
  exists k,
    k <= length l
    /\ fetch_requests (trace_of (try_all_proxies_once url l s))
       = map (proxy_request url) (firstn k l)
    /\ count is_shuffle (trace_of (try_all_proxies_once url l s)) = 0
    /\ (result_of (try_all_proxies_once url l s) = Ok None -> k = length l)
    /\ (forall c, result_of (try_all_proxies_once url l s) = Ok (Some c) -> 1 <= k).
Proof.
  revert s. induction l as [|p l IH]; intros s.
  - exists 0. cbn. repeat split; try lia. intros c H. discriminate.
  - cbn [try_all_proxies_once].
    destruct (fetch_shape url p s) as (r & Hr & Ht & _ & _).
    destruct (fetch_requests_of_fetch url p s) as [Hreq Hsh].
    destruct (fetch_rss_with_proxy url p s) as [[r0 s1] t1] eqn:Hfetch.
    cbn [result_of trace_of fst snd] in Hr, Hreq, Hsh. subst r0.
    rewrite (bind_ok _ _ s s1 r t1 Hfetch).
    destruct r as [c|].
    + destruct Ht as [Ht|Ht]; [discriminate|]. rewrite Ht.
      exists 1. cbn [result_of state_of trace_of fst snd ret length firstn map].
      rewrite app_nil_r, Hreq, Hsh. repeat split; try lia. intros H. discriminate.
    + cbn [truthy_content].
      destruct (IH s1) as (k & Hk & Hreqs & Hshs & Hnone & Hsome).
      exists (S k). cbn [result_of state_of trace_of fst snd length firstn map].
      rewrite fetch_requests_app, count_app, Hreq, Hsh, Hreqs, Hshs.
      repeat split; try lia.
      intros H. rewrite (Hnone H). reflexivity.
Qed.

(** The rounds stay within their budget, and use all of it when they end
    without a success. *)
Lemma attempt_rounds_budget url attempts remaining l (s : env_state E) :
  count is_shuffle (trace_of (attempt_rounds url attempts remaining l s)) <= remaining
  /\ count is_fetch (trace_of (attempt_rounds url attempts remaining l s))
     <= remaining * length l
  /\ (forall l', result_of (attempt_rounds url attempts remaining l s) = Ok (None, l') ->
      count is_shuffle (trace_of (attempt_rounds url attempts remaining l s)) = remaining
      /\ count is_fetch (trace_of (attempt_rounds url attempts remaining l s))
         = remaining * length l).
Proof.
  revert l s. induction remaining as [|k IH]; intros l s.
  - cbn. repeat split; lia.
  - cbn [attempt_rounds].
    rewrite (bind_ok _ _ s s tt [EvPrint _]) by reflexivity.
    destruct (random_shuffle_run l s) as (l1 & s1 & Hsh & Hp1).
    rewrite (bind_ok _ _ s s1 l1 _ Hsh).
    destruct (try_all_pass url l1 s1) as (n & Hn & Hreq & Hshf & Hnone & _).
    destruct (try_all_proxies_once_shape url l1 s1) as (r & Hr & Ht & _).
    pose proof (Permutation_length Hp1) as Hlen.
    assert (Hf : count is_fetch (trace_of (try_all_proxies_once url l1 s1)) = n).
    { rewrite count_fetch_requests, Hreq, length_map, length_firstn. lia. }
    clear Hreq.
    destruct (try_all_proxies_once url l1 s1) as [[r0 s2] t2] eqn:Hpass.
    cbn [result_of state_of trace_of fst snd] in *. subst r0.
    rewrite (bind_ok _ _ s1 s2 r t2 Hpass).
    destruct r as [c|].
    + destruct Ht as [Ht|Ht]; [discriminate|]. rewrite Ht. unfold ret.
      cbn [result_of state_of trace_of fst snd app]. rewrite app_nil_r.
      cbn [count is_shuffle is_fetch]. rewrite Hf, Hshf.
      split; [lia|]. split; [nia|]. intros l' H. discriminate.
    + cbn [truthy_content].
      specialize (IH l1 s2). destruct IH as (IHs & IHf & IHn).
      rewrite (run_eta (attempt_rounds url attempts k l1 s2)).
      cbn [result_of state_of trace_of fst snd app].
      cbn [count is_shuffle is_fetch]. rewrite !count_app, Hf, Hshf.
      rewrite Hlen in *. rewrite (Hnone eq_refl) in *.
      split; [lia|]. split; [nia|].
      intros l' H. destruct (IHn l' H) as [Hs' Hf']. rewrite Hs', Hf'. lia.
Qed.

End RunFacts.

(** ** Which requests a computation makes *)

Section RequestFacts.
Context {E : Env}.

Lemma listing_requests_none t :
  forallb not_listing t = true -> listing_requests t = [].
Proof.
  induction t as [|e t IH]; [reflexivity|]. cbn [forallb]. intros H.
  apply andb_true_iff in H as [He Ht]. unfold not_listing in He.
  destruct e as [rq rp| | |]; cbn [listing_requests]; try exact (IH Ht).
  destruct (is_listing (EvGet rq rp)); [discriminate|exact (IH Ht)].
Qed.

(** The trace of a sequence starts with the trace of its first part; the
    rest comes from the second part. *)
Lemma bind_trace_split {A B} (m : M E A) (f : A -> M E B) (s : env_state E) :
  exists t2,
    trace_of (bind m f s) = trace_of (m s) ++ t2
    /\ (forall P, (forall a, quiet P (f a)) -> forallb P t2 = true)
    /\ (forall a, result_of (m s) = Ok a -> t2 = trace_of (f a (state_of (m s)))).
Proof.
  unfold bind. destruct (m s) as [[[a|e] s1] t1].
  - exists (trace_of (f a s1)). destruct (f a s1) as [[r s2] t2] eqn:Hf.
    cbn [result_of state_of trace_of fst snd]. split; [reflexivity|]. split.
    + intros P HP. specialize (HP a s1). rewrite Hf in HP. exact HP.
    + intros a' [= <-]. rewrite Hf. reflexivity.
  - exists []. cbn [result_of state_of trace_of fst snd].
    rewrite app_nil_r. split; [reflexivity|]. split; [reflexivity|].
    intros a H. discriminate.
Qed.

Lemma try_except_trace_split {A} (body : M E A) handler (s : env_state E) :
  exists t2,
    trace_of (try_except body handler s) = trace_of (body s) ++ t2
    /\ (forall P, (forall e, quiet P (handler e)) -> forallb P t2 = true).
Proof.
  unfold try_except. destruct (body s) as [[[a|e] s1] t1].
  - exists []. cbn [trace_of snd]. rewrite app_nil_r. split; reflexivity.
  - exists (trace_of (handler e s1)). destruct (handler e s1) as [[r s2] t2] eqn:Hh.
    cbn [trace_of snd]. split; [reflexivity|].
    intros P HP. specialize (HP e s1). rewrite Hh in HP. exact HP.
Qed.

Lemma listing_requests_bind {A B} (m : M E A) (f : A -> M E B) (s : env_state E) :
  (forall a, quiet not_listing (f a)) ->
  listing_requests (trace_of (bind m f s)) = listing_requests (trace_of (m s)).
Proof.
  intros Hf. destruct (bind_trace_split m f s) as (t2 & -> & Hq & _).
  rewrite listing_requests_app, (listing_requests_none t2 (Hq _ Hf)).
  apply app_nil_r.
Qed.

Lemma listing_requests_try {A} (body : M E A) handler (s : env_state E) :
  (forall e, quiet not_listing (handler e)) ->
  listing_requests (trace_of (try_except body handler s))
  = listing_requests (trace_of (body s)).
Proof.
  intros Hh. destruct (try_except_trace_split body handler s) as (t2 & -> & Hq).
  rewrite listing_requests_app, (listing_requests_none t2 (Hq _ Hh)).
  apply app_nil_r.
Qed.

(** A request followed by steps that ask nothing more. *)
Lemma listing_requests_get {B} u t (k : Response -> M E B) (s : env_state E) :
  (forall r, quiet not_listing (k r)) ->
  listing_requests (trace_of (bind (requests_get (get u t)) k s)) = [get u t].
Proof.
  intros Hk. rewrite bind_get_trace.
  destruct (requests_get_io E (get u t) s) as [[r|e] s1]; [|reflexivity].
  cbn. rewrite (listing_requests_none _ (Hk r s1)). reflexivity.
Qed.

Ltac asks_nothing :=
  repeat first
    [ apply quiet_ret | apply quiet_raise | apply quiet_lift
    | apply quiet_raise_for_status
    | apply quiet_print; reflexivity
    | apply quiet_try_except | apply quiet_bind | intro ].

Lemma try_collect_requests {A} u t (k : Response -> M E (list A)) body handler acc
    (s : env_state E) :
  (forall r, quiet not_listing (k r)) ->
  (forall e, quiet not_listing (handler e)) ->
  listing_requests
    (trace_of (try_collect (resp <- requests_get (get u t);; k resp) body handler
                 acc s))
  = [get u t].
Proof.
  intros Hk Hh. unfold try_collect.
  rewrite listing_requests_bind.
  - rewrite listing_requests_try by (intros e; asks_nothing; apply Hh).
    rewrite listing_requests_bind by (intros a; apply quiet_ret).
    apply listing_requests_get, Hk.
  - intros [items|]; [|apply quiet_ret].
    destruct (for_append body items acc) as [acc' [u0|e]]; [apply quiet_ret|].
    apply quiet_bind; [apply Hh|intros; apply quiet_ret].
Qed.

(** A loop whose turns never raise asks what each turn asks, in order. *)
Lemma for_each_requests {A B} (f : A -> B -> M E B) (g : A -> list Request)
    items acc (s : env_state E) :
  (forall x b, never_raises (f x b)) ->
  (forall x b s0, listing_requests (trace_of (f x b s0)) = g x) ->
  listing_requests (trace_of (for_each f items acc s)) = concat (map g items).
Proof.
  intros Hn Hg. revert acc s. induction items as [|x xs IH]; intros acc s.
  - reflexivity.
  - cbn [for_each map concat].
    destruct (bind_trace_split (f x acc) (fun acc' => for_each f xs acc') s)
      as (t2 & -> & _ & Ht2).
    destruct (Hn x acc s) as [b Hb]. rewrite (Ht2 b Hb).
    rewrite listing_requests_app, Hg, IH. reflexivity.
Qed.

Lemma freeproxy_world_requests (s : env_state E) :
  listing_requests (trace_of (get_jp_proxies_from_freeproxy_world s))
  = [freeproxy_world_request].
Proof.
  unfold get_jp_proxies_from_freeproxy_world.
  rewrite listing_requests_bind.
  - rewrite listing_requests_try by asks_nothing.
    apply listing_requests_get. asks_nothing.
  - intros [response|]; [|apply quiet_ret].
    destruct (layui_table (soup response)) as [[rows|]|]; [|asks_nothing..].
    destruct (for_append freeproxy_row rows []) as [proxies [u|e]]; asks_nothing.
Qed.

Lemma proxyscrape_requests (s : env_state E) :
  listing_requests (trace_of (get_jp_proxies_from_proxyscrape s))
  = listing_plan ProxyScrape.
Proof.
  unfold get_jp_proxies_from_proxyscrape.
  rewrite listing_requests_bind by asks_nothing.
  rewrite (for_each_requests _ (fun proto => [proxyscrape_request (fst proto)])).
  - reflexivity.
  - intros [pp pt] b. unfold proxyscrape_protocol.
    apply never_raises_try_collect. intros e. apply never_raises_print.
  - intros [pp pt] b s0. unfold proxyscrape_protocol.
    apply try_collect_requests; asks_nothing.
Qed.

Lemma proxyscan_requests (s : env_state E) :
  listing_requests (trace_of (get_jp_proxies_from_proxyscan s))
  = listing_plan Proxyscan.
Proof.
  unfold get_jp_proxies_from_proxyscan.
  rewrite listing_requests_bind by asks_nothing.
  apply try_collect_requests; asks_nothing.
Qed.

Lemma pubproxy_requests (s : env_state E) :
  listing_requests (trace_of (get_jp_proxies_from_pubproxy s))
  = listing_plan PubProxy.
Proof.
  unfold get_jp_proxies_from_pubproxy.
  rewrite listing_requests_bind by asks_nothing.
  rewrite (for_each_requests _ (fun tier => [pubproxy_request (fst (fst tier))])).
  - reflexivity.
  - intros [[q lb] pt] b. unfold pubproxy_tier.
    apply never_raises_try_collect. intros e. apply never_raises_print.
  - intros [[q lb] pt] b s0. unfold pubproxy_tier.
    apply try_collect_requests; asks_nothing.
Qed.

Lemma concat_singletons {A} (x : A) n : concat (repeat [x] n) = repeat x n.
Proof. induction n as [|n IH]; [reflexivity|]. cbn. rewrite IH. reflexivity. Qed.

Lemma map_const_seq {A} (x : A) a n : map (fun _ : nat => x) (seq a n) = repeat x n.
Proof.
  revert a. induction n as [|n IH]; intros a; [reflexivity|].
  cbn. rewrite IH. reflexivity.
Qed.

Lemma getproxylist_requests n (s : env_state E) :
  listing_requests (trace_of (get_jp_proxies_from_getproxylist n s))
  = repeat getproxylist_get n.
Proof.
  unfold get_jp_proxies_from_getproxylist.
  rewrite listing_requests_bind by asks_nothing.
  rewrite (for_each_requests _ (fun _ => [getproxylist_get])).
  - rewrite map_const_seq. apply concat_singletons.
  - intros k b. unfold getproxylist_request.
    apply never_raises_try_collect. intros e. apply never_raises_print.
  - intros k b s0. unfold getproxylist_request.
    apply try_collect_requests; asks_nothing.
Qed.

Lemma source_requests src (s : env_state E) :
  listing_requests (trace_of (list_candidates src s)) = listing_plan src.
Proof.
  destruct src; cbn [list_candidates].
  - apply freeproxy_world_requests.
  - apply proxyscrape_requests.
  - apply proxyscan_requests.
  - apply pubproxy_requests.
  - apply getproxylist_requests.
Qed.

End RequestFacts.

(** ** The order in which [main] asks the sources *)

Section OrderFacts.
Context {E : Env}.

Ltac silent :=
  repeat first
    [ apply quiet_ret | apply quiet_raise | apply quiet_lift
    | apply quiet_raise_for_status
    | apply quiet_print; reflexivity
    | apply quiet_get; intros; reflexivity
    | apply quiet_put; intros; reflexivity
    | apply quiet_try_except | apply quiet_bind
    | match goal with
      | |- quiet _ (if ?b then _ else _) => destruct b
      | |- forall _, _ => intro
      end ].

Lemma fetch_asks_no_listing url p :
  quiet (E:=E) not_listing (fetch_rss_with_proxy url p).
Proof. unfold fetch_rss_with_proxy. cbv zeta. silent. Qed.

Lemma try_all_asks_no_listing url l :
  quiet (E:=E) not_listing (try_all_proxies_once url l).
Proof.
  induction l as [|p l IH]; cbn [try_all_proxies_once]; [apply quiet_ret|].
  apply quiet_bind; [apply fetch_asks_no_listing|].
  intros r. destruct (truthy_content r); [apply quiet_ret|exact IH].
Qed.

Lemma shuffle_asks_no_listing l : quiet (E:=E) not_listing (random_shuffle l).
Proof.
  intros s. destruct (random_shuffle_run l s) as (l' & s' & -> & _). reflexivity.
Qed.

Lemma rounds_ask_no_listing url attempts remaining l :
  quiet (E:=E) not_listing (attempt_rounds url attempts remaining l).
Proof.
  revert l. induction remaining as [|k IH]; intros l; cbn [attempt_rounds].
  - apply quiet_ret.
  - cbv zeta. apply quiet_bind; [apply quiet_print; reflexivity|]. intros _.
    apply quiet_bind; [apply shuffle_asks_no_listing|]. intros l1.
    apply quiet_bind; [apply try_all_asks_no_listing|]. intros r.
    destruct (truthy_content r); [apply quiet_ret|apply IH].
Qed.

Lemma publisher_asks_no_listing c :
  quiet (E:=E) not_listing (update_github_rss_feed c).
Proof.
  intros s. destruct (publisher_run c s) as (rp & t & -> & Ht).
  cbn [forallb]. apply andb_true_iff. split; [reflexivity|].
  revert Ht. apply forallb_weaken. intros [| | |]; intros; try reflexivity.
  discriminate.
Qed.

(** A block asks the providers what its listing function asks. *)
Lemma block_requests lister banner n ok no (s : env_state E) :
  listing_requests (trace_of (source_block lister banner n ok no s))
  = listing_requests (trace_of (lister s)).
Proof.
  unfold source_block. apply listing_requests_bind.
  intros [|p l].
  - silent.
  - apply quiet_bind.
    { apply quiet_for_each. intros line u. apply quiet_print. reflexivity. }
    intros _. apply quiet_bind; [apply rounds_ask_no_listing|].
    intros [[c|] l']; cbn [fst]; [|apply quiet_ret].
    destruct (PyStr.nonempty c); [|apply quiet_ret].
    apply quiet_bind; [apply quiet_print; reflexivity|]. intros _.
    apply quiet_bind; [apply publisher_asks_no_listing|]. intros _.
    apply quiet_ret.
Qed.

Lemma list_candidates_quiet src : quiet (E:=E) listing_event (list_candidates src).
Proof.
  destruct src; cbn [list_candidates].
  - apply freeproxy_world_quiet.
  - apply proxyscrape_quiet.
  - apply proxyscan_quiet.
  - apply pubproxy_quiet.
  - apply getproxylist_quiet.
Qed.

Lemma before_success_no_success t :
  forallb before_success t = true -> existsb is_success t = false.
Proof.
  induction t as [|e t IH]; [reflexivity|]. cbn [forallb existsb]. intros H.
  apply andb_true_iff in H as [He Ht]. rewrite (IH Ht).
  unfold before_success in He. destruct (is_success e); [discriminate|reflexivity].
Qed.

Lemma done_trace_success t c : done_trace (E:=E) t c -> existsb is_success t = true.
Proof.
  intros (t0 & e & msg & s & -> & _ & He).
  rewrite existsb_app. cbn [existsb]. unfold is_success. rewrite He.
  rewrite orb_true_r. reflexivity.
Qed.

(** One step of [main]: the block stopped the run, or the run went on with
    the rest from the state the block left. *)
Lemma stage_requests r rest (s : env_state E) :
  let x := stage (row_announce r) (row_block r) rest s in
  (listing_requests (trace_of x) = listing_plan (row_source r) /\ stopped x)
  \/ (exists s',
        listing_requests (trace_of x)
        = listing_plan (row_source r) ++ listing_requests (trace_of (rest s'))
        /\ result_of x = result_of (rest s')
        /\ existsb is_success (trace_of x)
           = existsb is_success (trace_of (rest s'))).
Proof.
  intros x.
  assert (Hx : x = stage (row_announce r) (row_block r) rest s) by reflexivity.
  clearbody x. unfold stage in Hx. unfold bind at 1, print, emit in Hx.
  unfold bind at 1 in Hx.
  pose proof (block_requests (list_candidates (row_source r)) (row_banner r)
                (row_attempts r) (row_success r) (row_no_proxies r) s) as Hreq.
  rewrite source_requests in Hreq.
  pose proof (source_block_shape (list_candidates (row_source r)) (row_banner r)
                (row_attempts r) (row_success r) (row_no_proxies r) s
                (list_candidates_quiet _)) as Hb.
  cbv zeta in Hb. fold (row_block (E:=E) r) in Hreq, Hb.
  destruct (row_block r s) as [[rb sb] tb].
  cbn [result_of trace_of fst snd] in Hb, Hreq.
  destruct Hb as [(e & -> & _ & _)|[[-> Hbs]|(c & Hd & Hne)]].
  - left. subst x. cbn [result_of trace_of fst snd app listing_requests].
    split; [exact Hreq|]. left. exists e. reflexivity.
  - right. exists sb. subst x.
    destruct (rest sb) as [[rr sr] tr].
    cbn [result_of trace_of fst snd app listing_requests existsb is_success
         fetch_success orb].
    rewrite listing_requests_app, Hreq, existsb_app.
    rewrite (before_success_no_success _ Hbs). repeat split; reflexivity.
  - left. apply done_trace_success in Hd.
    destruct rb as [[|]|e].
    + subst x. unfold ret.
      cbn [result_of trace_of fst snd app listing_requests existsb is_success
           fetch_success orb].
      rewrite app_nil_r. split; [exact Hreq|]. right. exact Hd.
    + contradiction Hne. reflexivity.
    + subst x. cbn [result_of trace_of fst snd app listing_requests].
      split; [exact Hreq|]. left. exists e. reflexivity.
Qed.

Lemma run_rows_requests final r rows (s : env_state E) :
  (forall s', listing_requests (trace_of (final s')) = []) ->
  let x := run_rows (r :: rows) final s in
  exists k,
    1 <= k <= S (length rows)
    /\ listing_requests (trace_of x)
       = concat (map listing_plan (firstn k (map row_source (r :: rows))))
    /\ (k = S (length rows) \/ stopped x).
Proof.
  intros Hfinal. revert r s. induction rows as [|r2 rows IH]; intros r s x.
  - subst x. cbn [run_rows].
    destruct (stage_requests r final s) as [[Hreq Hstop]|(s' & Hreq & _ & _)].
    + exists 1. split; [cbn; lia|]. split; [|left; reflexivity].
      rewrite Hreq. cbn. rewrite app_nil_r. reflexivity.
    + exists 1. split; [cbn; lia|]. split; [|left; reflexivity].
      rewrite Hreq, Hfinal. cbn. reflexivity.
  - subst x.
    change (run_rows (r :: r2 :: rows) final s)
      with (stage (row_announce r) (row_block r) (run_rows (r2 :: rows) final) s).
    destruct (stage_requests r (run_rows (r2 :: rows) final) s)
      as [[Hreq Hstop]|(s' & Hreq & Hres & Hsucc)].
    + exists 1. split; [cbn [length]; lia|]. split; [|right; exact Hstop].
      rewrite Hreq. cbn. rewrite app_nil_r. reflexivity.
    + destruct (IH r2 s') as (k & Hk & Hplan & Hend).
      exists (S k). split; [cbn [length] in *; lia|]. split.
      * rewrite Hreq, Hplan. reflexivity.
      * destruct Hend as [->|Hstop]; [left; reflexivity|right].
        unfold stopped in *. rewrite Hres, Hsucc. exact Hstop.
Qed.

Lemma main_rows_eq :
  main (E:=E)
  = run_rows main_rows
      (print [Txt (nl +:+ "FAILED to fetch a valid RSS feed after all attempts.")]).
Proof. reflexivity. Qed.

End OrderFacts.

(** ** The fetcher and the rounds *)

(** X1: [fetch_rss_with_proxy] never raises.  It prints its [Trying]
    line first and makes exactly one request, the one through the proxy
    it was given; whatever else is in its trace is printed text.  When
    that request raises, or gets a status that [raise_for_status]
    rejects, the function returns [None] and the exception is printed in
    the [Failed with] line. *)
Theorem fetch_contains_failures (E : Env) (url : string) (p : ProxyDict)
    (s : env_state E) :
  exists r,
    result_of (fetch_rss_with_proxy url p s) = Ok r
    /\ hd_error (trace_of (fetch_rss_with_proxy url p s)) = Some (trying_line p)
    /\ List.filter (fun e => negb (is_print e))
         (trace_of (fetch_rss_with_proxy url p s))
       = [EvGet (proxy_request url p) (reply_to url p s)]
    /\ (forall e, reply_to url p s = Raise e ->
          r = None
          /\ In (failed_with_line p e) (trace_of (fetch_rss_with_proxy url p s)))
    /\ (forall r0, reply_to url p s = Ok r0 -> status_passes r0 = false ->
          r = None
          /\ In (failed_with_line p (HTTPError (status_code r0)))
               (trace_of (fetch_rss_with_proxy url p s))).
Proof.
  unfold reply_to. rewrite fetch_run.
  destruct (requests_get_io E (proxy_request url p) s) as [[r0|e] s'];
    cbn [fst].
  - destruct (status_passes r0) eqn:Hst; [destruct (has_marker (text r0))|].
    + exists (Some (text r0)). split; [reflexivity|]. split; [reflexivity|].
      split; [reflexivity|]. split; [discriminate|].
      intros r1 [= <-] H. congruence.
    + exists None. split; [reflexivity|]. split; [reflexivity|].
      split; [reflexivity|]. split; [discriminate|].
      intros r1 [= <-] H. congruence.
    + exists None. split; [reflexivity|]. split; [reflexivity|].
      split; [reflexivity|]. split; [discriminate|].
      intros r1 [= <-] _. split; [reflexivity|]. cbn. auto.
  - exists None. split; [reflexivity|]. split; [reflexivity|].
    split; [reflexivity|]. split; [|discriminate].
    intros e' [= <-]. split; [reflexivity|]. cbn. auto.
Qed.

(** X2: one pass of [try_all_proxies_once] never raises and asks the
    proxies in the order of the list, each at most once: its requests are
    those of the first [k] proxies.  A pass that returns [None] has asked
    every proxy of the list; a pass that returns content has asked at
    least one, and that content is non-empty and holds the marker. *)
Theorem pass_asks_in_list_order (E : Env) (url : string) (l : list ProxyDict)
    (s : env_state E) :
  exists k r,
    k <= length l
    /\ result_of (try_all_proxies_once url l s) = Ok r
    /\ fetch_requests (trace_of (try_all_proxies_once url l s))
       = map (proxy_request url) (firstn k l)
    /\ (r = None -> k = length l)
    /\ (forall c, r = Some c ->
          1 <= k /\ has_marker c = true /\ PyStr.nonempty c = true).
Proof.
  destruct (try_all_pass url l s) as (k & Hk & Hreq & _ & Hnone & Hsome).
  destruct (try_all_proxies_once_shape url l s) as (r & Hr & Ht & Hcase).
  exists k, r. split; [exact Hk|]. split; [exact Hr|]. split; [exact Hreq|].
  split.
  - intros ->. apply Hnone, Hr.
  - intros c ->. split; [apply (Hsome c), Hr|].
    destruct Ht as [Ht|Ht]; [discriminate|]. split; [|exact Ht].
    destruct Hcase as [[[Hn _] _]|(c' & Hc & Hm & _)]; [discriminate|].
    injection Hc as <-. exact Hm.
Qed.

(** X3: [try_proxies_multiple_attempts] stays within its budget: at most
    [attempts] shuffles and at most [attempts * len(proxies_list)] fetch
    requests, and no request to a provider of lists.  When it returns
    without content it has used the whole budget: exactly [attempts]
    shuffles and [attempts * len(proxies_list)] fetch requests. *)
Theorem rounds_within_budget (E : Env) (url : string) (l : list ProxyDict)
    (attempts : nat) (s : env_state E) :
  count is_shuffle (trace_of (try_proxies_multiple_attempts url l attempts s))
  <= attempts
  /\ count is_fetch (trace_of (try_proxies_multiple_attempts url l attempts s))
     <= attempts * length l
  /\ listing_requests (trace_of (try_proxies_multiple_attempts url l attempts s))
     = []
  /\ (forall l',
        result_of (try_proxies_multiple_attempts url l attempts s) = Ok (None, l') ->
        count is_shuffle
          (trace_of (try_proxies_multiple_attempts url l attempts s)) = attempts
        /\ count is_fetch
             (trace_of (try_proxies_multiple_attempts url l attempts s))
           = attempts * length l).
Proof.
  unfold try_proxies_multiple_attempts.
  destruct (attempt_rounds_budget url attempts attempts l s) as (Hs & Hf & Hn).
  split; [exact Hs|]. split; [exact Hf|]. split; [|exact Hn].
  apply listing_requests_none, rounds_ask_no_listing.
Qed.

(** X4: [try_proxies_multiple_attempts] never raises, and the content it
    returns is the body of a fetch of this very call that was accepted:
    it returns [Some c] exactly when its trace holds a successful fetch
    event with body [c].  There is at most one such event, it is the last
    event of the trace, and the content holds the marker and is not the
    empty string. *)
Theorem rounds_return_fetched_content (E : Env) (url : string)
    (l : list ProxyDict) (attempts : nat) (s : env_state E) :
  exists r l',
    result_of (try_proxies_multiple_attempts url l attempts s) = Ok (r, l')
    /\ (forall c,
          r = Some c
          <-> exists e,
                In e (trace_of (try_proxies_multiple_attempts url l attempts s))
                /\ fetch_success e = Some c)
    /\ count is_success (trace_of (try_proxies_multiple_attempts url l attempts s))
       = match r with Some _ => 1 | None => 0 end
    /\ (forall c, r = Some c ->
          has_marker c = true /\ PyStr.nonempty c = true
          /\ exists t0 e,
               trace_of (try_proxies_multiple_attempts url l attempts s)
               = t0 ++ [e]
               /\ fetch_success e = Some c).
Proof.
  unfold try_proxies_multiple_attempts.
  destruct (attempt_rounds_shape url attempts attempts l s)
    as (r & l' & Hr & _ & Ht & Hcase).
  exists r, l'. split; [exact Hr|].
  destruct Hcase as [[-> Hb]|(c & -> & Hm & t0 & e & Htr & Hb & He)].
  - pose proof (before_success_not_success _ Hb) as Hns.
    split; [|split].
    + intros c. split; [discriminate|]. intros (e & Hin & He).
      rewrite forallb_forall in Hns. specialize (Hns e Hin).
      rewrite (success_is_success e c He) in Hns. discriminate.
    + apply count_none, Hns.
    + intros c H. discriminate.
  - pose proof (before_success_not_success _ Hb) as Hns.
    split; [|split].
    + intros c'. split.
      * intros [= <-]. exists e. split; [|exact He].
        rewrite Htr. apply in_or_app. right. left. reflexivity.
      * intros (e' & Hin & He'). rewrite Htr in Hin.
        apply in_app_or in Hin as [Hin|[<-|[]]].
        -- rewrite forallb_forall in Hns. specialize (Hns e' Hin).
           rewrite (success_is_success e' c' He') in Hns. discriminate.
        -- congruence.
    + rewrite Htr, count_app, (count_none _ _ Hns). cbn.
      rewrite (success_is_success e c He). reflexivity.
    + intros c' [= <-]. split; [exact Hm|].
      destruct Ht as [Ht|Ht]; [discriminate|]. split; [exact Ht|].
      exists t0, e. split; [exact Htr|exact He].
Qed.

(** ** The requests to the providers *)

(** X5: whatever the providers answer, each listing function sends the
    same requests in the same order: one page request for
    freeproxy.world, the three ProxyScrape protocol queries, one
    Proxyscan.io query, the three PubProxy queries, and ten identical
    GetProxyList queries ([num_requests] of them in general).  An error in
    one query does not stop the later ones. *)
Theorem sources_ask_fixed_requests (E : Env) (s : env_state E) :
  (forall src,
     listing_requests (trace_of (list_candidates src s)) = listing_plan src)
  /\ (forall n,
        listing_requests (trace_of (get_jp_proxies_from_getproxylist n s))
        = repeat getproxylist_get n).
Proof.
  split; [intros src; apply source_requests|intros n; apply getproxylist_requests].
Qed.

(** X6: [main] asks the sources in one fixed order, freeproxy.world,
    ProxyScrape, Proxyscan.io, PubProxy, GetProxyList, each completely
    before the next and none twice: the listing requests of a run are
    those of the first [k] sources, at most 18 in all.  The run asks
    fewer than five sources only when a fetch attempt succeeded or the
    run raised. *)
Theorem main_asks_sources_in_order (E : Env) (s : env_state E) :
  exists k,
    1 <= k <= 5
    /\ listing_requests (trace_of (main s))
       = concat (map listing_plan (firstn k source_order))
    /\ count is_listing (trace_of (main s)) <= 18
    /\ (k = 5 \/ stopped (main s)).
Proof.
  rewrite main_rows_eq.
  destruct (run_rows_requests
              (print [Txt (nl +:+ "FAILED to fetch a valid RSS feed after all attempts.")])
              (hd {| row_announce := []; row_source := FreeproxyWorld;
                     row_banner := []; row_attempts := 0; row_success := "";
                     row_no_proxies := "" |} main_rows)
              (tl main_rows) s)
    as (k & Hk & Hplan & Hend); [reflexivity|].
  cbn [hd tl main_rows length] in Hk, Hplan, Hend.
  exists k. split; [exact Hk|]. split; [exact Hplan|]. split; [|exact Hend].
  rewrite count_listing_requests. unfold main_rows. rewrite Hplan.
  destruct Hk as [Hk1 Hk5].
  destruct k as [|[|[|[|[|[|k]]]]]]; try lia; vm_compute; lia.
Qed.

(** ** Strings *)

Lemma split_char_length c s :
  length (PyStr.split_char c s) = S (count_char c s).
Proof.
  induction s as [|a s IH]; [reflexivity|]. cbn [PyStr.split_char count_char].
  destruct (Ascii.eqb a c).
  - cbn [length]. rewrite IH. reflexivity.
  - destruct (PyStr.split_char c s) as [|w ws]; [discriminate|].
    cbn [length] in *. exact IH.
Qed.

Lemma split_char_one c s b : PyStr.split_char c s = [b] -> s = b.
Proof.
  revert b. induction s as [|a s IH]; intros b; cbn [PyStr.split_char].
  - intros [= <-]. reflexivity.
  - pose proof (split_char_length c s) as Hlen.
    destruct (Ascii.eqb a c).
    + intros [= _ H]. rewrite H in Hlen. discriminate.
    + destruct (PyStr.split_char c s) as [|w ws]; [discriminate|].
      intros [= <- ->]. rewrite (IH w eq_refl). reflexivity.
Qed.

Lemma split_char_two c s a b :
  PyStr.split_char c s = [a; b] -> s = a +:+ String c b.
Proof.
  revert a. induction s as [|x s IH]; intros a; cbn [PyStr.split_char].
  - discriminate.
  - destruct (Ascii.eqb x c) eqn:Hx.
    + intros [= <- H]. apply Ascii.eqb_eq in Hx as ->.
      rewrite (split_char_one _ _ _ H). reflexivity.
    + destruct (PyStr.split_char c s) as [|w ws]; [discriminate|].
      intros [= <- ->]. rewrite (IH w eq_refl). reflexivity.
Qed.

Lemma contains_char c s :
  PyStr.contains (String c EmptyString) s = negb (count_char c s =? 0).
Proof.
  induction s as [|a s IH]; [reflexivity|].
  cbn [PyStr.contains PyStr.startswith count_char]. rewrite IH.
  rewrite (Ascii.eqb_sym c a). destruct (Ascii.eqb a c); [reflexivity|].
  reflexivity.
Qed.

Lemma rstrip_idem s : PyStr.rstrip (PyStr.rstrip s) = PyStr.rstrip s.
Proof.
  induction s as [|c s IH]; [reflexivity|]. cbn [PyStr.rstrip].
  destruct (PyStr.rstrip s) as [|d r] eqn:Hr.
  - destruct (PyStr.isspace c) eqn:Hc; [reflexivity|].
    cbn [PyStr.rstrip]. rewrite Hc. reflexivity.
  - change (PyStr.rstrip (String c (String d r)))
      with (match PyStr.rstrip (String d r) with
            | EmptyString =>
                if PyStr.isspace c then EmptyString else String c EmptyString
            | String x y => String c (String x y)
            end).
    rewrite IH. reflexivity.
Qed.

Lemma lstrip_head s :
  PyStr.lstrip s = EmptyString
  \/ exists c r, PyStr.lstrip s = String c r /\ PyStr.isspace c = false.
Proof.
  induction s as [|c s IH]; [left; reflexivity|]. cbn [PyStr.lstrip].
  destruct (PyStr.isspace c) eqn:Hc; [exact IH|].
  right. exists c, s. split; [reflexivity|exact Hc].
Qed.

Lemma rstrip_head c r :
  PyStr.isspace c = false -> exists r', PyStr.rstrip (String c r) = String c r'.
Proof.
  intros Hc. cbn [PyStr.rstrip]. destruct (PyStr.rstrip r) as [|d r'].
  - rewrite Hc. exists EmptyString. reflexivity.
  - exists (String d r'). reflexivity.
Qed.

(** [s.strip().strip() == s.strip()] *)
Lemma strip_idem s : PyStr.strip (PyStr.strip s) = PyStr.strip s.
Proof.
  unfold PyStr.strip. destruct (lstrip_head s) as [->|(c & r & -> & Hc)].
  - reflexivity.
  - destruct (rstrip_head c r Hc) as [r' Hr]. rewrite Hr.
    cbn [PyStr.lstrip]. rewrite Hc, <- Hr. apply rstrip_idem.
Qed.

Lemma lower_nonempty s : PyStr.nonempty (PyStr.lower s) = PyStr.nonempty s.
Proof. destruct s; reflexivity. Qed.

Lemma count_char_nonempty c s : count_char c s <> 0 -> PyStr.nonempty s = true.
Proof. destruct s; [intros H; contradiction H; reflexivity|reflexivity]. Qed.

(** [a, b = s.split(":")] by the number of colons of [s]. *)
Lemma unpack_split s :
  match count_char ":" s with
  | 1 => exists a b, s = a +:+ ":" +:+ b
                     /\ unpack2 (PyStr.split_char ":" s) = Ok (a, b)
  | _ => unpack2 (PyStr.split_char ":" s) = Raise ValueError
  end.
Proof.
  pose proof (split_char_length ":" s) as Hlen.
  destruct (count_char ":" s) as [|[|n]].
  - destruct (PyStr.split_char ":" s) as [|a [|b l]]; try discriminate.
    reflexivity.
  - destruct (PyStr.split_char ":" s) as [|a [|b [|c l]]] eqn:Hs;
      try discriminate.
    exists a, b. split; [|reflexivity]. apply split_char_two, Hs.
  - destruct (PyStr.split_char ":" s) as [|a [|b [|c l]]]; try discriminate.
    reflexivity.
Qed.

(** ** The parsers of the provider replies *)

Section ParserFacts.
Context {E : Env}.

Lemma for_append_kept {A} (body : A -> res (option ProxyDict)) items acc :
  fst (for_append body items acc) = acc ++ kept body items.
Proof.
  revert acc. induction items as [|x xs IH]; intros acc; cbn [for_append kept].
  - rewrite app_nil_r. reflexivity.
  - destruct (body x) as [[p|]|e].
    + rewrite IH, <- app_assoc. reflexivity.
    + apply IH.
    + rewrite app_nil_r. reflexivity.
Qed.

(** A [try] block whose request and parsing went through leaves the
    records of the items up to the first that raises. *)
Lemma try_collect_kept {A} (prelude : M E (list A)) body handler acc
    (s : env_state E) items :
  result_of (prelude s) = Ok items ->
  (forall e, never_raises (handler e)) ->
  result_of (try_collect prelude body handler acc s) = Ok (acc ++ kept body items).
Proof.
  intros Hp Hh. unfold try_collect, bind, try_except, ret.
  destruct (prelude s) as [[r s1] t1]. cbn [result_of fst] in Hp. subst r.
  pose proof (for_append_kept body items acc) as Hk.
  destruct (for_append body items acc) as [acc' [u|e]]; cbn [fst] in Hk; subst acc'.
  - reflexivity.
  - destruct (Hh e s1) as [u Hu].
    destruct (handler e s1) as [[r s2] t2]. cbn [result_of fst] in Hu. subst r.
    reflexivity.
Qed.

Lemma kept_stops {A} (body : A -> res (option ProxyDict)) good bad rest e :
  Forall (fun x => exists o, body x = Ok o) good -> body bad = Raise e ->
  kept body (good ++ bad :: rest) = kept body good.
Proof.
  intros Hgood Hbad. induction Hgood as [|x xs [o Hx] _ IH].
  - cbn [app kept]. rewrite Hbad. reflexivity.
  - cbn [app kept]. rewrite Hx, IH. reflexivity.
Qed.

Lemma proxyscan_result (s : env_state E) r items :
  fst (requests_get_io E proxyscan_request s) = Ok r ->
  status_passes r = true ->
  json r = Ok (PList items) ->
  result_of (get_jp_proxies_from_proxyscan s) = Ok (kept proxyscan_entry items).
Proof.
  intros Hget Hst Hjson. unfold get_jp_proxies_from_proxyscan.
  match goal with
  | |- context [try_collect ?pre ?body ?h ?acc] =>
      pose proof (try_collect_kept pre body h acc s items) as Hrun
  end.
  cbv zeta. fold proxyscan_request.
  fold proxyscan_request in Hrun.
  assert (Hpre : result_of
            ((resp <- requests_get proxyscan_request;;
              raise_for_status resp;;
              data <- lift (json resp);;
              lift (py_iter data)) s) = Ok items).
  { unfold bind, requests_get, raise_for_status.
    destruct (requests_get_io E proxyscan_request s) as [rp s1].
    cbn [fst] in Hget. subst rp. unfold status_passes in Hst.
    apply negb_true_iff in Hst. rewrite Hst. unfold ret, lift.
    rewrite Hjson. reflexivity. }
  specialize (Hrun Hpre (fun e => never_raises_print _)).
  unfold bind at 1.
  destruct (try_collect _ _ _ _ s) as [[rr s1] t1].
  cbn [result_of fst] in Hrun. subst rr. reflexivity.
Qed.

Lemma proxyscrape_line_stripped t line p :
  proxyscrape_line t line = Ok (Some p) -> stripped p.
Proof.
  unfold proxyscrape_line.
  destruct (negb _ || negb _); [discriminate|].
  destruct (unpack2 _) as [[a b]|e]; cbn; [|discriminate].
  intros [= <-]. split; apply strip_idem.
Qed.

Lemma proxyscan_entry_stripped entry p :
  proxyscan_entry entry = Ok (Some p) -> stripped p.
Proof.
  unfold proxyscan_entry, res_bind.
  destruct (dict_get entry "Ip" PNone) as [vi|]; [|discriminate].
  destruct (dict_get entry "Port" PNone) as [vp|]; [|discriminate].
  destruct (dict_get entry "Type" (PStr "")) as [vt|]; [|discriminate].
  destruct (str_lower vt) as [ptype|]; [|discriminate].
  destruct (truthy vi && truthy vp && PyStr.nonempty ptype); [|discriminate].
  destruct vi; try discriminate. destruct vp; try discriminate.
  cbn. intros [= <-]. split; apply strip_idem.
Qed.

Lemma pubproxy_item_stripped t item p :
  pubproxy_item t item = Ok (Some p) -> stripped p.
Proof.
  unfold pubproxy_item, res_bind.
  destruct (dict_get item "ipPort" (PStr "")) as [v|]; [|discriminate].
  destruct (truthy v); [|discriminate].
  destruct (str_split ":" v) as [parts|]; [|discriminate].
  destruct (unpack2 parts) as [[a b]|]; [|discriminate].
  intros [= <-]. split; apply strip_idem.
Qed.

Lemma getproxylist_proto_stripped x p :
  getproxylist_proto (E:=E) x = Ok (Some p) -> stripped p.
Proof.
  unfold getproxylist_proto, res_bind. destruct x as [[vi vp] proto].
  destruct (str_lower proto) as [t|]; [|discriminate].
  destruct (truthy vi && truthy vp && existsb _ _); [|discriminate].
  intros [= <-]. split; apply strip_idem.
Qed.

Lemma proxyscrape_stripped :
  emits (E:=E) stripped get_jp_proxies_from_proxyscrape.
Proof.
  unfold get_jp_proxies_from_proxyscrape.
  apply (emits_then_print _ _
           (fun l => [Txt ("[ProxyScrape] Total proxies found: " +:+ len_str l)])).
  apply emits_for_each; [constructor|].
  intros [pp pt] b Hb. unfold proxyscrape_protocol.
  apply emits_try_collect; [exact Hb|]. apply proxyscrape_line_stripped.
Qed.

Lemma proxyscan_stripped :
  emits (E:=E) stripped get_jp_proxies_from_proxyscan.
Proof.
  unfold get_jp_proxies_from_proxyscan.
  apply (emits_then_print _ _
           (fun l => [Txt ("[Proxyscan] Found " +:+ len_str l +:+ " proxies.")])).
  apply emits_try_collect; [constructor|]. apply proxyscan_entry_stripped.
Qed.

Lemma pubproxy_stripped :
  emits (E:=E) stripped get_jp_proxies_from_pubproxy.
Proof.
  unfold get_jp_proxies_from_pubproxy.
  apply (emits_then_print _ _
           (fun l => [Txt ("[PubProxy] Found " +:+ len_str l +:+ " proxies.")])).
  apply emits_for_each; [constructor|].
  intros [[q lb] pt] b Hb. unfold pubproxy_tier.
  apply emits_try_collect; [exact Hb|]. apply pubproxy_item_stripped.
Qed.

Lemma getproxylist_stripped n :
  emits (E:=E) stripped (get_jp_proxies_from_getproxylist n).
Proof.
  unfold get_jp_proxies_from_getproxylist.
  apply (emits_then_print _ _
           (fun l => [Txt ("[GetProxyList] Gathered " +:+ len_str l
                           +:+ " proxies from " +:+ PyStr.of_Z (Z.of_nat n)
                           +:+ " requests.")])).
  apply emits_for_each; [constructor|].
  intros k b Hb. unfold getproxylist_request.
  apply emits_try_collect; [exact Hb|]. apply getproxylist_proto_stripped.
Qed.

Lemma returns_stripped (m : M E (list ProxyDict)) (s : env_state E) :
  never_raises m -> emits stripped m ->
  exists l, result_of (m s) = Ok l /\ Forall stripped l.
Proof.
  intros Hn He. destruct (Hn s) as [l Hl]. exists l. split; [exact Hl|].
  apply (He s l Hl).
Qed.

End ParserFacts.

(** X7: a line of a ProxyScrape reply, by the number of colons it holds
    once stripped: a line without a colon (an empty line included) is
    skipped; a line with one colon gives the record of its two halves,
    stripped, under the protocol of the query; a line with two colons or
    more raises [ValueError] from the unpacking of [line.split(":")],
    which ends the lines of this query. *)
Theorem proxyscrape_line_by_colons (t line : string) :
  match count_char ":" (PyStr.strip line) with
  | 0 => proxyscrape_line t line = Ok None
  | 1 =>
      exists a b,
        PyStr.strip line = a +:+ ":" +:+ b
        /\ proxyscrape_line t line
           = Ok (Some {| ip := PyStr.strip a; port := PyStr.strip b; type := t |})
  | _ => proxyscrape_line t line = Raise ValueError
  end.
Proof.
  unfold proxyscrape_line. cbv zeta.
  change (PyStr.contains ":" (PyStr.strip line))
    with (PyStr.contains (String ":" EmptyString) (PyStr.strip line)).
  rewrite contains_char.
  pose proof (unpack_split (PyStr.strip line)) as Hu.
  pose proof (count_char_nonempty ":" (PyStr.strip line)) as Hne.
  destruct (count_char ":" (PyStr.strip line)) as [|[|n]].
  - cbn [Nat.eqb negb]. rewrite orb_true_r. reflexivity.
  - rewrite Hne by discriminate. cbn [Nat.eqb negb orb].
    destruct Hu as (a & b & Hl & Hu). rewrite Hu. exists a, b.
    split; [exact Hl|reflexivity].
  - rewrite Hne by discriminate. cbn [Nat.eqb negb orb].
    rewrite Hu. reflexivity.
Qed.

(** X8: an item of a PubProxy reply, by its [ipPort] field: a missing or
    falsy field is skipped; a non-empty string with exactly one colon
    gives the record of its two halves, stripped; a non-empty string
    with no colon, or with more than one, raises [ValueError] (there is no
    [":" in] guard here, unlike ProxyScrape); any other truthy value
    raises [AttributeError]. *)
Theorem pubproxy_item_cases (t : string) (kv : list (string * pyval)) :
  match assoc_get "ipPort" kv with
  | None => pubproxy_item t (PDict kv) = Ok None
  | Some (PStr s) =>
      if PyStr.nonempty s then
        match count_char ":" s with
        | 1 =>
            exists a b,
              s = a +:+ ":" +:+ b
              /\ pubproxy_item t (PDict kv)
                 = Ok (Some {| ip := PyStr.strip a; port := PyStr.strip b;
                               type := t |})
        | _ => pubproxy_item t (PDict kv) = Raise ValueError
        end
      else pubproxy_item t (PDict kv) = Ok None
  | Some v =>
      pubproxy_item t (PDict kv) = if truthy v then Raise AttributeError else Ok None
  end.
Proof.
  unfold pubproxy_item, dict_get, res_bind.
  destruct (assoc_get "ipPort" kv) as [[|b|n|s|l|d]|]; cbn [truthy str_split];
    try reflexivity;
    try (destruct l; reflexivity); try (destruct d; reflexivity).
  destruct (PyStr.nonempty s); [|reflexivity].
  pose proof (unpack_split s) as Hu.
  destruct (count_char ":" s) as [|[|n]].
  - rewrite Hu. reflexivity.
  - destruct Hu as (a & b & Hs & Hu). rewrite Hu. exists a, b.
    split; [exact Hs|reflexivity].
  - rewrite Hu. reflexivity.
Qed.

(** X9: [proxyscan_entry] gives a record exactly for a dict whose [Ip],
    [Port] and [Type] are three non-empty strings: the record holds the
    stripped address and port and the type in lower case, https taken as
    http.  A port given as a non-zero JSON number passes the truth test
    and then raises [AttributeError] at [port.strip()]. *)
Theorem proxyscan_entry_record (entry : pyval) (d : ProxyDict) :
  (proxyscan_entry entry = Ok (Some d)
   <-> exists kv i p t,
         entry = PDict kv
         /\ assoc_get "Ip" kv = Some (PStr i)
         /\ assoc_get "Port" kv = Some (PStr p)
         /\ assoc_get "Type" kv = Some (PStr t)
         /\ PyStr.nonempty i = true /\ PyStr.nonempty p = true
         /\ PyStr.nonempty t = true
         /\ d = {| ip := PyStr.strip i; port := PyStr.strip p;
                   type := scheme_of t |})
  /\ (forall kv i n t,
        assoc_get "Ip" kv = Some (PStr i) ->
        assoc_get "Port" kv = Some (PInt n) ->
        assoc_get "Type" kv = Some (PStr t) ->
        PyStr.nonempty i = true -> n <> 0%Z -> PyStr.nonempty t = true ->
        proxyscan_entry (PDict kv) = Raise AttributeError).
Proof.
  split; [split|].
  - intros H. destruct entry as [| | | | |kv]; try discriminate H.
    exists kv. unfold proxyscan_entry, dict_get, res_bind in H.
    destruct (assoc_get "Ip" kv) as [vi|]; destruct (assoc_get "Port" kv) as [vp|];
      destruct (assoc_get "Type" kv) as [vt|];
      try destruct vt; cbn [str_lower] in H; try discriminate H;
      (match type of H with
       | (if ?c then _ else _) = _ => destruct c eqn:Hc; [|discriminate H]
       end);
      apply andb_true_iff in Hc as [Hc Nt];
      apply andb_true_iff in Hc as [Ni Np];
      try discriminate Ni; try discriminate Np; try discriminate Nt.
    destruct vi as [| | |i| |]; cbn [str_strip] in H; try discriminate H.
    destruct vp as [| | |p| |]; cbn [str_strip] in H; try discriminate H.
    exists i, p, s. rewrite lower_nonempty in Nt. injection H as <-.
    repeat split; assumption.
  - intros (kv & i & p & t & -> & Hi & Hp & Ht & Ni & Np & Nt & ->).
    unfold proxyscan_entry, dict_get, res_bind. rewrite Hi, Hp, Ht.
    cbn [str_lower truthy str_strip]. rewrite lower_nonempty, Ni, Np, Nt.
    cbn [andb]. unfold scheme_of.
    destruct (String.eqb (PyStr.lower t) "https"); reflexivity.
  - intros kv i n t Hi Hp Ht Ni Nn Nt.
    unfold proxyscan_entry, dict_get, res_bind. rewrite Hi, Hp, Ht.
    cbn [str_lower truthy str_strip]. rewrite lower_nonempty, Ni, Nt.
    apply Z.eqb_neq in Nn. rewrite Nn. reflexivity.
Qed.

(** X10: one item of the GetProxyList loop gives a record exactly when
    the address and the port are truthy and the protocol is a string
    naming http, https, socks4 or socks5 in any letter case; the record
    holds [str(ip).strip()] and [str(port).strip()], so a port given as a
    number is accepted, and https is recorded as http.  When the reply
    has no [protocols] key and its [protocol] is a non-empty string, the
    loop visits that one protocol, in lower case. *)
Theorem getproxylist_proto_record (E : Env) (vi vp proto : pyval)
    (d : ProxyDict) :
  (getproxylist_proto (E:=E) (vi, vp, proto) = Ok (Some d)
   <-> exists t,
         proto = PStr t /\ truthy vi = true /\ truthy vp = true
         /\ scheme_ok (scheme_of t) = true
         /\ d = {| ip := PyStr.strip (py_str (E:=E) vi);
                   port := PyStr.strip (py_str (E:=E) vp);
                   type := scheme_of t |})
  /\ (forall kv t,
        assoc_get "protocols" kv = None ->
        assoc_get "protocol" kv = Some (PStr t) ->
        PyStr.nonempty t = true ->
        getproxylist_protocols (PDict kv)
        = Ok [(match assoc_get "ip" kv with Some x => x | None => PNone end,
               match assoc_get "port" kv with Some x => x | None => PNone end,
               PStr (PyStr.lower t))]).
Proof.
  split; [split|].
  - unfold getproxylist_proto, res_bind. intros H.
    destruct proto as [| | |t| |]; cbn [str_lower] in H; try discriminate H.
    exists t. fold (scheme_of t) in H. fold (scheme_ok (scheme_of t)) in H.
    destruct (truthy vi && truthy vp && scheme_ok (scheme_of t)) eqn:Hc;
      [|discriminate H].
    apply andb_true_iff in Hc as [Hc Hs]. apply andb_true_iff in Hc as [Hi Hp].
    injection H as <-. repeat split; assumption.
  - intros (t & -> & Hi & Hp & Hs & ->).
    unfold getproxylist_proto, res_bind. cbn [str_lower].
    fold (scheme_of t). fold (scheme_ok (scheme_of t)).
    rewrite Hi, Hp, Hs. reflexivity.
  - intros kv t Hps Hp Ht.
    unfold getproxylist_protocols, dict_get, res_bind. rewrite Hps, Hp.
    cbn [truthy negb str_lower]. rewrite lower_nonempty, Ht. reflexivity.
Qed.

(** X11: every record returned by the four API sources carries its
    address and its port already stripped: stripping them again changes
    nothing.  These four listing functions return a batch whatever the
    providers answer. *)
Theorem api_records_are_stripped (E : Env) (s : env_state E) :
  Forall
    (fun src =>
       exists l, result_of (list_candidates src s) = Ok l /\ Forall stripped l)
    [ProxyScrape; Proxyscan; PubProxy; GetProxyList].
Proof.
  repeat constructor; cbn [list_candidates]; apply returns_stripped.
  - apply proxyscrape_never_raises.
  - apply proxyscrape_stripped.
  - apply proxyscan_never_raises.
  - apply proxyscan_stripped.
  - apply pubproxy_never_raises.
  - apply pubproxy_stripped.
  - apply getproxylist_never_raises.
  - apply getproxylist_stripped.
Qed.

(** X12: when the request to Proxyscan.io gets a reply that
    [raise_for_status] lets pass and whose JSON is a list, the batch
    holds the records of the entries up to the first entry that raises,
    and nothing of what follows it: an entry that cannot be parsed cuts
    the batch short instead of being skipped. *)
Theorem proxyscan_keeps_records_before_error (E : Env) (s : env_state E)
    (r : Response) (items : list pyval) :
  fst (requests_get_io E proxyscan_request s) = Ok r ->
  status_passes r = true ->
  json r = Ok (PList items) ->
  result_of (get_jp_proxies_from_proxyscan s) = Ok (kept proxyscan_entry items)
  /\ (forall good bad rest e,
        items = good ++ bad :: rest ->
        Forall (fun x => exists o, proxyscan_entry x = Ok o) good ->
        proxyscan_entry bad = Raise e ->
        result_of (get_jp_proxies_from_proxyscan s)
        = Ok (kept proxyscan_entry good)).
Proof.
  intros Hget Hst Hjson.
  pose proof (proxyscan_result s r items Hget Hst Hjson) as Hres.
  split; [exact Hres|].
  intros good bad rest e -> Hgood Hbad. rewrite Hres.
  rewrite (kept_stops proxyscan_entry good bad rest e Hgood Hbad). reflexivity.
Qed.

(** X12 in the world [numeric_port]: the second of three entries gives its
    port as a number, and the batch holds the first entry only. *)
Lemma proxyscan_keeps_records_before_error_witness :
  result_of (get_jp_proxies_from_proxyscan (E:=numeric_port) 0)
  = Ok [{| ip := "203.0.113.7"; port := "8080"; type := "http" |}].
Proof.
  exact (proj1
    (proxyscan_keeps_records_before_error numeric_port 0
       (json_page 200 (PList numeric_port_entries)) numeric_port_entries
       eq_refl eq_refl eq_refl)).
Defined.

(** ** The whole run: rounds and writes *)

Section WholeRun.
Context {E : Env}.

Lemma count_bind_le {A B} p (m : M E A) (f : A -> M E B) (s : env_state E) a b :
  count p (trace_of (m s)) <= a ->
  (forall x s', count p (trace_of (f x s')) <= b) ->
  count p (trace_of (bind m f s)) <= a + b.
Proof.
  intros Hm Hf. unfold bind.
  destruct (m s) as [[[x|e] s1] t1]; cbn [trace_of snd] in *.
  - specialize (Hf x s1). destruct (f x s1) as [[r s2] t2].
    cbn [trace_of snd] in *. rewrite count_app. lia.
  - lia.
Qed.

Lemma count_quiet {A} p (P : event -> bool) (m : M E A) (s : env_state E) :
  (forall e, P e = true -> p e = false) -> quiet P m ->
  count p (trace_of (m s)) = 0.
Proof.
  intros HP Hq. apply count_none. specialize (Hq s). revert Hq.
  apply forallb_weaken. intros e He. rewrite (HP e He). reflexivity.
Qed.

Lemma listing_event_no_shuffle e : listing_event e = true -> is_shuffle e = false.
Proof. destruct e; try discriminate; reflexivity. Qed.

Lemma publisher_no_shuffle c (s : env_state E) :
  count is_shuffle (trace_of (update_github_rss_feed c s)) = 0.
Proof.
  destruct (publisher_trace_facts c s) as (Ha & _). cbv zeta in Ha.
  apply count_none. revert Ha. apply forallb_weaken.
  intros e He. unfold after_success in He.
  apply andb_true_iff in He as [_ He]. exact He.
Qed.

(** A block shuffles at most as often as it has attempts. *)
Lemma block_shuffles lister banner n ok no (s : env_state E) :
  quiet listing_event lister ->
  count is_shuffle (trace_of (source_block lister banner n ok no s)) <= n.
Proof.
  intros Hq. unfold source_block.
  apply (count_bind_le _ _ _ _ 0 n).
  { rewrite (count_quiet _ _ _ _ listing_event_no_shuffle Hq). lia. }
  intros [|p l] s1.
  - cbn. lia.
  - apply (count_bind_le _ _ _ _ 0 n).
    { destruct (banner_run banner s1) as (t & -> & Ht). cbn [trace_of snd].
      rewrite count_none; [lia|]. revert Ht. apply forallb_weaken.
      intros [] H; try discriminate H; reflexivity. }
    intros _ s2.
    apply Nat.le_trans with (n + 0); [|lia].
    apply count_bind_le.
    { unfold try_proxies_multiple_attempts.
      apply (attempt_rounds_budget rss_url n n (p :: l) s2). }
    intros [[c|] l'] s3; cbn [fst]; [|cbn; lia].
    destruct (PyStr.nonempty c); [|cbn; lia].
    apply (count_bind_le _ _ _ _ 0 0); [cbn; lia|]. intros _ s4.
    apply (count_bind_le _ _ _ _ 0 0); [|intros; cbn; lia].
    rewrite publisher_no_shuffle. lia.
Qed.

Lemma run_rows_shuffles rows final (s : env_state E) :
  (forall s', count is_shuffle (trace_of (final s')) = 0) ->
  count is_shuffle (trace_of (run_rows rows final s))
  <= list_sum (map row_attempts rows).
Proof.
  intros Hfinal. revert s. induction rows as [|r rows IH]; intros s.
  - cbn [run_rows map list_sum]. rewrite Hfinal. lia.
  - cbn [run_rows map list_sum]. unfold stage.
    apply (count_bind_le _ _ _ _ 0 _); [cbn; lia|]. intros _ s1.
    apply count_bind_le.
    + apply block_shuffles, list_candidates_quiet.
    + intros [|] s2; [cbn; lia|apply IH].
Qed.

Lemma puts_app t1 t2 : puts (t1 ++ t2) = puts t1 ++ puts t2.
Proof.
  induction t1 as [|e t1 IH]; [reflexivity|].
  destruct e; cbn [app puts]; rewrite IH; reflexivity.
Qed.

Lemma before_success_no_put t : forallb before_success t = true -> puts t = [].
Proof.
  induction t as [|e t IH]; [reflexivity|]. cbn [forallb]. intros H.
  apply andb_true_iff in H as [He Ht]. unfold before_success in He.
  destruct e; cbn [puts]; try exact (IH Ht).
  apply andb_true_iff in He as [_ He]. discriminate He.
Qed.

(** The publisher writes at most once, and what it writes is the feed it
    was given. *)
Lemma publisher_puts c (s : env_state E) :
  puts (trace_of (update_github_rss_feed c s)) = []
  \/ exists v, puts (trace_of (update_github_rss_feed c s))
               = [data_sent (E:=E) c v].
Proof.
  unfold update_github_rss_feed, data_sent.
  unfold bind, requests_get, requests_put, print, emit, lift, ret, raise.
  destruct (requests_get_io E github_request s) as [[r|e] s1];
    [|left; reflexivity].
  destruct (status_code r =? 200)%Z.
  - destruct (json r) as [fi|e]; [|left; reflexivity].
    destruct (dict_get fi "sha" PNone) as [v|e]; [|left; reflexivity].
    right. exists v.
    destruct (requests_put_io E github_request _ s1) as [[pr|e] s2];
      [|reflexivity].
    destruct ((status_code pr =? 200)%Z || (status_code pr =? 201)%Z);
      [reflexivity|].
    destruct (json pr) as [body|e]; reflexivity.
  - right. exists PNone.
    destruct (requests_put_io E github_request _ s1) as [[pr|e] s2];
      [|reflexivity].
    destruct ((status_code pr =? 200)%Z || (status_code pr =? 201)%Z);
      [reflexivity|].
    destruct (json pr) as [body|e]; reflexivity.
Qed.

End WholeRun.

(** X14: a run of [main] shuffles at most eleven times, that is, it makes
    at most eleven rounds of attempts: three for freeproxy.world and two
    for each of the other four sources. *)
Theorem main_rounds_budget (E : Env) (s : env_state E) :
  count is_shuffle (trace_of (main s)) <= 11.
Proof.
  rewrite main_rows_eq.
  apply (run_rows_shuffles main_rows). intros s'. reflexivity.
Qed.

(** X15: a run of [main] writes to the repository at most once, and what
    it writes is what it fetched: the write carries the base64 encoding
    of the body of a successful fetch of this run, on the branch
    [master], with the message [Update RSS feed]. *)
Theorem main_publishes_what_it_fetched (E : Env) (s : env_state E) :
  length (puts (trace_of (main s))) <= 1
  /\ (forall d,
        In d (puts (trace_of (main s))) ->
        exists e c,
          In e (trace_of (main s)) /\ fetch_success e = Some c
          /\ content d = b64encode E c
          /\ branch d = "master" /\ message d = "Update RSS feed").
Proof.
  destruct (main_shape s) as [(ex & _ & _ & Hb)|[[_ (t0 & Ht & Hb)]|[c Hd]]].
  - rewrite (before_success_no_put _ Hb). split; [cbn; lia|intros d []].
  - rewrite Ht, puts_app, (before_success_no_put _ Hb).
    split; [cbn; lia|intros d []].
  - destruct Hd as (t0 & e & msg & s' & Ht & Hb & He).
    assert (Hp : puts (trace_of (main s))
                 = puts (trace_of (update_github_rss_feed c s'))).
    { rewrite Ht, puts_app, (before_success_no_put _ Hb).
      destruct e; try discriminate He. reflexivity. }
    rewrite Hp.
    destruct (publisher_puts c s') as [->|[v ->]];
      [split; [cbn; lia|intros d []]|].
    split; [cbn; lia|]. intros d [<-|[]].
    exists e, c. split; [|repeat split; exact He].
    rewrite Ht. apply in_or_app. right. left. reflexivity.
Qed.

(** ** The type of a scraped record *)

Lemma lower_char_idem c : PyStr.lower_char (PyStr.lower_char c) = PyStr.lower_char c.
Proof. destruct c as [[] [] [] [] [] [] [] []]; reflexivity. Qed.

Lemma all_chars_lower s :
  PyStr.all_chars (fun c => Ascii.eqb (PyStr.lower_char c) c) (PyStr.lower s) = true.
Proof.
  induction s as [|c s IH]; [reflexivity|].
  cbn [PyStr.lower PyStr.map_chars PyStr.all_chars].
  rewrite lower_char_idem, Ascii.eqb_refl. exact IH.
Qed.

(** The words of [s.split()] are not empty and hold no white space; their
    characters are characters of [s]. *)
Lemma split_ws_words (P : ascii -> bool) s :
  PyStr.all_chars P s = true ->
  Forall (fun w => PyStr.nonempty w = true
                   /\ PyStr.all_chars (fun c => negb (PyStr.isspace c) && P c) w = true)
         (PyStr.split_ws s).
Proof.
  induction s as [|c s IH]; [constructor|].
  cbn [PyStr.all_chars]. intros H. apply andb_true_iff in H as [Hc Hs].
  specialize (IH Hs). cbn [PyStr.split_ws].
  destruct (PyStr.isspace c) eqn:Hsp; [exact IH|].
  assert (Hone : PyStr.nonempty (String c EmptyString) = true
                 /\ PyStr.all_chars (fun c => negb (PyStr.isspace c) && P c)
                      (String c EmptyString) = true).
  { split; [reflexivity|]. cbn. rewrite Hsp, Hc. reflexivity. }
  destruct s as [|c' s']; [repeat constructor; apply Hone|].
  destruct (PyStr.isspace c'); [constructor; [exact Hone|exact IH]|].
  destruct (PyStr.split_ws (String c' s')) as [|w ws];
    [repeat constructor; apply Hone|].
  inversion IH as [|? ? [Hn Hw] Hws]; subst. constructor; [|exact Hws].
  split; [reflexivity|]. cbn [PyStr.all_chars]. rewrite Hsp, Hc, Hw. reflexivity.
Qed.

Lemma freeproxy_row_type row p :
  freeproxy_row row = Ok (Some p) -> lower_word (type p) = true.
Proof.
  unfold freeproxy_row.
  destruct row as [|c0 [|c1 [|c2 [|c3 [|c4 [|c5 rest]]]]]]; try discriminate.
  pose proof (split_ws_words _ _ (all_chars_lower (td_text c5))) as Hw.
  destruct (PyStr.split_ws (PyStr.lower (td_text c5))) as [|t ts];
    [discriminate|].
  destruct (PyStr.nonempty _ && PyStr.nonempty _ && PyStr.nonempty t);
    [|discriminate].
  intros [= <-]. cbn [type]. inversion Hw as [|? ? [Hn Hc] _]; subst.
  unfold lower_word, word_char. rewrite Hn, Hc. reflexivity.
Qed.

(** X16: every record of a batch scraped from freeproxy.world has for its
    type one lower-case word: the first word of the sixth cell of its
    row, not empty, without white space, and unchanged by [lower]. *)
Theorem freeproxy_world_types_are_words (E : Env) (s : env_state E)
    (l : list ProxyDict) :
  result_of (get_jp_proxies_from_freeproxy_world s) = Ok l ->
  Forall (fun p => lower_word (type p) = true /\ PyStr.lower (type p) = type p) l.
Proof.
  revert l.
  assert (Hw : forall w, lower_word w = true -> PyStr.lower w = w).
  { intros w H. unfold lower_word in H. apply andb_true_iff in H as [_ H].
    induction w as [|c w IH]; [reflexivity|].
    cbn [PyStr.all_chars] in H. apply andb_true_iff in H as [Hc H].
    unfold word_char in Hc. apply andb_true_iff in Hc as [_ Hc].
    apply Ascii.eqb_eq in Hc. cbn [PyStr.lower PyStr.map_chars].
    rewrite Hc. f_equal. apply IH, H. }
  intros l. unfold get_jp_proxies_from_freeproxy_world. unfold bind at 1.
  match goal with
  | |- context [try_except ?b ?h s] => destruct (try_except b h s) as [[[r|e] s1] t1]
  end; [|discriminate].
  destruct r as [response|]; [|cbn; intros [= <-]; constructor].
  destruct (layui_table (soup response)) as [[rows|]|];
    [|cbn; intros [= <-]; constructor..].
  pose proof (for_append_Forall
                (fun p => lower_word (type p) = true /\ PyStr.lower (type p) = type p)
                freeproxy_row rows [] ltac:(constructor)) as HF.
  destruct (for_append freeproxy_row rows []) as [proxies [u|e]];
    [|discriminate].
  cbn. intros [= <-]. apply HF. intros row p Hp.
  pose proof (freeproxy_row_type row p Hp) as Ht. split; [exact Ht|apply Hw, Ht].
Qed.

(** X16 in the world [https_row]: the one row of the table has the type
    cell [HTTPS], and the record has the type [https]. *)
Lemma freeproxy_world_types_are_words_witness :
  Forall (fun p => lower_word (type p) = true /\ PyStr.lower (type p) = type p)
    [{| ip := "203.0.113.7"; port := "8080"; type := "https" |}].
Proof.
  exact (freeproxy_world_types_are_words https_row 0
           [{| ip := "203.0.113.7"; port := "8080"; type := "https" |}] eq_refl).
Defined.

(* ===================================================================== *)
(** * The scaffolding scripts *)
(* ===================================================================== *)

(** ** The tree *)

Lemma fs_assoc_set_eq x c es : fs_assoc x (fs_set x c es) = Some c.
Proof.
  induction es as [|[y d] es IH]; cbn [fs_set fs_assoc].
  - rewrite String.eqb_refl. reflexivity.
  - destruct (String.eqb x y) eqn:Hxy; cbn [fs_assoc]; rewrite Hxy;
      [reflexivity|exact IH].
Qed.

Lemma fs_assoc_set_ne x y c es :
  String.eqb y x = false -> fs_assoc y (fs_set x c es) = fs_assoc y es.
Proof.
  intros Hyx. induction es as [|[z d] es IH]; cbn [fs_set fs_assoc].
  - rewrite Hyx. reflexivity.
  - destruct (String.eqb x z) eqn:Hxz; cbn [fs_assoc].
    + apply String.eqb_eq in Hxz as <-. rewrite Hyx. reflexivity.
    + rewrite IH. reflexivity.
Qed.

Lemma fs_set_same x c es : fs_assoc x es = Some c -> fs_set x c es = es.
Proof.
  induction es as [|[y d] es IH]; cbn [fs_set fs_assoc]; [discriminate|].
  destruct (String.eqb x y) eqn:Hxy.
  - intros [= ->]. reflexivity.
  - intros H. rewrite (IH H). reflexivity.
Qed.

Lemma fs_extends_refl a : fs_extends a a.
Proof.
  intros p. unfold path_is_dir. destruct (fs_lookup a p) as [[d|es]| |]; auto.
Qed.

Lemma fs_extends_trans a b c : fs_extends a b -> fs_extends b c -> fs_extends a c.
Proof.
  intros Hab Hbc p. specialize (Hab p). specialize (Hbc p).
  unfold path_is_dir in *.
  destruct (fs_lookup a p) as [[d|es]| |]; auto.
  - rewrite Hab in Hbc. exact Hbc.
  - destruct (fs_lookup b p) as [[d|es']| |]; try discriminate. exact Hbc.
Qed.

Lemma fs_extends_set x c' es :
  match fs_assoc x es with
  | Some c => fs_extends c c'
  | None => True
  end ->
  fs_extends (FsDir es) (FsDir (fs_set x c' es)).
Proof.
  intros H [|y q].
  - reflexivity.
  - unfold path_is_dir. cbn [fs_lookup].
    destruct (String.eqb y x) eqn:Hyx.
    + apply String.eqb_eq in Hyx as ->. rewrite fs_assoc_set_eq.
      destruct (fs_assoc x es) as [c|]; [|exact I]. apply (H q).
    + rewrite (fs_assoc_set_ne _ _ _ _ Hyx).
      destruct (fs_assoc y es) as [c|]; [|exact I]. apply (fs_extends_refl c q).
Qed.

Lemma exists_extends a b p :
  fs_extends a b -> path_exists a p = true -> path_exists b p = true.
Proof.
  intros H. specialize (H p). unfold path_exists, path_is_dir in *.
  destruct (fs_lookup a p) as [[d|es]| |]; try discriminate.
  - rewrite H. reflexivity.
  - destruct (fs_lookup b p) as [[d|es']| |]; try discriminate. reflexivity.
Qed.

Lemma missing_extends a b p :
  fs_extends a b -> path_exists b p = false -> path_exists a p = false.
Proof.
  intros H Hb. destruct (path_exists a p) eqn:Ha; [|reflexivity].
  rewrite (exists_extends a b p H Ha) in Hb. discriminate.
Qed.

Lemma is_dir_extends a b p :
  fs_extends a b -> path_is_dir a p = true -> path_is_dir b p = true.
Proof.
  intros H. specialize (H p). unfold path_is_dir in *.
  destruct (fs_lookup a p) as [[d|es]| |]; try discriminate. intros _. exact H.
Qed.

Lemma file_extends a b p d :
  fs_extends a b -> fs_lookup a p = Found (FsFile d) ->
  fs_lookup b p = Found (FsFile d).
Proof. intros H Ha. specialize (H p). rewrite Ha in H. exact H. Qed.

Lemma is_dir_exists a p : path_is_dir a p = true -> path_exists a p = true.
Proof.
  unfold path_is_dir, path_exists.
  destruct (fs_lookup a p) as [[d|es]| |]; try discriminate. reflexivity.
Qed.

(** ** mkdir and touch *)

Lemma mkdir_extends n p n' : mkdir_parents n p = OsOk n' -> fs_extends n n'.
Proof.
  revert n n'. induction p as [|x p IH]; intros n n'; cbn [mkdir_parents].
  - destruct n; [discriminate|]. intros [= <-]. apply fs_extends_refl.
  - destruct n as [d|es]; [discriminate|]. cbv zeta.
    destruct (mkdir_parents _ p) as [c'|e] eqn:Hc; [|discriminate].
    intros [= <-]. apply fs_extends_set.
    destruct (fs_assoc x es) as [c|]; [|exact I]. apply (IH _ _ Hc).
Qed.

Lemma mkdir_is_dir n p n' : mkdir_parents n p = OsOk n' -> path_is_dir n' p = true.
Proof.
  revert n n'. induction p as [|x p IH]; intros n n'; cbn [mkdir_parents].
  - destruct n; [discriminate|]. intros [= <-]. reflexivity.
  - destruct n as [d|es]; [discriminate|]. cbv zeta.
    destruct (mkdir_parents _ p) as [c'|e] eqn:Hc; [|discriminate].
    intros [= <-]. unfold path_is_dir. cbn [fs_lookup].
    rewrite fs_assoc_set_eq. apply (IH _ _ Hc).
Qed.

Lemma mkdir_noop n p : path_is_dir n p = true -> mkdir_parents n p = OsOk n.
Proof.
  revert n. induction p as [|x p IH]; intros n; unfold path_is_dir;
    cbn [fs_lookup mkdir_parents].
  - destruct n; [discriminate|reflexivity].
  - destruct n as [d|es]; [discriminate|]. cbv zeta.
    destruct (fs_assoc x es) as [c|] eqn:Hx; [|discriminate].
    intros H. rewrite (IH c H), (fs_set_same x c es Hx). reflexivity.
Qed.

(** [mkdir] fails only for a regular file on the path, and never with
    [FileNotFoundError]. *)
Lemma mkdir_raises n p e :
  mkdir_parents n p = OsRaise e ->
  e <> FileNotFoundError
  /\ exists q r d, p = q ++ r /\ fs_lookup n q = Found (FsFile d).
Proof.
  revert n. induction p as [|x p IH]; intros n; cbn [mkdir_parents].
  - destruct n as [d|es]; [|discriminate]. intros [= <-].
    split; [discriminate|]. exists [], [], d. split; reflexivity.
  - destruct n as [d|es].
    + intros [= <-]. split; [discriminate|].
      exists [], (x :: p), d. split; reflexivity.
    + cbv zeta. destruct (mkdir_parents _ p) as [c'|e'] eqn:Hc; [discriminate|].
      intros [= <-]. destruct (IH _ Hc) as (He & q & r & d & -> & Hq).
      split; [exact He|]. exists (x :: q), r, d. split; [reflexivity|].
      cbn [fs_lookup]. destruct (fs_assoc x es) as [c|]; [exact Hq|].
      destruct q; cbn in Hq; discriminate.
Qed.

Lemma touch_extends n p n' : touch n p = OsOk n' -> fs_extends n n'.
Proof.
  revert n n'. induction p as [|x p IH]; intros n n'; cbn [touch].
  - intros [= <-]. apply fs_extends_refl.
  - destruct n as [d|es]; [discriminate|].
    destruct (fs_assoc x es) as [c|] eqn:Hx.
    + destruct (touch c p) as [c'|e] eqn:Hc; [|discriminate].
      intros [= <-]. apply fs_extends_set. rewrite Hx. apply (IH _ _ Hc).
    + destruct p; [|discriminate]. intros [= <-].
      apply fs_extends_set. rewrite Hx. exact I.
Qed.

(** In a directory, a name that is not there is made an empty file. *)
Lemma touch_creates n dir x :
  path_is_dir n dir = true -> path_exists n (dir ++ [x]) = false ->
  exists n', touch n (dir ++ [x]) = OsOk n'
             /\ fs_lookup n' (dir ++ [x]) = Found (FsFile "").
Proof.
  revert n. induction dir as [|y dir IH]; intros n; unfold path_is_dir, path_exists;
    cbn [app fs_lookup touch].
  - destruct n as [d|es]; [discriminate|]. intros _.
    destruct (fs_assoc x es) as [c|] eqn:Hx; [discriminate|]. intros _.
    eexists. split; [reflexivity|]. cbn [fs_lookup].
    rewrite fs_assoc_set_eq. reflexivity.
  - destruct n as [d|es]; [discriminate|].
    destruct (fs_assoc y es) as [c|] eqn:Hy; [|discriminate].
    intros Hd Hx. destruct (IH c Hd Hx) as (c' & -> & Hc').
    eexists. split; [reflexivity|]. cbn [fs_lookup].
    rewrite fs_assoc_set_eq. exact Hc'.
Qed.

Lemma touch_new n p n' :
  path_exists n p = false -> touch n p = OsOk n' ->
  fs_lookup n' p = Found (FsFile "").
Proof.
  revert n n'. induction p as [|x p IH]; intros n n'; unfold path_exists;
    cbn [fs_lookup touch].
  - discriminate.
  - destruct n as [d|es]; [discriminate|].
    destruct (fs_assoc x es) as [c|] eqn:Hx.
    + intros Hm. destruct (touch c p) as [c'|e] eqn:Hc; [|discriminate].
      intros [= <-]. cbn [fs_lookup]. rewrite fs_assoc_set_eq.
      apply (IH c c' Hm Hc).
    + intros _. destruct p; [|discriminate]. intros [= <-].
      cbn [fs_lookup]. rewrite fs_assoc_set_eq. reflexivity.
Qed.

Lemma exists_removelast n p :
  path_exists n p = true -> path_exists n (removelast p) = true.
Proof.
  revert n. induction p as [|x p IH]; intros n; [auto|].
  destruct p as [|y p]; [reflexivity|].
  change (removelast (x :: y :: p)) with (x :: removelast (y :: p)).
  unfold path_exists in *. cbn [fs_lookup].
  destruct n as [d|es]; [discriminate|].
  destruct (fs_assoc x es) as [c|]; [|discriminate]. apply IH.
Qed.

(** ** Steps that only add *)

Lemma line_true_mono a0 a b b' l :
  fs_extends a0 a -> fs_extends b b' -> line_true a b l -> line_true a0 b' l.
Proof.
  intros Ha Hb. unfold line_true. destruct (kind_of l).
  - intros [Hm Hf]. split; [exact (missing_extends _ _ _ Ha Hm)|].
    exact (file_extends _ _ _ _ Hb Hf).
  - intros [Hm Hd]. split; [exact (missing_extends _ _ _ Ha Hm)|].
    exact (is_dir_extends _ _ _ Hb Hd).
  - apply exists_extends, Hb.
Qed.

Lemma fs_sound_ret {A} (a : A) : fs_sound (fs_ret a).
Proof. intros fs. split; [apply fs_extends_refl|constructor]. Qed.

Lemma fs_sound_out {A} : fs_sound (fs_out (A:=A)).
Proof. intros fs. split; [apply fs_extends_refl|constructor]. Qed.

Lemma fs_sound_bind {A B} (m : FsM A) (f : A -> FsM B) :
  fs_sound m -> (forall a, fs_sound (f a)) -> fs_sound (fs_bind m f).
Proof.
  intros Hm Hf fs. unfold fs_bind. specialize (Hm fs).
  destruct (m fs) as [[[a|e|] fs1] t1]; cbn [fs_state fs_lines fst snd] in *;
    [|exact Hm|exact Hm].
  destruct Hm as [H1 L1]. specialize (Hf a fs1).
  destruct (f a fs1) as [[r fs2] t2]. cbn [fs_state fs_lines fst snd] in *.
  destruct Hf as [H2 L2]. split; [exact (fs_extends_trans _ _ _ H1 H2)|].
  apply Forall_app. split.
  - eapply Forall_impl; [exact L1|]. intros l.
    apply line_true_mono; [apply fs_extends_refl|exact H2].
  - eapply Forall_impl; [exact L2|]. intros l.
    apply line_true_mono; [exact H1|apply fs_extends_refl].
Qed.

Lemma fs_sound_for {A} (l : list A) (body : A -> FsM unit) :
  (forall x, fs_sound (body x)) -> fs_sound (fs_for l body).
Proof.
  intros Hb. induction l as [|x l IH]; cbn [fs_for].
  - apply fs_sound_ret.
  - apply fs_sound_bind; [apply Hb|intros _; exact IH].
Qed.

Lemma fs_sound_mkdir p : fs_sound (fs_mkdir p).
Proof.
  intros fs. unfold fs_mkdir. destruct (mkdir_parents fs p) as [fs'|e] eqn:Hm;
    cbn [fs_state fs_lines fst snd].
  - split; [exact (mkdir_extends _ _ _ Hm)|constructor].
  - split; [apply fs_extends_refl|constructor].
Qed.

Lemma create_file_sound dir filename : fs_sound (create_file dir filename).
Proof.
  unfold create_file.
  destruct (fs_join dir filename) as [file_path|]; [|apply fs_sound_out].
  intros fs. unfold fs_bind, fs_exists, fs_touch, fs_print.
  destruct (path_exists fs file_path) eqn:Hex; cbn [negb].
  - cbn [fs_state fs_lines fst snd app]. split; [apply fs_extends_refl|].
    repeat constructor. exact Hex.
  - destruct (touch fs file_path) as [fs'|e] eqn:Ht;
      cbn [fs_state fs_lines fst snd app].
    + split; [exact (touch_extends _ _ _ Ht)|]. repeat constructor.
      * exact Hex.
      * exact (touch_new _ _ _ Hex Ht).
    + split; [apply fs_extends_refl|constructor].
Qed.

Lemma make_parent_sound path : fs_sound (make_parent path).
Proof.
  intros fs. unfold make_parent, fs_bind, fs_exists, fs_mkdir, fs_print, fs_ret.
  cbv zeta. destruct (path_exists fs (removelast path)) eqn:Hpar; cbn [negb].
  - cbn [fs_state fs_lines fst snd app]. split; [apply fs_extends_refl|constructor].
  - destruct (mkdir_parents fs (removelast path)) as [fs1|e] eqn:Hm;
      cbn [fs_state fs_lines fst snd app].
    + split; [exact (mkdir_extends _ _ _ Hm)|]. repeat constructor;
        [exact Hpar|exact (mkdir_is_dir _ _ _ Hm)].
    + split; [apply fs_extends_refl|constructor].
Qed.

Lemma make_leaf_sound path : fs_sound (make_leaf path).
Proof.
  intros fs. unfold make_leaf, fs_bind, fs_exists, fs_touch, fs_print.
  destruct (path_exists fs path) eqn:Hex; cbn [negb].
  - cbn [fs_state fs_lines fst snd app]. split; [apply fs_extends_refl|].
    repeat constructor. exact Hex.
  - destruct (touch fs path) as [fs'|e] eqn:Ht;
      cbn [fs_state fs_lines fst snd app].
    + split; [exact (touch_extends _ _ _ Ht)|]. repeat constructor;
        [exact Hex|exact (touch_new _ _ _ Hex Ht)].
    + split; [apply fs_extends_refl|constructor].
Qed.

Lemma make_file_sound path : fs_sound (make_file path).
Proof.
  apply fs_sound_bind; [apply make_parent_sound|intros _; apply make_leaf_sound].
Qed.

(** ** Loops *)

Lemma fs_for_post {A} (Q : A -> fsnode -> Prop) (l : list A) (body : A -> FsM unit)
    fs :
  (forall x, fs_sound (body x)) ->
  (forall x a b, fs_extends a b -> Q x a -> Q x b) ->
  (forall x fs0, fs_result (body x fs0) = FsOk tt -> Q x (fs_state (body x fs0))) ->
  fs_result (fs_for l body fs) = FsOk tt ->
  Forall (fun x => Q x (fs_state (fs_for l body fs))) l.
Proof.
  intros Hs Hst Hq. revert fs. induction l as [|x l IH]; intros fs; [constructor|].
  cbn [fs_for]. unfold fs_bind.
  pose proof (Hq x fs) as Hx.
  destruct (body x fs) as [[[u|e|] fs1] t1]; cbn [fs_result fs_state fst snd] in *;
    [|discriminate|discriminate].
  specialize (IH fs1). pose proof (fs_sound_for l body Hs fs1) as [Hext _].
  destruct (fs_for l body fs1) as [[r fs2] t2].
  cbn [fs_result fs_state fst snd] in *. intros Hr.
  constructor; [|exact (IH Hr)].
  apply (Hst x fs1 fs2 Hext). apply Hx. destruct u. reflexivity.
Qed.

Lemma fs_for_paths {A} (g : A -> list fspath) (l : list A) (body : A -> FsM unit)
    fs :
  (forall x fs0, fs_result (body x fs0) = FsOk tt ->
                 map line_path (fs_lines (body x fs0)) = g x) ->
  fs_result (fs_for l body fs) = FsOk tt ->
  map line_path (fs_lines (fs_for l body fs)) = concat (map g l).
Proof.
  intros Hg. revert fs. induction l as [|x l IH]; intros fs; [reflexivity|].
  cbn [fs_for map concat]. unfold fs_bind.
  pose proof (Hg x fs) as Hx.
  destruct (body x fs) as [[[u|e|] fs1] t1]; cbn [fs_result fs_lines fst snd] in *;
    [|discriminate|discriminate].
  specialize (IH fs1). destruct (fs_for l body fs1) as [[r fs2] t2].
  cbn [fs_result fs_lines fst snd] in *. intros Hr.
  rewrite map_app, (IH Hr), Hx; [reflexivity|]. destruct u. reflexivity.
Qed.

Lemma fs_for_noop {A} (line : A -> list fs_line) (l : list A)
    (body : A -> FsM unit) fs :
  Forall (fun x => body x fs = (FsOk tt, fs, line x)) l ->
  fs_for l body fs = (FsOk tt, fs, concat (map line l)).
Proof.
  induction 1 as [|x l Hx _ IH]; [reflexivity|].
  cbn [fs_for map concat]. unfold fs_bind. rewrite Hx, IH. reflexivity.
Qed.

(** A loop that raises: one of its turns raised, and the loop stopped in
    the state that turn left. *)
Lemma fs_for_raises {A} (l : list A) (body : A -> FsM unit) fs e :
  (forall x, fs_sound (body x)) ->
  fs_result (fs_for l body fs) = FsRaise e ->
  exists x fs0,
    In x l /\ fs_extends fs fs0
    /\ fs_result (body x fs0) = FsRaise e
    /\ fs_state (body x fs0) = fs_state (fs_for l body fs).
Proof.
  intros Hs. revert fs. induction l as [|x l IH]; intros fs; [discriminate|].
  cbn [fs_for]. unfold fs_bind.
  pose proof (Hs x fs) as [Hext _].
  destruct (body x fs) as [[[u|e1|] fs1] t1] eqn:Hx;
    cbn [fs_result fs_state fst snd] in *.
  - specialize (IH fs1).
    destruct (fs_for l body fs1) as [[r fs2] t2].
    cbn [fs_result fs_state fst snd] in *. intros Hr.
    destruct (IH Hr) as (y & fs0 & Hin & Hext0 & Hy & Hst).
    exists y, fs0. split; [right; exact Hin|].
    split; [exact (fs_extends_trans _ _ _ Hext Hext0)|]. split; assumption.
  - intros [= <-]. exists x, fs. split; [left; reflexivity|].
    split; [apply fs_extends_refl|]. rewrite Hx. split; reflexivity.
  - discriminate.
Qed.

Lemma concat_map_singleton {A B} (h : A -> B) (l : list A) :
  concat (map (fun x => [h x]) l) = map h l.
Proof. induction l as [|x l IH]; [reflexivity|]. cbn. rewrite IH. reflexivity. Qed.

(** ** html/create.py *)

(** [touch] fails for a regular file in the way, or for a missing
    parent. *)
Lemma touch_raises_cases n p e :
  touch n p = OsRaise e ->
  (e = NotADirectoryError
   /\ exists q r d, p = q ++ r /\ r <> [] /\ fs_lookup n q = Found (FsFile d))
  \/ (e = FileNotFoundError /\ path_exists n (removelast p) = false).
Proof.
  revert n. induction p as [|x p IH]; intros n; cbn [touch]; [discriminate|].
  destruct n as [d|es].
  - intros [= <-]. left. split; [reflexivity|].
    exists [], (x :: p), d. repeat split. discriminate.
  - destruct (fs_assoc x es) as [c|] eqn:Hx.
    + destruct (touch c p) as [c'|e'] eqn:Hc; [discriminate|]. intros [= <-].
      destruct p as [|y p]; [discriminate Hc|].
      change (removelast (x :: y :: p)) with (x :: removelast (y :: p)).
      unfold path_exists. cbn [fs_lookup]. rewrite Hx.
      destruct (IH c Hc) as [(He & q & r & d & Hq & Hr & Hd)|[He Hpar]].
      * left. split; [exact He|]. exists (x :: q), r, d.
        split; [cbn; rewrite Hq; reflexivity|]. split; [exact Hr|].
        cbn [fs_lookup]. rewrite Hx. exact Hd.
      * right. split; [exact He|exact Hpar].
    + destruct p as [|y p]; [discriminate|]. intros [= <-]. right.
      split; [reflexivity|].
      change (removelast (x :: y :: p)) with (x :: removelast (y :: p)).
      unfold path_exists. cbn [fs_lookup]. rewrite Hx. reflexivity.
Qed.

Lemma create_file_run dir filename fs :
  fs_result (create_file dir filename fs) = FsOk tt ->
  exists p,
    fs_join dir filename = Some p
    /\ path_exists (fs_state (create_file dir filename fs)) p = true
    /\ map line_path (fs_lines (create_file dir filename fs)) = [p].
Proof.
  unfold create_file.
  destruct (fs_join dir filename) as [p|]; [|discriminate].
  unfold fs_bind, fs_exists, fs_touch, fs_print. intros H. exists p.
  split; [reflexivity|]. revert H.
  destruct (path_exists fs p) eqn:Hex; cbn [negb].
  - cbn. intros _. split; [exact Hex|reflexivity].
  - destruct (touch fs p) as [fs'|e] eqn:Ht; [|discriminate].
    cbn [fs_result fs_state fs_lines fst snd app map line_path]. intros _.
    split; [|reflexivity]. unfold path_exists.
    rewrite (touch_new _ _ _ Hex Ht). reflexivity.
Qed.

Lemma create_file_noop dir filename fs p :
  fs_join dir filename = Some p -> path_exists fs p = true ->
  create_file dir filename fs = (FsOk tt, fs, [FsPrint "Already exists: " p]).
Proof.
  intros Hj Hex. unfold create_file, fs_bind, fs_exists, fs_print.
  rewrite Hj, Hex. reflexivity.
Qed.

(** A file step raises only from [touch], and leaves the tree as it
    was. *)
Lemma create_file_raises dir filename fs e :
  fs_result (create_file dir filename fs) = FsRaise e ->
  fs_state (create_file dir filename fs) = fs
  /\ exists p, fs_join dir filename = Some p
               /\ path_exists fs p = false /\ touch fs p = OsRaise e.
Proof.
  unfold create_file.
  destruct (fs_join dir filename) as [p|]; [|discriminate].
  unfold fs_bind, fs_exists, fs_touch, fs_print.
  destruct (path_exists fs p) eqn:Hex; cbn [negb]; [discriminate|].
  destruct (touch fs p) as [fs'|e'] eqn:Ht; [discriminate|].
  cbn [fs_result fs_state fst snd]. intros [= <-].
  split; [reflexivity|]. exists p.
  split; [reflexivity|]. split; [exact Hex|exact Ht].
Qed.

Lemma create_structure_entries base spec :
  create_structure base spec = fs_for spec (create_entry base).
Proof.
  unfold create_structure. induction spec as [|[subdir fl] spec IH];
    [reflexivity|].
  cbn [fs_for]. rewrite IH. reflexivity.
Qed.

Lemma create_entry_sound base entry : fs_sound (create_entry base entry).
Proof.
  unfold create_entry.
  destruct (dir_of base (fst entry)) as [dir|]; [|apply fs_sound_out].
  apply fs_sound_bind; [apply fs_sound_mkdir|]. intros _.
  apply fs_sound_for. intros f. apply create_file_sound.
Qed.

Lemma entry_built_extends base entry a b :
  fs_extends a b -> entry_built base entry a -> entry_built base entry b.
Proof.
  intros Hext. unfold entry_built.
  destruct (dir_of base (fst entry)) as [dir|]; [|auto].
  intros [Hd Hf]. split; [exact (is_dir_extends _ _ _ Hext Hd)|].
  eapply Forall_impl; [exact Hf|]. intros f (p & Hj & Hp).
  exists p. split; [exact Hj|exact (exists_extends _ _ _ Hext Hp)].
Qed.

(** An entry that goes through leaves its directory and its files, and
    prints one line for each file. *)
Lemma create_entry_run base entry fs :
  fs_result (create_entry base entry fs) = FsOk tt ->
  entry_built base entry (fs_state (create_entry base entry fs))
  /\ map line_path (fs_lines (create_entry base entry fs))
     = entry_files base entry.
Proof.
  unfold create_entry, entry_built, entry_files.
  destruct (dir_of base (fst entry)) as [dir|]; [|discriminate].
  unfold fs_bind, fs_mkdir.
  destruct (mkdir_parents fs dir) as [fs1|e] eqn:Hm; [|discriminate].
  pose proof (mkdir_is_dir _ _ _ Hm) as Hd.
  pose proof (fs_sound_for (snd entry) (create_file dir)
                (create_file_sound dir) fs1) as [Hext _].
  pose proof (fs_for_post
                (fun f st => exists p, fs_join dir f = Some p
                                       /\ path_exists st p = true)
                (snd entry) (create_file dir) fs1 (create_file_sound dir)) as Hpost.
  pose proof (fs_for_paths (fun f => option_list (fs_join dir f)) (snd entry)
                (create_file dir) fs1) as Hpaths.
  destruct (fs_for (snd entry) (create_file dir) fs1) as [[r fs2] t2].
  cbn [fs_result fs_state fs_lines fst snd app] in *. intros Hok.
  split; [split|].
  - exact (is_dir_extends _ _ _ Hext Hd).
  - apply Hpost; [| |exact Hok].
    + intros f a b Hab (p & Hj & Hp). exists p.
      split; [exact Hj|exact (exists_extends _ _ _ Hab Hp)].
    + intros f fs0 H.
      destruct (create_file_run dir f fs0 H) as (p & Hj & Hp & _).
      exists p. split; assumption.
  - apply Hpaths; [|exact Hok]. intros f fs0 H.
    destruct (create_file_run dir f fs0 H) as (p & Hj & _ & Hl).
    rewrite Hj. exact Hl.
Qed.

(** An entry that raises: its directory could not be made, or one of its
    files could not, in a directory that was. *)
Lemma create_entry_raises base entry fs e :
  fs_result (create_entry base entry fs) = FsRaise e ->
  exists dir,
    dir_of base (fst entry) = Some dir
    /\ ((mkdir_parents (fs_state (create_entry base entry fs)) dir = OsRaise e)
        \/ (path_is_dir (fs_state (create_entry base entry fs)) dir = true
            /\ exists f p,
                 In f (snd entry) /\ fs_join dir f = Some p
                 /\ path_exists (fs_state (create_entry base entry fs)) p = false
                 /\ touch (fs_state (create_entry base entry fs)) p = OsRaise e)).
Proof.
  unfold create_entry.
  destruct (dir_of base (fst entry)) as [dir|]; [|discriminate].
  intros H. exists dir. split; [reflexivity|]. revert H.
  unfold fs_bind, fs_mkdir.
  destruct (mkdir_parents fs dir) as [fs1|e1] eqn:Hm.
  - pose proof (mkdir_is_dir _ _ _ Hm) as Hd.
    pose proof (fs_for_raises (snd entry) (create_file dir) fs1 e
                  (create_file_sound dir)) as Hr.
    destruct (fs_for (snd entry) (create_file dir) fs1) as [[r fs2] t2].
    cbn [fs_result fs_state fst snd] in *. intros Hres.
    destruct (Hr Hres) as (f & fs0 & Hin & Hext & Hf & Hst).
    destruct (create_file_raises dir f fs0 e Hf) as (Hsame & p & Hj & Hex & Ht).
    rewrite Hsame in Hst. subst fs0. right.
    split; [exact (is_dir_extends _ _ _ Hext Hd)|].
    exists f, p. repeat split; assumption.
  - cbn [fs_result fs_state fst snd]. intros [= <-]. left. exact Hm.
Qed.

Lemma create_entry_noop base entry fs :
  entry_built base entry fs ->
  create_entry base entry fs
  = (FsOk tt, fs, map (FsPrint "Already exists: ") (entry_files base entry)).
Proof.
  unfold entry_built, create_entry, entry_files, file_paths.
  destruct (dir_of base (fst entry)) as [dir|]; [|contradiction].
  intros [Hd Hf]. unfold fs_bind, fs_mkdir.
  rewrite (mkdir_noop _ _ Hd).
  rewrite (fs_for_noop
             (fun f => map (FsPrint "Already exists: ")
                           (option_list (fs_join dir f)))).
  - rewrite concat_map, map_map. reflexivity.
  - eapply Forall_impl; [exact Hf|]. intros f (p & Hj & Hp).
    rewrite Hj. apply create_file_noop; assumption.
Qed.

Lemma create_structure_built base spec fs :
  fs_result (create_structure base spec fs) = FsOk tt ->
  Forall (fun entry => entry_built base entry
                         (fs_state (create_structure base spec fs))) spec
  /\ map line_path (fs_lines (create_structure base spec fs))
     = listed_files base spec.
Proof.
  rewrite create_structure_entries. intros Hok. split.
  - apply (fs_for_post (entry_built base)); [apply create_entry_sound| | |exact Hok].
    + intros entry a b. apply entry_built_extends.
    + intros entry fs0 H. exact (proj1 (create_entry_run base entry fs0 H)).
  - apply (fs_for_paths (entry_files base)); [|exact Hok].
    intros entry fs0 H. exact (proj2 (create_entry_run base entry fs0 H)).
Qed.

Lemma in_listed_dirs base spec entry dir :
  In entry spec -> dir_of base (fst entry) = Some dir ->
  In dir (listed_dirs base spec).
Proof.
  intros Hin Hd. unfold listed_dirs. apply in_concat.
  exists [dir]. split; [|left; reflexivity].
  apply in_map_iff. exists entry. rewrite Hd. split; [reflexivity|exact Hin].
Qed.

Lemma in_listed_files base spec entry dir f p :
  In entry spec -> dir_of base (fst entry) = Some dir ->
  In f (snd entry) -> fs_join dir f = Some p ->
  In p (listed_files base spec).
Proof.
  intros Hin Hd Hf Hj. unfold listed_files. apply in_concat.
  exists (entry_files base entry). split; [apply in_map, Hin|].
  unfold entry_files, file_paths. rewrite Hd. apply in_concat.
  exists [p]. split; [|left; reflexivity].
  apply in_map_iff. exists f. rewrite Hj. split; [reflexivity|exact Hf].
Qed.

Lemma built_listed base spec fs :
  Forall (fun entry => entry_built base entry fs) spec ->
  Forall (fun d => path_is_dir fs d = true) (listed_dirs base spec)
  /\ Forall (fun p => path_exists fs p = true) (listed_files base spec).
Proof.
  unfold listed_dirs, listed_files.
  induction 1 as [|entry spec Hb _ [IHd IHf]]; [split; constructor|].
  cbn [map concat]. unfold entry_built, entry_files, file_paths in *.
  destruct (dir_of base (fst entry)) as [dir|]; [|contradiction].
  destruct Hb as [Hd Hf]. split; [constructor; assumption|].
  apply Forall_app. split; [|exact IHf].
  clear -Hf. induction Hf as [|f fl (p & Hj & Hp) _ IH]; [constructor|].
  cbn [map concat]. rewrite Hj. constructor; assumption.
Qed.

(** X17: [create_structure] only adds to the tree, whatever the tree and
    however the call ends: a file that was there is still there with the
    content it had, and a directory is still a directory.  Its lines are
    true: a path reported as [Created] was not there before the call and
    is an empty file after it; a path reported as [Already exists] is
    there. *)
Theorem create_structure_only_adds (base : fspath)
    (spec : list (string * list string)) (fs : fsnode) :
  fs_extends fs (fs_state (create_structure base spec fs))
  /\ Forall (line_true fs (fs_state (create_structure base spec fs)))
            (fs_lines (create_structure base spec fs)).
Proof.
  revert fs. change (fs_sound (create_structure base spec)).
  rewrite create_structure_entries. apply fs_sound_for.
  intros entry. unfold create_entry.
  destruct (dir_of base (fst entry)) as [dir|]; [|apply fs_sound_out].
  apply fs_sound_bind; [apply fs_sound_mkdir|]. intros _.
  apply fs_sound_for. intros f. apply create_file_sound.
Qed.

(** X18: when [create_structure] returns, every directory of [spec] is a
    directory, every file of [spec] exists, and exactly one line was
    printed for each listed file, in the order of [spec]. *)
Theorem create_structure_builds (base : fspath)
    (spec : list (string * list string)) (fs : fsnode) :
  fs_result (create_structure base spec fs) = FsOk tt ->
  Forall (fun d => path_is_dir (fs_state (create_structure base spec fs)) d = true)
         (listed_dirs base spec)
  /\ Forall (fun p => path_exists (fs_state (create_structure base spec fs)) p = true)
            (listed_files base spec)
  /\ map line_path (fs_lines (create_structure base spec fs))
     = listed_files base spec.
Proof.
  intros Hok. destruct (create_structure_built base spec fs Hok) as [Hb Hp].
  destruct (built_listed base spec _ Hb) as [Hd Hf].
  split; [exact Hd|]. split; [exact Hf|exact Hp].
Qed.

(** X18 on an empty directory with the script's own [structure]: the
    seventeen files are there afterwards. *)
Lemma create_structure_builds_witness :
  Forall (fun p => path_exists (fs_state (create_structure [] structure (FsDir [])))
                     p = true)
         (listed_files [] structure).
Proof.
  exact (proj1 (proj2 (create_structure_builds [] structure (FsDir []) eq_refl))).
Defined.

(** X19: [create_structure] is idempotent: run again on the tree a
    successful run has left, it returns, changes nothing, and reports
    every listed file as [Already exists]. *)
Theorem create_structure_idempotent (base : fspath)
    (spec : list (string * list string)) (fs : fsnode) :
  fs_result (create_structure base spec fs) = FsOk tt ->
  create_structure base spec (fs_state (create_structure base spec fs))
  = (FsOk tt, fs_state (create_structure base spec fs),
     map (FsPrint "Already exists: ") (listed_files base spec)).
Proof.
  intros Hok. destruct (create_structure_built base spec fs Hok) as [Hb _].
  set (st := fs_state (create_structure base spec fs)) in *. clearbody st.
  rewrite create_structure_entries.
  rewrite (fs_for_noop
             (fun entry =>
                map (FsPrint "Already exists: ") (entry_files base entry))).
  - unfold listed_files. rewrite concat_map, map_map. reflexivity.
  - eapply Forall_impl; [exact Hb|]. intros entry. apply create_entry_noop.
Qed.

(** X19 on an empty directory with the script's own [structure]. *)
Lemma create_structure_idempotent_witness :
  fs_lines (create_structure [] structure
              (fs_state (create_structure [] structure (FsDir []))))
  = map (FsPrint "Already exists: ") (listed_files [] structure).
Proof.
  exact (f_equal fs_lines
           (create_structure_idempotent [] structure (FsDir []) eq_refl)).
Defined.

(** X20: [create_structure] raises in two ways only.  Either a regular
    file lies on the path of one of the directories or of one of the
    files of [spec]: the exception is then [FileExistsError] or
    [NotADirectoryError], and the file is found in the tree the call
    leaves.  Or the exception is [FileNotFoundError], from [touch]: the
    name of a file has two components or more, its directory of [spec]
    was made, and the directory the file should be made in is not there
    in the tree the call leaves. *)
Theorem create_structure_raises (base : fspath)
    (spec : list (string * list string)) (fs : fsnode) (e : oserror) :
  fs_result (create_structure base spec fs) = FsRaise e ->
  (e <> FileNotFoundError
   /\ exists p q r d,
        In p (listed_dirs base spec ++ listed_files base spec)
        /\ p = q ++ r
        /\ fs_lookup (fs_state (create_structure base spec fs)) q
           = Found (FsFile d))
  \/ (e = FileNotFoundError
      /\ exists dir parts,
           In dir (listed_dirs base spec)
           /\ In (dir ++ parts) (listed_files base spec)
           /\ 2 <= length parts
           /\ path_is_dir (fs_state (create_structure base spec fs)) dir = true
           /\ path_exists (fs_state (create_structure base spec fs))
                (removelast (dir ++ parts)) = false).
Proof.
  rewrite create_structure_entries. intros Hres.
  destruct (fs_for_raises spec (create_entry base) fs e
              (create_entry_sound base) Hres)
    as (entry & fs0 & Hin & _ & He & Hst).
  destruct (create_entry_raises base entry fs0 e He) as (dir & Hdir & Hcase).
  rewrite Hst in Hcase.
  set (st := fs_state (fs_for spec (create_entry base) fs)) in *. clearbody st.
  destruct Hcase as [Hm|(Hd & f & p & Hf & Hj & Hex & Ht)].
  - left. destruct (mkdir_raises _ _ _ Hm) as (Hne & q & r & d & Hq & Hl).
    split; [exact Hne|]. exists dir, q, r, d.
    split; [apply in_or_app; left; exact (in_listed_dirs _ _ _ _ Hin Hdir)|].
    split; assumption.
  - pose proof (in_listed_files _ _ _ _ _ _ Hin Hdir Hf Hj) as Hp.
    destruct (touch_raises_cases _ _ _ Ht)
      as [(-> & q & r & d & Hq & _ & Hl)|[-> Hpar]].
    + left. split; [discriminate|]. exists p, q, r, d.
      split; [apply in_or_app; right; exact Hp|]. split; assumption.
    + right. split; [reflexivity|].
      unfold fs_join in Hj. destruct (path_parts f) as [parts|]; [|discriminate].
      cbn [option_map] in Hj. injection Hj as <-.
      exists dir, parts. split; [exact (in_listed_dirs _ _ _ _ Hin Hdir)|].
      split; [exact Hp|]. split; [|split; [exact Hd|exact Hpar]].
      destruct parts as [|x [|y parts]]; [| |cbn [length]; lia].
      * rewrite app_nil_r in Hex. rewrite (is_dir_exists _ _ Hd) in Hex.
        discriminate.
      * rewrite removelast_last in Hpar. rewrite (is_dir_exists _ _ Hd) in Hpar.
        discriminate.
Qed.

(** X20 on two trees.  Where [css] is a regular file, the script's own
    [structure] stops at its first directory with [FileExistsError].
    In an empty directory, a file name of two components whose
    directory is not there stops the call with [FileNotFoundError]. *)
Lemma create_structure_raises_witness :
  (fs_result (create_structure [] structure css_is_a_file)
   = FsRaise FileExistsError
   /\ exists p q r d,
        In p (listed_dirs [] structure ++ listed_files [] structure)
        /\ p = q ++ r
        /\ fs_lookup (fs_state (create_structure [] structure css_is_a_file)) q
           = Found (FsFile d))
  /\ (fs_result (create_structure [] nested_name (FsDir []))
      = FsRaise FileNotFoundError
      /\ exists dir parts,
           In dir (listed_dirs [] nested_name)
           /\ In (dir ++ parts) (listed_files [] nested_name)
           /\ 2 <= length parts
           /\ path_is_dir (fs_state (create_structure [] nested_name (FsDir [])))
                dir = true
           /\ path_exists (fs_state (create_structure [] nested_name (FsDir [])))
                (removelast (dir ++ parts)) = false).
Proof.
  split; (split; [reflexivity|]).
  - destruct (create_structure_raises [] structure css_is_a_file
                FileExistsError eq_refl) as [[_ H]|[H _]];
      [exact H|discriminate H].
  - destruct (create_structure_raises [] nested_name (FsDir [])
                FileNotFoundError eq_refl) as [[H _]|[_ H]];
      [contradiction H; reflexivity|exact H].
Defined.

(** ** backend/productsbalancefiles.py *)

Lemma make_parent_run path fs :
  (exists e, mkdir_parents fs (removelast path) = OsRaise e
             /\ path_exists fs (removelast path) = false
             /\ make_parent path fs = (FsRaise e, fs, []))
  \/ (fs_result (make_parent path fs) = FsOk tt
      /\ path_exists (fs_state (make_parent path fs)) (removelast path) = true).
Proof.
  unfold make_parent, fs_bind, fs_exists, fs_mkdir, fs_print, fs_ret. cbv zeta.
  destruct (path_exists fs (removelast path)) eqn:Hpar; cbn [negb].
  - right. split; [reflexivity|exact Hpar].
  - destruct (mkdir_parents fs (removelast path)) as [fs1|e] eqn:Hm.
    + right. split; [reflexivity|]. cbn [fs_state fst snd].
      apply is_dir_exists. exact (mkdir_is_dir _ _ _ Hm).
    + left. exists e. repeat split.
Qed.

Lemma make_leaf_run path fs :
  (exists e, touch fs path = OsRaise e /\ make_leaf path fs = (FsRaise e, fs, []))
  \/ (fs_result (make_leaf path fs) = FsOk tt
      /\ path_exists (fs_state (make_leaf path fs)) path = true).
Proof.
  unfold make_leaf, fs_bind, fs_exists, fs_touch, fs_print.
  destruct (path_exists fs path) eqn:Hex; cbn [negb].
  - right. split; [reflexivity|exact Hex].
  - destruct (touch fs path) as [fs'|e] eqn:Ht.
    + right. split; [reflexivity|]. cbn [fs_state fst snd]. unfold path_exists.
      rewrite (touch_new _ _ _ Hex Ht). reflexivity.
    + left. exists e. split; reflexivity.
Qed.

Lemma make_file_built path fs :
  fs_result (make_file path fs) = FsOk tt ->
  path_exists (fs_state (make_file path fs)) path = true.
Proof.
  unfold make_file, fs_bind.
  destruct (make_parent path fs) as [[[u|e|] fs1] t1]; [|discriminate|discriminate].
  destruct (make_leaf_run path fs1) as [(e & _ & ->)|[Hok Hex]]; [discriminate|].
  destruct (make_leaf path fs1) as [[r fs2] t2].
  cbn [fs_result fs_state fst snd] in *. intros _. exact Hex.
Qed.

Lemma make_file_noop path fs :
  path_exists fs path = true ->
  make_file path fs = (FsOk tt, fs, [FsPrint "Skipped existing file: " path]).
Proof.
  intros Hex. unfold make_file, make_parent, make_leaf, fs_bind, fs_exists,
    fs_print, fs_ret. cbv zeta.
  rewrite (exists_removelast _ _ Hex). cbn [negb]. rewrite Hex. reflexivity.
Qed.

Lemma mkdir_raises_exists n p :
  mkdir_parents n p = OsRaise FileExistsError -> path_exists n p = true.
Proof.
  revert n. induction p as [|x p IH]; intros n; unfold path_exists;
    cbn [mkdir_parents fs_lookup].
  - reflexivity.
  - destruct n as [d|es]; [discriminate|]. cbv zeta.
    destruct (fs_assoc x es) as [c|].
    + destruct (mkdir_parents c p) as [c'|e] eqn:Hc; [discriminate|].
      intros [= ->]. apply (IH c Hc).
    + destruct (mkdir_parents (FsDir []) p) as [c'|e] eqn:Hc; [discriminate|].
      intros [= ->]. specialize (IH _ Hc). unfold path_exists in IH.
      destruct p; cbn in IH; [|discriminate]. cbn in Hc. discriminate.
Qed.

(** Where the parent exists, [touch] fails only for a regular file in
    the way. *)
Lemma touch_raises n p e :
  touch n p = OsRaise e -> path_exists n (removelast p) = true ->
  e = NotADirectoryError
  /\ exists q r d, p = q ++ r /\ r <> [] /\ fs_lookup n q = Found (FsFile d).
Proof.
  revert n. induction p as [|x p IH]; intros n; cbn [touch]; [discriminate|].
  destruct n as [d|es].
  - intros [= <-] _. split; [reflexivity|].
    exists [], (x :: p), d. repeat split. discriminate.
  - destruct (fs_assoc x es) as [c|] eqn:Hx.
    + destruct (touch c p) as [c'|e'] eqn:Hc; [discriminate|]. intros [= <-].
      destruct p as [|y p]; [discriminate Hc|].
      change (removelast (x :: y :: p)) with (x :: removelast (y :: p)).
      unfold path_exists. cbn [fs_lookup]. rewrite Hx. intros Hpar.
      destruct (IH c Hc Hpar) as (He & q & r & d & Hq & Hr & Hd).
      split; [exact He|]. exists (x :: q), r, d.
      split; [cbn; rewrite Hq; reflexivity|]. split; [exact Hr|].
      cbn [fs_lookup]. rewrite Hx. exact Hd.
    + destruct p as [|y p]; [discriminate|]. intros _.
      change (removelast (x :: y :: p)) with (x :: removelast (y :: p)).
      unfold path_exists. cbn [fs_lookup]. rewrite Hx. discriminate.
Qed.

(** A step of the second script fails only with [NotADirectoryError],
    for a regular file lying on the path before its last component. *)
Lemma make_file_raises path fs e :
  fs_result (make_file path fs) = FsRaise e ->
  e = NotADirectoryError
  /\ exists q r d, path = q ++ r /\ r <> []
                   /\ fs_lookup (fs_state (make_file path fs)) q = Found (FsFile d).
Proof.
  unfold make_file, fs_bind.
  destruct (make_parent_run path fs) as [(e' & Hm & Hpar & ->)|[Hok Hpar]].
  - cbn [fs_result fs_state fst snd]. intros [= <-].
    destruct (mkdir_raises _ _ _ Hm) as (He & q & r & d & Hq & Hd).
    assert (Hne : path <> []).
    { intros ->. cbn in Hpar. discriminate. }
    split.
    + destruct e'; [|contradiction He; reflexivity|reflexivity].
      rewrite (mkdir_raises_exists _ _ Hm) in Hpar. discriminate.
    + exists q, (r ++ [List.last path ""]), d. split; [|split; [|exact Hd]].
      * rewrite app_assoc, <- Hq. apply app_removelast_last, Hne.
      * destruct r; discriminate.
  - destruct (make_parent path fs) as [[r1 fs1] t1].
    cbn [fs_result fs_state fst snd] in Hok, Hpar. subst r1.
    destruct (make_leaf_run path fs1) as [(e' & Ht & ->)|[Hok' _]].
    + cbn [fs_result fs_state fst snd]. intros [= <-].
      exact (touch_raises _ _ _ Ht Hpar).
    + destruct (make_leaf path fs1) as [[r2 fs2] t2].
      cbn [fs_result fst] in Hok'. subst r2. discriminate.
Qed.

(** X21: the loop of productsbalancefiles.py only adds to the tree,
    whatever the tree and however the run ends: a file that was there
    keeps its content, a directory stays a directory.  Its lines are
    true: a directory reported as created was not there before the run
    and is a directory after it; a file reported as created was not
    there and is an empty file after it; a file reported as skipped is
    there. *)
Theorem make_files_only_adds (paths : list fspath) (fs : fsnode) :
  fs_extends fs (fs_state (make_files paths fs))
  /\ Forall (line_true fs (fs_state (make_files paths fs)))
            (fs_lines (make_files paths fs)).
Proof.
  revert fs. change (fs_sound (make_files paths)).
  unfold make_files. apply fs_sound_for. intros p.
  apply fs_sound_bind; [apply make_parent_sound|intros _; apply make_leaf_sound].
Qed.

(** X22: when the loop of productsbalancefiles.py ends without an
    exception, every path of the list exists, and so does its parent
    directory. *)
Theorem make_files_builds (paths : list fspath) (fs : fsnode) :
  fs_result (make_files paths fs) = FsOk tt ->
  Forall (fun p => path_exists (fs_state (make_files paths fs)) p = true
                   /\ path_exists (fs_state (make_files paths fs)) (removelast p)
                      = true)
         paths.
Proof.
  intros Hok. unfold make_files in *.
  apply (fs_for_post
           (fun p st => path_exists st p = true
                        /\ path_exists st (removelast p) = true));
    [apply make_file_sound| | |exact Hok].
  - intros p a b Hab [H1 H2]. split; eapply exists_extends; eassumption.
  - intros p fs0 H. pose proof (make_file_built p fs0 H) as Hex.
    split; [exact Hex|apply exists_removelast, Hex].
Qed.

(** X22 in an empty directory with the script's own [files]. *)
Lemma make_files_builds_witness :
  Forall (fun p => path_exists (fs_state (make_files files (FsDir []))) p = true
                   /\ path_exists (fs_state (make_files files (FsDir [])))
                        (removelast p) = true)
         files.
Proof. exact (make_files_builds files (FsDir []) eq_refl). Defined.

(** X23: the loop of productsbalancefiles.py is idempotent: run again
    on the tree a run without exception has left, it changes nothing,
    makes no directory, and reports every file as skipped. *)
Theorem make_files_idempotent (paths : list fspath) (fs : fsnode) :
  fs_result (make_files paths fs) = FsOk tt ->
  make_files paths (fs_state (make_files paths fs))
  = (FsOk tt, fs_state (make_files paths fs),
     map (FsPrint "Skipped existing file: ") paths).
Proof.
  intros Hok.
  assert (Hb : Forall (fun p => path_exists (fs_state (make_files paths fs)) p = true)
                      paths).
  { unfold make_files in *.
    apply (fs_for_post (fun p st => path_exists st p = true));
      [apply make_file_sound| |apply make_file_built|exact Hok].
    intros p a b Hab. apply exists_extends, Hab. }
  set (st := fs_state (make_files paths fs)) in *. clearbody st.
  unfold make_files.
  rewrite (fs_for_noop (fun p => [FsPrint "Skipped existing file: " p])).
  - rewrite concat_map_singleton. reflexivity.
  - eapply Forall_impl; [exact Hb|]. intros p. apply make_file_noop.
Qed.

(** X23 in an empty directory with the script's own [files]. *)
Lemma make_files_idempotent_witness :
  fs_lines (make_files files (fs_state (make_files files (FsDir []))))
  = map (FsPrint "Skipped existing file: ") files.
Proof.
  exact (f_equal fs_lines (make_files_idempotent files (FsDir []) eq_refl)).
Defined.

(** X24: the loop of productsbalancefiles.py raises only
    [NotADirectoryError], and only when a regular file lies on one of
    the listed paths before its last component; the file is found in
    the tree the run leaves. *)
Theorem make_files_raises (paths : list fspath) (fs : fsnode) (e : oserror) :
  fs_result (make_files paths fs) = FsRaise e ->
  e = NotADirectoryError
  /\ exists p q r d,
       In p paths /\ p = q ++ r /\ r <> []
       /\ fs_lookup (fs_state (make_files paths fs)) q = Found (FsFile d).
Proof.
  unfold make_files. revert fs.
  induction paths as [|p paths IH]; intros fs; [discriminate|].
  cbn [fs_for]. unfold fs_bind.
  pose proof (make_file_raises p fs) as Hp.
  destruct (make_file p fs) as [[[u|e1|] fs1] t1];
    cbn [fs_result fs_state fst snd] in *; [| |discriminate].
  - specialize (IH fs1).
    destruct (fs_for paths make_file fs1) as [[r2 fs2] t2].
    cbn [fs_result fs_state fst snd] in *. intros Hr.
    destruct (IH Hr) as (He & p' & q & r & d & Hin & Hq & Hr' & Hd).
    split; [exact He|]. exists p', q, r, d.
    split; [right; exact Hin|]. repeat split; assumption.
  - intros [= <-]. destruct (Hp e1 eq_refl) as (He & q & r & d & Hq & Hr & Hd).
    split; [exact He|]. exists p, q, r, d.
    split; [left; reflexivity|]. repeat split; assumption.
Qed.

(** X24 on a tree where [src/config] is a regular file: the run stops at
    the third path. *)
Lemma make_files_raises_witness :
  fs_result (make_files files config_is_a_file) = FsRaise NotADirectoryError
  /\ exists p q r d,
       In p files /\ p = q ++ r /\ r <> []
       /\ fs_lookup (fs_state (make_files files config_is_a_file)) q
          = Found (FsFile d).
Proof.
  split; [reflexivity|].
  exact (proj2 (make_files_raises files config_is_a_file NotADirectoryError
                  eq_refl)).
Defined.

(** ** The count a listing function reports *)

Section CountFacts.
Context {E : Env}.

Lemma reports_count (m : M E (list ProxyDict)) args (s : env_state E) :
  never_raises m ->
  exists l t0,
    result_of ((l <- m;; print (args l);; ret l) s) = Ok l
    /\ trace_of ((l <- m;; print (args l);; ret l) s) = t0 ++ [EvPrint (args l)].
Proof.
  intros Hn. destruct (Hn s) as [l Hl].
  destruct (m s) as [[r s'] t] eqn:Hm. cbn [result_of fst] in Hl. subst r.
  exists l, t. rewrite (then_print_run m args s s' l t Hm). split; reflexivity.
Qed.

Lemma api_reports_count src (s : env_state E) :
  src <> FreeproxyWorld ->
  exists l t0,
    result_of (list_candidates src s) = Ok l
    /\ trace_of (list_candidates src s) = t0 ++ [count_line src (len_str l)].
Proof.
  destruct src; intros Hsrc; [contradiction Hsrc; reflexivity| | | |];
    cbn [list_candidates].
  - apply (reports_count _
             (fun l => [Txt ("[ProxyScrape] Total proxies found: " +:+ len_str l)])).
    apply never_raises_for_each. intros [pp pt] b. unfold proxyscrape_protocol.
    apply never_raises_try_collect. intros e. apply never_raises_print.
  - apply (reports_count _
             (fun l => [Txt ("[Proxyscan] Found " +:+ len_str l +:+ " proxies.")])).
    apply never_raises_try_collect. intros e. apply never_raises_print.
  - apply (reports_count _
             (fun l => [Txt ("[PubProxy] Found " +:+ len_str l +:+ " proxies.")])).
    apply never_raises_for_each. intros [[q lb] pt] b. unfold pubproxy_tier.
    apply never_raises_try_collect. intros e. apply never_raises_print.
  - apply (reports_count _
             (fun l => [Txt ("[GetProxyList] Gathered " +:+ len_str l
                             +:+ " proxies from " +:+ PyStr.of_Z (Z.of_nat 10)
                             +:+ " requests.")])).
    apply never_raises_for_each. intros k b. unfold getproxylist_request.
    apply never_raises_try_collect. intros e. apply never_raises_print.
Qed.

End CountFacts.

(** X25: each of the four API listing functions ends by printing the
    size of the batch it returns: the last event of its trace is its
    count line, and the number in it is the length of the returned
    list, whatever happened to the queries. *)
Theorem api_sources_report_their_count (E : Env) (s : env_state E) :
  Forall
    (fun src =>
       exists l t0,
         result_of (list_candidates src s) = Ok l
         /\ trace_of (list_candidates src s) = t0 ++ [count_line src (len_str l)])
    [ProxyScrape; Proxyscan; PubProxy; GetProxyList].
Proof. repeat constructor; apply api_reports_count; discriminate. Qed.

(* ===================================================================== *)
(** * C9: an empty batch sends [main] to the next source *)
(* ===================================================================== *)

Lemma skipn_nth_error {A} (l : list A) k r :
  nth_error l k = Some r -> skipn k l = r :: skipn (S k) l.
Proof.
  revert k. induction l as [|x l IH]; intros [|k]; cbn; try discriminate.
  - intros [= ->]. reflexivity.
  - apply IH.
Qed.

Lemma listing_event_no_fetch e : listing_event e = true -> is_fetch e = false.
Proof.
  destruct e as [rq rp| | |]; try reflexivity. cbn.
  destruct (proxies rq); [reflexivity|discriminate].
Qed.

(** The blocks that ended without a [return] leave the rest of the table
    to run from the state they reached. *)
Lemma run_passed {E : Env} rows rest (final : M E unit) (s0 s : env_state E) pre :
  passed rows s0 s pre ->
  run_rows (rows ++ rest) final s0
  = (result_of (run_rows rest final s), state_of (run_rows rest final s),
     pre ++ trace_of (run_rows rest final s)).
Proof.
  revert s0 pre. induction rows as [|r rows IH]; intros s0 pre.
  - intros [-> ->]. cbn [app]. apply run_eta.
  - intros (s1 & tb & t' & Hb & Hp & ->). cbn [app run_rows].
    unfold stage. unfold bind at 1, print, emit. unfold bind at 1.
    rewrite Hb. rewrite (IH _ _ Hp). cbn [app]. rewrite <- app_assoc. reflexivity.
Qed.

(** C9: take any run of [main] in which the blocks before block [k]
    ended without a [return], and in which the listing function of
    block [k] returns an empty batch.  Then [main] prints the line of
    that block saying so and goes on with block [k+1] from the state the
    listing left; between the announcement of block [k] and block [k+1]
    there is no fetch attempt.  Block [k+1] starts with its announcement
    and the listing of its source, the next one in the fixed order
    freeproxy.world, ProxyScrape, Proxyscan.io, PubProxy, GetProxyList;
    after the fifth block comes the failure line. *)
Theorem C9_empty_batch_skips_fetcher (E : Env) (k : nat) (r : block_row)
    (s0 s s1 : env_state E) (pre t1 : list event) :
  nth_error main_rows k = Some r ->
  passed (firstn k main_rows) s0 s pre ->
  list_candidates (row_source r) s = (Ok [], s1, t1) ->
  main s0
  = (result_of (main_from (S k) s1), state_of (main_from (S k) s1),
     pre ++ EvPrint (row_announce r) :: t1
         ++ EvPrint [Txt (row_no_proxies r)] :: trace_of (main_from (S k) s1))
  /\ count is_fetch
       (EvPrint (row_announce r) :: t1 ++ [EvPrint [Txt (row_no_proxies r)]]) = 0
  /\ match nth_error main_rows (S k) with
     | Some next =>
         nth_error source_order (S k) = Some (row_source next)
         /\ exists t,
              trace_of (main_from (S k) s1)
              = EvPrint (row_announce next)
                :: trace_of (list_candidates (row_source next) s1) ++ t
     | None => main_from (S k) s1 = (Ok tt, s1, [failed_line])
     end
  /\ nth_error source_order k = Some (row_source r).
Proof.
  intros Hk Hpre Hl.
  assert (Hsrc : forall j row, nth_error main_rows j = Some row ->
                               nth_error source_order j = Some (row_source row)).
  { intros j row Hj.
    change source_order with (map row_source main_rows).
    rewrite nth_error_map, Hj. reflexivity. }
  split; [|split; [|split]].
  - rewrite main_rows_eq. rewrite <- (firstn_skipn k main_rows) at 1.
    rewrite (run_passed _ _ _ _ _ _ Hpre).
    rewrite (skipn_nth_error _ _ _ Hk). cbn [run_rows].
    destruct (empty_batch_block E (list_candidates (row_source r)) (row_banner r)
                (row_attempts r) (row_success r) (row_no_proxies r)
                (row_announce r)
                (run_rows (skipn (S k) main_rows)
                   (print [Txt (nl +:+ "FAILED to fetch a valid RSS feed after all attempts.")]))
                s s1 t1 Hl) as (_ & _ & Hst).
    unfold row_block. rewrite Hst. unfold main_from.
    cbn [result_of state_of trace_of fst snd]. rewrite <- app_assoc. reflexivity.
  - pose proof (list_candidates_quiet (row_source r) s) as Hq.
    rewrite Hl in Hq. cbn [trace_of snd] in Hq.
    cbn [count is_fetch]. rewrite count_app.
    rewrite (count_none is_fetch t1).
    + reflexivity.
    + revert Hq. apply forallb_weaken. intros e He.
      rewrite (listing_event_no_fetch e He). reflexivity.
  - destruct (nth_error main_rows (S k)) as [next|] eqn:Hn.
    + split; [apply Hsrc, Hn|]. unfold main_from.
      rewrite (skipn_nth_error _ _ _ Hn). cbn [run_rows]. unfold row_block.
      apply stage_starts_with_listing.
    + unfold main_from. apply nth_error_None in Hn.
      rewrite (skipn_all2 main_rows Hn). reflexivity.
  - apply Hsrc, Hk.
Qed.

(** C9 in the world [unreachable]: freeproxy.world returned an empty
    batch, the block of ProxyScrape (block 1) gets an empty batch too,
    and [main] goes on with Proxyscan.io. *)
Lemma C9_empty_batch_skips_fetcher_witness :
  exists t,
    trace_of (main_from (E:=unreachable) 2 4)
    = EvPrint [Txt (nl +:+ "Now trying Proxyscan.io (2 attempts) ...")]
      :: trace_of (list_candidates (E:=unreachable) Proxyscan 4) ++ t.
Proof.
  assert (Hpre : passed (E:=unreachable) (firstn 1 main_rows) 0 1
            (EvPrint [Txt "Fetching JP proxies from freeproxy.world ..."]
             :: trace_of (row_block (E:=unreachable)
                            {| row_announce := [];
                               row_source := FreeproxyWorld;
                               row_banner := [];
                               row_attempts := 3;
                               row_success := "";
                               row_no_proxies :=
                                 "No Japanese proxies found on freeproxy.world or request failed." |}
                            0) ++ [])).
  { exists 1, (trace_of (row_block (E:=unreachable)
                            {| row_announce := [];
                               row_source := FreeproxyWorld;
                               row_banner := [];
                               row_attempts := 3;
                               row_success := "";
                               row_no_proxies :=
                                 "No Japanese proxies found on freeproxy.world or request failed." |}
                            0)), [].
    split; [reflexivity|]. split; [split; reflexivity|reflexivity]. }
  exact (proj2 (proj1 (proj2 (proj2
    (C9_empty_batch_skips_fetcher unreachable 1
       {| row_announce := [Txt (nl +:+ "Now trying ProxyScrape (2 attempts) ...")];
          row_source := ProxyScrape;
          row_banner := [];
          row_attempts := 2;
          row_success := "Successfully fetched RSS using ProxyScrape proxy!";
          row_no_proxies := "No JP proxies found on ProxyScrape or request failed." |}
       0 1 4 _ (trace_of (list_candidates (E:=unreachable) ProxyScrape 1))
       eq_refl Hpre eq_refl))))).
Defined.

(* ===================================================================== *)
(** * C7: how the sources fail *)
(* ===================================================================== *)

Section SoftFacts.
Context {E : Env}.

Lemma for_append_error {A} (body : A -> res (option ProxyDict)) items acc :
  snd (for_append body items acc)
  = match loop_error body items with
    | Some e => Raise e
    | None => Ok tt
    end.
Proof.
  revert acc. induction items as [|x xs IH]; intros acc; [reflexivity|].
  cbn [for_append loop_error]. destruct (body x) as [[p|]|e];
    [apply IH|apply IH|reflexivity].
Qed.

(** One [try] block around a request, a parse and a loop. *)
Lemma try_collect_query {A} rq (k : Response -> M E (list A)) parse body label acc
    (s : env_state E) :
  (forall r s',
     k r s' = (if status_passes r then parse r
               else Raise (HTTPError (status_code r)), s', [])) ->
  soft_query
    (try_collect (resp <- requests_get rq;; k resp) body
       (fun e => print [Txt label; Err e]) acc s)
    acc rq (listing_reply rq s) label
    (query_outcome parse body (listing_reply rq s)).
Proof.
  intros Hk. unfold soft_query, listing_reply, query_outcome.
  unfold try_collect, bind, try_except, requests_get, print, emit, ret.
  destruct (requests_get_io E rq s) as [[r|e] s1]; cbn [fst].
  - rewrite Hk. destruct (status_passes r).
    + destruct (parse r) as [items|e].
      * pose proof (for_append_kept body items acc) as Hkept.
        pose proof (for_append_error body items acc) as Herr.
        destruct (for_append body items acc) as [acc' [u|e]];
          cbn [fst snd] in Hkept, Herr; subst acc';
          destruct (loop_error body items) as [e'|]; try discriminate Herr.
        -- split; reflexivity.
        -- injection Herr as <-. split; reflexivity.
      * cbn. rewrite app_nil_r. split; reflexivity.
    + cbn. rewrite app_nil_r. split; reflexivity.
  - cbn. rewrite app_nil_r. split; reflexivity.
Qed.

Lemma status_check r :
  ((400 <=? status_code r)%Z && (status_code r <? 600)%Z) = negb (status_passes r).
Proof. unfold status_passes. rewrite negb_involutive. reflexivity. Qed.

Lemma proxyscrape_protocol_soft pp pt acc (s : env_state E) :
  soft_query (proxyscrape_protocol (pp, pt) acc s) acc (proxyscrape_request pp)
    (listing_reply (proxyscrape_request pp) s)
    ("[ProxyScrape - " +:+ pp +:+ "] Error:")
    (query_outcome proxyscrape_parse (proxyscrape_line pt)
       (listing_reply (proxyscrape_request pp) s)).
Proof.
  unfold proxyscrape_protocol. cbv zeta. apply try_collect_query.
  intros r s'. unfold bind, raise_for_status, ret, raise, proxyscrape_parse.
  rewrite status_check. destruct (status_passes r); reflexivity.
Qed.

Lemma pubproxy_tier_soft query label pt acc (s : env_state E) :
  soft_query (pubproxy_tier (query, label, pt) acc s) acc (pubproxy_request query)
    (listing_reply (pubproxy_request query) s)
    ("[PubProxy - " +:+ label +:+ "] Error:")
    (query_outcome pubproxy_parse (pubproxy_item pt)
       (listing_reply (pubproxy_request query) s)).
Proof.
  unfold pubproxy_tier. cbv zeta. apply try_collect_query.
  intros r s'. unfold bind, raise_for_status, lift, ret, raise, pubproxy_parse,
    res_bind.
  rewrite status_check. destruct (status_passes r); cbn [negb]; [|reflexivity].
  destruct (json r) as [data|e]; [|reflexivity].
  destruct (dict_get data "data" (PList [])) as [items|e]; [|reflexivity].
  destruct (py_iter items); reflexivity.
Qed.

Lemma getproxylist_request_soft k acc (s : env_state E) :
  soft_query (getproxylist_request k acc s) acc getproxylist_get
    (listing_reply getproxylist_get s)
    "[GetProxyList] Single request error:"
    (query_outcome getproxylist_parse (getproxylist_proto (E:=E))
       (listing_reply getproxylist_get s)).
Proof.
  unfold getproxylist_request. cbv zeta. apply try_collect_query.
  intros r s'. unfold bind, raise_for_status, lift, ret, raise, getproxylist_parse,
    res_bind.
  rewrite status_check. destruct (status_passes r); cbn [negb]; [|reflexivity].
  destruct (json r) as [data|e]; [|reflexivity].
  destruct (getproxylist_protocols data); reflexivity.
Qed.

Lemma proxyscan_query_soft (s : env_state E) :
  soft_query
    (try_collect
       (resp <- requests_get proxyscan_request;;
        raise_for_status resp;;
        data <- lift (json resp);;
        lift (py_iter data))
       proxyscan_entry
       (fun e => print [Txt "[Proxyscan] Error:"; Err e])
       [] s)
    [] proxyscan_request (listing_reply proxyscan_request s) "[Proxyscan] Error:"
    (query_outcome proxyscan_parse proxyscan_entry
       (listing_reply proxyscan_request s)).
Proof.
  apply try_collect_query.
  intros r s'. unfold bind, raise_for_status, lift, ret, raise, proxyscan_parse,
    res_bind.
  rewrite status_check. destruct (status_passes r); cbn [negb]; [|reflexivity].
  destruct (json r) as [data|e]; [|reflexivity].
  destruct (py_iter data); reflexivity.
Qed.

(** A query that failed adds nothing and prints its diagnostic. *)
Lemma soft_query_failed x acc rq rp label out :
  soft_query (E:=E) x acc rq rp label out ->
  (request_error rp <> None -> fst out = [] /\ snd out <> None) ->
  forallb get_failed (trace_of x) = true ->
  result_of x = Ok acc /\ existsb is_diagnostic (trace_of x) = true.
Proof.
  intros [Hr Ht] Hout Hf. rewrite Ht in Hf. cbn [forallb get_failed] in Hf.
  apply andb_true_iff in Hf as [Hf _].
  assert (Hne : request_error rp <> None).
  { destruct (request_error rp); [discriminate|discriminate Hf]. }
  destruct (Hout Hne) as [Ho Hs]. rewrite Hr, Ho, app_nil_r.
  split; [reflexivity|]. rewrite Ht.
  destruct (snd out) as [e|]; [reflexivity|contradiction Hs; reflexivity].
Qed.

Lemma query_outcome_failed {A} (parse : Response -> res (list A)) body rp :
  request_error rp <> None ->
  fst (query_outcome parse body rp) = [] /\ snd (query_outcome parse body rp) <> None.
Proof.
  unfold query_outcome, request_error. destruct rp as [r|e].
  - destruct (status_passes r); [intros H; contradiction H; reflexivity|].
    intros _. split; [reflexivity|discriminate].
  - intros _. split; [reflexivity|discriminate].
Qed.

(** A loop of queries all of which failed leaves the batch as it was. *)
Lemma for_each_all_failed {A} (f : A -> list ProxyDict -> M E (list ProxyDict))
    items acc (s : env_state E) :
  (forall x b s0,
     forallb get_failed (trace_of (f x b s0)) = true ->
     result_of (f x b s0) = Ok b
     /\ existsb is_diagnostic (trace_of (f x b s0)) = true) ->
  forallb get_failed (trace_of (for_each f items acc s)) = true ->
  result_of (for_each f items acc s) = Ok acc
  /\ (items <> [] ->
      existsb is_diagnostic (trace_of (for_each f items acc s)) = true).
Proof.
  intros Hf. revert acc s. induction items as [|x xs IH]; intros acc s.
  - intros _. split; [reflexivity|]. intros H. contradiction H. reflexivity.
  - cbn [for_each]. unfold bind. specialize (Hf x acc s).
    destruct (f x acc s) as [[[b|e] s1] t1]; cbn [result_of trace_of fst snd] in *.
    + specialize (IH b s1).
      destruct (for_each f xs b s1) as [[r s2] t2].
      cbn [result_of trace_of fst snd] in *.
      rewrite forallb_app. intros H. apply andb_true_iff in H as [H1 H2].
      destruct (Hf H1) as [Hb Hd]. injection Hb as ->.
      destruct (IH H2) as [Hr _]. split; [exact Hr|].
      intros _. rewrite existsb_app, Hd. reflexivity.
    + intros H. destruct (Hf H) as [Hb _]. discriminate Hb.
Qed.

Lemma then_print_all_failed (m : M E (list ProxyDict)) args (s : env_state E) :
  (forallb get_failed (trace_of (m s)) = true ->
   result_of (m s) = Ok [] /\ existsb is_diagnostic (trace_of (m s)) = true) ->
  forallb get_failed (trace_of ((l <- m;; print (args l);; ret l) s)) = true ->
  result_of ((l <- m;; print (args l);; ret l) s) = Ok []
  /\ existsb is_diagnostic (trace_of ((l <- m;; print (args l);; ret l) s)) = true.
Proof.
  intros Hm. unfold bind, print, emit, ret.
  destruct (m s) as [[[l|e] s1] t1]; cbn [result_of trace_of fst snd] in *.
  - rewrite app_nil_r, forallb_app. intros H. apply andb_true_iff in H as [H _].
    destruct (Hm H) as [Hr Hd]. split; [exact Hr|].
    rewrite existsb_app, Hd. reflexivity.
  - intros H. destruct (Hm H) as [Hr _]. discriminate Hr.
Qed.

(** Every source: when all its requests failed, an empty batch and a
    diagnostic. *)
Lemma source_all_failed src (s : env_state E) :
  forallb get_failed (trace_of (list_candidates src s)) = true ->
  result_of (list_candidates src s) = Ok []
  /\ existsb is_diagnostic (trace_of (list_candidates src s)) = true.
Proof.
  destruct src; cbn [list_candidates].
  - unfold get_jp_proxies_from_freeproxy_world, bind, try_except, requests_get,
      raise_for_status, print, emit, ret, raise.
    destruct (requests_get_io E (get "https://www.freeproxy.world/?country=JP" 10) s)
      as [[r|e] s'] eqn:Hget; [|intros _; split; reflexivity].
    rewrite status_check.
    destruct (status_passes r) eqn:Hst; cbn [negb]; [|intros _; split; reflexivity].
    cbn [trace_of snd fst app]. intros H.
    assert (Hg : get_failed (EvGet (get "https://www.freeproxy.world/?country=JP" 10)
                               (Ok r)) = true).
    { destruct (layui_table (soup r)) as [[rows|]|];
        [destruct (for_append freeproxy_row rows []) as [px [u|e]]|..];
        cbn in H; apply andb_true_iff in H as [H _]; exact H. }
    cbn in Hg. rewrite Hst in Hg. discriminate Hg.
  - unfold get_jp_proxies_from_proxyscrape.
    apply (then_print_all_failed _
             (fun l => [Txt ("[ProxyScrape] Total proxies found: " +:+ len_str l)])).
    intros H. cbv zeta in *.
    assert (HF : forall x b (s0 : env_state E),
              forallb get_failed (trace_of (proxyscrape_protocol x b s0)) = true ->
              result_of (proxyscrape_protocol x b s0) = Ok b
              /\ existsb is_diagnostic (trace_of (proxyscrape_protocol x b s0)) = true).
    { intros [pp pt] b s0.
      apply (soft_query_failed _ _ _ _ _ _ (proxyscrape_protocol_soft pp pt b s0)).
      apply query_outcome_failed. }
    destruct (for_each_all_failed _ _ _ _ HF H) as [Hr Hd].
    split; [exact Hr|apply Hd; discriminate].
  - unfold get_jp_proxies_from_proxyscan.
    apply (then_print_all_failed _
             (fun l => [Txt ("[Proxyscan] Found " +:+ len_str l +:+ " proxies.")])).
    apply (soft_query_failed _ _ _ _ _ _ (proxyscan_query_soft s)).
    apply query_outcome_failed.
  - unfold get_jp_proxies_from_pubproxy.
    apply (then_print_all_failed _
             (fun l => [Txt ("[PubProxy] Found " +:+ len_str l +:+ " proxies.")])).
    intros H.
    assert (HF : forall x b (s0 : env_state E),
              forallb get_failed (trace_of (pubproxy_tier x b s0)) = true ->
              result_of (pubproxy_tier x b s0) = Ok b
              /\ existsb is_diagnostic (trace_of (pubproxy_tier x b s0)) = true).
    { intros [[q lb] pt] b s0.
      apply (soft_query_failed _ _ _ _ _ _ (pubproxy_tier_soft q lb pt b s0)).
      apply query_outcome_failed. }
    destruct (for_each_all_failed _ _ _ _ HF H) as [Hr Hd].
    split; [exact Hr|apply Hd; discriminate].
  - unfold get_jp_proxies_from_getproxylist.
    apply (then_print_all_failed _
             (fun l => [Txt ("[GetProxyList] Gathered " +:+ len_str l
                             +:+ " proxies from " +:+ PyStr.of_Z (Z.of_nat 10)
                             +:+ " requests.")])).
    intros H.
    assert (HF : forall x b (s0 : env_state E),
              forallb get_failed (trace_of (getproxylist_request x b s0)) = true ->
              result_of (getproxylist_request x b s0) = Ok b
              /\ existsb is_diagnostic (trace_of (getproxylist_request x b s0)) = true).
    { intros k b s0.
      apply (soft_query_failed _ _ _ _ _ _ (getproxylist_request_soft k b s0)).
      apply query_outcome_failed. }
    destruct (for_each_all_failed _ _ _ _ HF H) as [Hr Hd].
    split; [exact Hr|apply Hd; discriminate].
Qed.

End SoftFacts.

(** C7 (amended): the four API sources (ProxyScrape, Proxyscan.io,
    PubProxy, GetProxyList) never raise to the caller, whatever the
    providers answer.  Each of their queries is a [try] block: when its
    request raises or comes back with an error status, when its reply
    cannot be parsed, or when an entry raises, the exception is caught
    and printed in the diagnostic line of that query, and the batch keeps
    what was gathered before the error, the records of the earlier
    queries and of the entries before the failing one, and gains nothing
    more from that query ([query_outcome]).  For every source,
    freeproxy.world included, when every request of the call fails the
    source prints a diagnostic and returns an empty batch; and
    freeproxy.world returns an empty batch, with a line that says why,
    whenever its request raises, comes back with an error status, or its
    page has no table or no table body. *)
Theorem C7_sources_fail_softly (E : Env) (s : env_state E) :
  (forall src, src <> FreeproxyWorld ->
     exists l, result_of (list_candidates src s) = Ok l)
  /\ (forall pp pt acc,
        soft_query (proxyscrape_protocol (pp, pt) acc s) acc
          (proxyscrape_request pp) (listing_reply (proxyscrape_request pp) s)
          ("[ProxyScrape - " +:+ pp +:+ "] Error:")
          (query_outcome proxyscrape_parse (proxyscrape_line pt)
             (listing_reply (proxyscrape_request pp) s)))
  /\ (result_of (get_jp_proxies_from_proxyscan s)
      = Ok (fst (query_outcome proxyscan_parse proxyscan_entry
                   (listing_reply proxyscan_request s)))
      /\ trace_of (get_jp_proxies_from_proxyscan s)
         = EvGet proxyscan_request (listing_reply proxyscan_request s)
           :: match snd (query_outcome proxyscan_parse proxyscan_entry
                           (listing_reply proxyscan_request s)) with
              | Some e => [EvPrint [Txt "[Proxyscan] Error:"; Err e]]
              | None => []
              end
           ++ [count_line Proxyscan
                 (len_str (fst (query_outcome proxyscan_parse proxyscan_entry
                                  (listing_reply proxyscan_request s))))])
  /\ (forall query label pt acc,
        soft_query (pubproxy_tier (query, label, pt) acc s) acc
          (pubproxy_request query) (listing_reply (pubproxy_request query) s)
          ("[PubProxy - " +:+ label +:+ "] Error:")
          (query_outcome pubproxy_parse (pubproxy_item pt)
             (listing_reply (pubproxy_request query) s)))
  /\ (forall k acc,
        soft_query (getproxylist_request k acc s) acc getproxylist_get
          (listing_reply getproxylist_get s)
          "[GetProxyList] Single request error:"
          (query_outcome getproxylist_parse (getproxylist_proto (E:=E))
             (listing_reply getproxylist_get s)))
  /\ (forall src,
        forallb get_failed (trace_of (list_candidates src s)) = true ->
        result_of (list_candidates src s) = Ok []
        /\ existsb is_diagnostic (trace_of (list_candidates src s)) = true)
  /\ (page_unusable (listing_reply freeproxy_world_request s) = true ->
      result_of (list_candidates FreeproxyWorld s) = Ok []
      /\ existsb is_print (trace_of (list_candidates FreeproxyWorld s)) = true).
Proof.
  split; [|split; [|split; [|split; [|split; [|split]]]]].
  - intros src Hsrc. destruct src; cbn [list_candidates].
    + contradiction Hsrc; reflexivity.
    + apply proxyscrape_never_raises.
    + apply proxyscan_never_raises.
    + apply pubproxy_never_raises.
    + apply getproxylist_never_raises.
  - intros pp pt acc. apply proxyscrape_protocol_soft.
  - destruct (proxyscan_query_soft s) as [Hr Ht].
    unfold get_jp_proxies_from_proxyscan. cbv zeta. fold proxyscan_request.
    match type of Hr with
    | result_of ?x = _ => destruct x as [[r s1] t1] eqn:Hx
    end.
    cbn [result_of trace_of fst snd app] in Hr, Ht. subst r t1.
    rewrite (then_print_run _
               (fun l => [Txt ("[Proxyscan] Found " +:+ len_str l +:+ " proxies.")])
               s s1 _ _ Hx).
    cbn [result_of trace_of fst snd app]. split; reflexivity.
  - intros query label pt acc. apply pubproxy_tier_soft.
  - intros k acc. apply getproxylist_request_soft.
  - intros src. apply source_all_failed.
  - apply freeproxy_world_unusable.
Qed.

(** C7 in two worlds.  In [half_scrape] the SOCKS4 query of ProxyScrape,
    started with the batch of the HTTP query, cannot be reached: the
    batch is kept as it is.  In [unreachable] every request of
    freeproxy.world and of GetProxyList fails: an empty batch and a
    diagnostic. *)
Lemma C7_sources_fail_softly_witness :
  result_of (proxyscrape_protocol (E:=half_scrape) ("socks4", "socks4")
               [sample_proxy] 1)
  = Ok [sample_proxy]
  /\ (result_of (list_candidates (E:=unreachable) FreeproxyWorld 0) = Ok []
      /\ existsb is_diagnostic
           (trace_of (list_candidates (E:=unreachable) FreeproxyWorld 0)) = true)
  /\ (result_of (list_candidates (E:=unreachable) GetProxyList 0) = Ok []
      /\ existsb is_diagnostic
           (trace_of (list_candidates (E:=unreachable) GetProxyList 0)) = true)
  /\ (result_of (list_candidates (E:=unreachable) FreeproxyWorld 0) = Ok []
      /\ existsb is_print
           (trace_of (list_candidates (E:=unreachable) FreeproxyWorld 0)) = true).
Proof.
  split; [|split; [|split]].
  - exact (proj1 (proj1 (proj2 (C7_sources_fail_softly half_scrape 1))
                    "socks4" "socks4" [sample_proxy])).
  - apply (proj1 (proj2 (proj2 (proj2 (proj2 (proj2
             (C7_sources_fail_softly unreachable 0))))))).
    reflexivity.
  - apply (proj1 (proj2 (proj2 (proj2 (proj2 (proj2
             (C7_sources_fail_softly unreachable 0))))))).
    reflexivity.
  - apply (proj2 (proj2 (proj2 (proj2 (proj2 (proj2
             (C7_sources_fail_softly unreachable 0))))))).
    reflexivity.
Defined.
